(** * GiveAGift: the semantic retrieval core of the server

    A shallow embedding of [supabase/functions/make-server-db41cb13/index.ts]:
    the key-value store and its relational mirror, the profile, submit and
    delete handlers, name resolution, [generateSimpleEmbedding],
    [cosineSimilarity] and the ranking of the [search-gifts] handler.

    Conventions of the embedding.
    - A JavaScript number is an IEEE-754 binary64 value: Rocq's primitive
      [float], whose operations are the ones JavaScript uses.
    - A JavaScript string is a [string] of 8-bit code units, read as the
      Latin-1 range U+0000..U+00FF; [toLowerCase] and [trim] are closed on it.
    - A JSON object read back from a store is a record of optional fields
      ([None] is JavaScript's [undefined]); the handlers only ever look at
      the fields listed in [Item.t].
    - A handler is a function of the world (both stores, the event log, the
      number of identifiers drawn) returning its HTTP response and the new
      world; what the handler cannot decide (the authenticated user, the
      remote embedding model, the clock, random identifiers, the order in
      which concurrent writes land) is read from [Env]. *)

From Stdlib Require Import ZArith List Bool String Ascii Floats Lia.
From Stdlib Require Import Permutation Sorted PeanoNat.
Import ListNotations.

Local Open Scope string_scope.
Local Open Scope list_scope.

(** ** JavaScript strings *)

Module JsString.

(** White space and line terminators removed by [String.prototype.trim],
    within the Latin-1 range: TAB, LF, VT, FF, CR, SP and NBSP. *)
Definition isWhiteSpace (c : ascii) : bool :=
  let n := nat_of_ascii c in
  (((9 <=? n) && (n <=? 13)) || (n =? 32) || (n =? 160))%nat.

Fixpoint trimStart (s : string) : string :=
  match s with
  | EmptyString => EmptyString
  | String c r => if isWhiteSpace c then trimStart r else s
  end.

Fixpoint trimEnd (s : string) : string :=
  match s with
  | EmptyString => EmptyString
  | String c r =>
      match trimEnd r with
      | EmptyString => if isWhiteSpace c then EmptyString else String c EmptyString
      | r' => String c r'
      end
  end.

Definition trim (s : string) : string := trimEnd (trimStart s).

(** [toLowerCase] on one code unit: A-Z and the accented capitals
    U+00C0..U+00DE (except the multiplication sign U+00D7). *)
Definition lowerChar (c : ascii) : ascii :=
  let n := nat_of_ascii c in
  if (((65 <=? n) && (n <=? 90)) || ((192 <=? n) && (n <=? 222) && negb (n =? 215)))%nat
  then ascii_of_nat (n + 32)
  else c.

Fixpoint toLowerCase (s : string) : string :=
  match s with
  | EmptyString => EmptyString
  | String c r => String (lowerChar c) (toLowerCase r)
  end.

(** [String.prototype.startsWith]. *)
Definition startsWith (s p : string) : bool := String.prefix p s.

(** JavaScript truthiness of a field that holds a string when present:
    [undefined] and the empty string are falsy. *)
Definition truthy (o : option string) : bool :=
  match o with
  | Some (String _ _) => true
  | _ => false
  end.

(** A value interpolated in a template literal. *)
Definition interp (o : option string) : string :=
  match o with
  | Some s => s
  | None => "undefined"
  end.

(** [a || b] on strings. *)
Definition orElse (o : option string) (d : string) : string :=
  match o with
  | Some (String c r) => String c r
  | _ => d
  end.

End JsString.

Import JsString.

(** ** Records held by the two stores *)

(** A JSON object of the key-value store, seen through the fields the
    handlers read.  Profiles, categories and notes share this one shape and
    are told apart only by which fields are present. *)
Module Item.
Record t := mk {
  id : option string;
  name : option string;
  avatar : option string;
  description : option string;
  categoryName : option string;
  entry : option string;
  categoryId : option string;
  profileId : option string;
  userId : option string;
  embedding : option (list float);
  createdAt : option string;
  updatedAt : option string
}.
End Item.

(** A row of the Postgres table [profiles]. *)
Module ProfileRow.
Record t := mk {
  id : string;
  user_id : string;
  name : string;
  avatar : string;
  description : string;
  created_at : string
}.
End ProfileRow.

(** A row of the Postgres table [memory_items]. *)
Module MemoryRow.
Record t := mk {
  id : string;
  user_id : string;
  profile_id : string;
  profile_name : option string;
  entry : option string;
  embedding : list float;
  created_at : string;
  updated_at : string
}.
End MemoryRow.

(** A category and a note as they arrive in the body of a submit request. *)
Module CategoryInput.
Record t := mk {
  id : option string;
  name : option string;
  createdAt : option string
}.
End CategoryInput.

Module NoteInput.
Record t := mk {
  id : option string;
  entry : option string;
  categoryId : option string;
  createdAt : option string
}.
End NoteInput.

(** ** The key-value store *)

Module Kv.

Definition store := list (string * Item.t).

(** Modelled from the spec: [kv_store.tsx] is not among the sources.  The
    spec gives [listByPrefix(prefix) -> list<value>]: the values whose key
    starts with the prefix, here in the order the store lists them. *)
Definition getByPrefix (prefix : string) (s : store) : list Item.t :=
  map snd (filter (fun kv => startsWith (fst kv) prefix) s).

(** Modelled from the spec: [get(key)], each key maps to one record. *)
Fixpoint get (key : string) (s : store) : option Item.t :=
  match s with
  | [] => None
  | (k, v) :: r => if String.eqb k key then Some v else get key r
  end.

(** Modelled from the spec: [set(key, value)].  The spec leaves the order
    of a listing open; in this list a key already present keeps its place
    and a new key goes last, and no property of a listing's order is
    drawn from that. *)
Fixpoint set (key : string) (v : Item.t) (s : store) : store :=
  match s with
  | [] => [(key, v)]
  | (k, v') :: r =>
      if String.eqb k key then (k, v) :: r else (k, v') :: set key v r
  end.

(** Modelled from the spec: [delete(key)]. *)
Definition del (key : string) (s : store) : store :=
  filter (fun kv => negb (String.eqb (fst kv) key)) s.

(** Modelled from the spec: [deleteMany(keys)]. *)
Definition mdel (keys : list string) (s : store) : store :=
  filter (fun kv => negb (existsb (String.eqb (fst kv)) keys)) s.

Definition keys (s : store) : list string := map fst s.

End Kv.

(** Keys of the form
    [user:{userId}:profile:{profileId}[:category:{id} | :note:{id}]]. *)
Definition profilePrefix (userId : string) : string :=
  "user:" ++ userId ++ ":profile:".

Definition profileKey (userId profileId : string) : string :=
  profilePrefix userId ++ profileId.

Definition notePrefix (userId profileId : string) : string :=
  profileKey userId profileId ++ ":note:".

Definition noteKey (userId profileId noteId : string) : string :=
  notePrefix userId profileId ++ noteId.

Definition categoryPrefix (userId profileId : string) : string :=
  profileKey userId profileId ++ ":category:".

Definition categoryKey (userId profileId categoryId : string) : string :=
  categoryPrefix userId profileId ++ categoryId.

(** ** The relational mirror *)

Module Db.

(** Modelled from the spec: the tables' schema is not among the sources;
    [id] is the primary key the upserts conflict on, so an upsert replaces
    the row with the same [id] or appends a new one. *)
Fixpoint upsertProfile (row : ProfileRow.t) (t : list ProfileRow.t) : list ProfileRow.t :=
  match t with
  | [] => [row]
  | r :: rest =>
      if String.eqb (ProfileRow.id r) (ProfileRow.id row) then row :: rest
      else r :: upsertProfile row rest
  end.

Fixpoint upsertMemory (row : MemoryRow.t) (t : list MemoryRow.t) : list MemoryRow.t :=
  match t with
  | [] => [row]
  | r :: rest =>
      if String.eqb (MemoryRow.id r) (MemoryRow.id row) then row :: rest
      else r :: upsertMemory row rest
  end.

(** [from("profiles").select("name").eq("user_id", u).eq("id", p).maybeSingle()]:
    the row when exactly one matches, no data otherwise. *)
Definition selectProfileName (u p : string) (t : list ProfileRow.t) : option string :=
  match filter (fun r => String.eqb (ProfileRow.user_id r) u && String.eqb (ProfileRow.id r) p) t with
  | [r] => Some (ProfileRow.name r)
  | _ => None
  end.

(** [from("memory_items").delete().eq("user_id", u).eq("profile_id", p)]. *)
Definition deleteMemoryOfProfile (u p : string) (t : list MemoryRow.t) : list MemoryRow.t :=
  filter (fun r => negb (String.eqb (MemoryRow.user_id r) u && String.eqb (MemoryRow.profile_id r) p)) t.

(** The same with [.eq("id", noteId)]. *)
Definition deleteMemoryItem (u p n : string) (t : list MemoryRow.t) : list MemoryRow.t :=
  filter (fun r => negb (String.eqb (MemoryRow.user_id r) u
                         && String.eqb (MemoryRow.profile_id r) p
                         && String.eqb (MemoryRow.id r) n)) t.

(** The row of [memory_items] with a given primary key. *)
Definition findMemory (id : string) (t : list MemoryRow.t) : option MemoryRow.t :=
  find (fun r => String.eqb (MemoryRow.id r) id) t.

(** [from("profiles").delete().eq("user_id", u).eq("id", p)]. *)
Definition deleteProfile (u p : string) (t : list ProfileRow.t) : list ProfileRow.t :=
  filter (fun r => negb (String.eqb (ProfileRow.user_id r) u && String.eqb (ProfileRow.id r) p)) t.

End Db.

(** ** Vector math and ranking *)

Local Open Scope float_scope.

(** The accumulators [dotProduct], [magA] and [magB] of [cosineSimilarity]. *)
Record Sums := mkSums { dotProduct : float; magA : float; magB : float }.

(** One turn of the [for] loop, at an index where both vectors have an
    element. *)
Definition accumulate (acc : Sums) (a b : float) : Sums :=
  mkSums (dotProduct acc + a * b) (magA acc + a * a) (magB acc + b * b).

(** The loop [for (let i = 0; i < vecA.length; i++)], entered only when the
    two lengths agree. *)
Fixpoint sumLoop (vecA vecB : list float) (acc : Sums) : Sums :=
  match vecA, vecB with
  | a :: vecA', b :: vecB' => sumLoop vecA' vecB' (accumulate acc a b)
  | _, _ => acc
  end.

(** [cosineSimilarity(vecA, vecB)]; both arguments are arrays at every call
    (the caller passes [note.embedding || []]), so the [!vecA || !vecB]
    test only leaves the two emptiness tests. *)
Definition cosineSimilarity (vecA vecB : list float) : float :=
  if (List.length vecA =? 0)%nat || (List.length vecB =? 0)%nat then 0
  else if negb (List.length vecA =? List.length vecB)%nat then 0
  else
    let s := sumLoop vecA vecB (mkSums 0 0 0) in
    let magA := sqrt (magA s) in
    let magB := sqrt (magB s) in
    if (magA =? 0) || (magB =? 0) then 0
    else dotProduct s / (magA * magB).

(** [Array.prototype.sort(compareFn)]: a stable sort in which [a] is placed
    after [b] exactly when [compareFn(a, b) > 0].  Whenever [compareFn] is a
    consistent comparator every conforming engine returns this list. *)
Fixpoint insertBy {A : Type} (compareFn : A -> A -> float) (x : A) (l : list A) : list A :=
  match l with
  | [] => [x]
  | y :: l' => if 0 <? compareFn x y then y :: insertBy compareFn x l' else x :: l
  end.

Definition sortBy {A : Type} (compareFn : A -> A -> float) (l : list A) : list A :=
  fold_right (insertBy compareFn) [] l.

(** [Array.prototype.slice(0, n)]. *)
Definition slice0 {A : Type} (n : nat) (l : list A) : list A := firstn n l.

(** A note spread into a fresh object together with its [similarity]. *)
Record Scored := mkScored { note : Item.t; similarity : float }.

(** [note.embedding || []]: an array is always truthy. *)
Definition embeddingOf (n : Item.t) : list float :=
  match Item.embedding n with
  | Some v => v
  | None => []
  end.

Definition score (queryEmbedding : list float) (n : Item.t) : Scored :=
  mkScored n (cosineSimilarity queryEmbedding (embeddingOf n)).

(** The comparator [(a, b) => b.similarity - a.similarity]. *)
Definition bySimilarityDesc (a b : Scored) : float :=
  similarity b - similarity a.

(** [notes.map(...).sort(...).slice(0, 10)]. *)
Definition scoredNotes (queryEmbedding : list float) (notes : list Item.t) : list Scored :=
  slice0 10 (sortBy bySimilarityDesc (map (score queryEmbedding) notes)).

(** [new Array(768).fill(0)]. *)
Definition zeroVector : list float := repeat 0 768.

Local Close Scope float_scope.

(** ** Responses *)

(** One element of [relevantNotes]. *)
Record RelevantNote := mkRelevant {
  noteId : option string;
  rEntry : option string;
  rProfileId : option string;
  relevanceScore : string;
  amazonSearchUrl : string
}.

Inductive Body :=
| ErrorBody (error : string)
| ProfilesBody (profiles : list Item.t)
| ProfileBody (profile : Item.t)
| CategoriesBody (categories : list Item.t)
| NotesBody (notes : list Item.t)
| SuccessBody
| SubmitBody (message : string)
| NoNotesBody (gifts matchedNotes : list RelevantNote) (message : string)
| SearchBody (query usedProfile : string) (totalNotesSearched : nat)
             (relevantNotes : list RelevantNote) (message : string).

(** [c.json(body, status)]. *)
Definition Response : Type := nat * Body.

Definition json (body : Body) : Response := (200, body).
Definition jsonStatus (body : Body) (status : nat) : Response := (status, body).

(** ** The world a handler runs in *)

(** What a handler does to the outside: calls on the key-value store, on
    the Postgres tables and on the remote embedding model. *)
Inductive Event :=
| KvGetByPrefix (prefix : string)
| KvSet (key : string)
| KvDel (key : string)
| KvMdel (keys : list string)
| DbSelect (table : string)
| DbUpsert (table id : string)
| DbDelete (table : string)
| EmbedContent (text : string).

Definition isStoreEvent (e : Event) : bool :=
  match e with
  | EmbedContent _ => false
  | _ => true
  end.

(** The two stores, the number of random identifiers drawn so far, and the
    calls made so far, oldest first; the log is kept only to state in
    which order a handler reaches the outside. *)
Record World := mkWorld {
  kv : Kv.store;
  profiles : list ProfileRow.t;
  memory_items : list MemoryRow.t;
  uuidsDrawn : nat;
  log : list Event
}.

(** A write dispatched by the submit handler. *)
Inductive Write :=
| WriteKv (key : string) (value : Item.t)
| WriteMemory (row : MemoryRow.t).

(** The places where a request reads the clock with [new Date()]: once
    when a profile is created, once for a category that came without
    [createdAt], and for the note at a given index of [notes] once for
    [createdAt] (when the note came without) and once for [updatedAt]. *)
Inductive Reading :=
| ProfileCreated
| CategoryCreated (index : nat)
| NoteCreated (index : nat)
| NoteUpdated (index : nat).

Record Env := mkEnv {
  (** [supabase.auth.getUser(accessToken)]: the user's id when the token is
      valid. *)
  authUser : option string;
  (** [embeddingModel]: absent without [GEMINI_API_KEY]; [embedContent]
      rejects with a message or resolves to [result.embedding.values],
      which may be missing. *)
  embeddingModel : option (string -> string + option (list float));
  (** The n-th value of [crypto.randomUUID()]. *)
  randomUUID : nat -> string;
  (** [new Date().toISOString()] as each place reads it; no two readings
      need agree. *)
  now : Reading -> string;
  (** [x.toFixed(2)] and [encodeURIComponent]. *)
  toFixed2 : float -> string;
  encodeURIComponent : string -> string;
  (** The order in which the writes of concurrently running branches reach
      the stores. *)
  schedule : list (list Write) -> list Write
}.

(** [l] runs every branch of [bs] to its end, each in its own order. *)
Inductive Interleaves {A : Type} : list (list A) -> list A -> Prop :=
| interleaves_done bs : Forall (fun b => b = []) bs -> Interleaves bs []
| interleaves_step pre x b post l :
    Interleaves (pre ++ b :: post) l ->
    Interleaves (pre ++ (x :: b) :: post) (x :: l).

(** ** Handlers as state-passing computations *)

Inductive Outcome (A : Type) :=
| Value (a : A)
| Return (r : Response)
| Throw (message : string).

Arguments Value {A} a.
Arguments Return {A} r.
Arguments Throw {A} message.

Definition Handler (A : Type) : Type := World -> Outcome A * World.

Definition ret {A : Type} (a : A) : Handler A := fun w => (Value a, w).

Definition bind {A B : Type} (m : Handler A) (k : A -> Handler B) : Handler B :=
  fun w =>
    match m w with
    | (Value a, w') => k a w'
    | (Return r, w') => (Return r, w')
    | (Throw e, w') => (Throw e, w')
    end.

Notation "x <- m ;; k" := (bind m (fun x => k))
  (at level 61, m at next level, right associativity).
Notation "m ;;; k" := (bind m (fun _ => k))
  (at level 61, right associativity).

(** [return c.json(...)] and [throw new Error(...)]. *)
Definition respond {A : Type} (r : Response) : Handler A := fun w => (Return r, w).
Definition throw {A : Type} (message : string) : Handler A := fun w => (Throw message, w).

(** [try { ... } catch (error) { return c.json(onError(error), 500) }]. *)
Definition tryCatch (body : Handler Response) (onError : string -> Response)
  (w : World) : Response * World :=
  match body w with
  | (Value r, w') => (r, w')
  | (Return r, w') => (r, w')
  | (Throw e, w') => (onError e, w')
  end.

Definition emit (e : Event) : Handler unit :=
  fun w => (Value tt, mkWorld (kv w) (profiles w) (memory_items w) (uuidsDrawn w) (log w ++ [e])).

Definition withKv (f : Kv.store -> Kv.store) : Handler unit :=
  fun w => (Value tt, mkWorld (f (kv w)) (profiles w) (memory_items w) (uuidsDrawn w) (log w)).

Definition withProfiles (f : list ProfileRow.t -> list ProfileRow.t) : Handler unit :=
  fun w => (Value tt, mkWorld (kv w) (f (profiles w)) (memory_items w) (uuidsDrawn w) (log w)).

Definition withMemory (f : list MemoryRow.t -> list MemoryRow.t) : Handler unit :=
  fun w => (Value tt, mkWorld (kv w) (profiles w) (f (memory_items w)) (uuidsDrawn w) (log w)).

Definition kvGetByPrefix (prefix : string) : Handler (list Item.t) :=
  emit (KvGetByPrefix prefix) ;;; fun w => (Value (Kv.getByPrefix prefix (kv w)), w).

Definition kvSet (key : string) (v : Item.t) : Handler unit :=
  emit (KvSet key) ;;; withKv (Kv.set key v).

Definition kvDel (key : string) : Handler unit :=
  emit (KvDel key) ;;; withKv (Kv.del key).

Definition kvMdel (keys : list string) : Handler unit :=
  emit (KvMdel keys) ;;; withKv (Kv.mdel keys).

Definition upsertProfileRow (row : ProfileRow.t) : Handler unit :=
  emit (DbUpsert "profiles" (ProfileRow.id row)) ;;; withProfiles (Db.upsertProfile row).

Definition upsertMemoryRow (row : MemoryRow.t) : Handler unit :=
  emit (DbUpsert "memory_items" (MemoryRow.id row)) ;;; withMemory (Db.upsertMemory row).

Definition selectProfileName (u p : string) : Handler (option string) :=
  emit (DbSelect "profiles") ;;; fun w => (Value (Db.selectProfileName u p (profiles w)), w).

(** [crypto.randomUUID()]. *)
Definition drawUUID (env : Env) : Handler string :=
  fun w => (Value (randomUUID env (uuidsDrawn w)),
            mkWorld (kv w) (profiles w) (memory_items w) (S (uuidsDrawn w)) (log w)).

(** The check every handler starts with:
    [if (!user || authError) return c.json({ error: "Unauthorized" }, 401)]. *)
Definition requireUser (env : Env) : Handler string :=
  match authUser env with
  | Some u => ret u
  | None => respond (jsonStatus (ErrorBody "Unauthorized") 401)
  end.

(** ** The handlers

    A handler takes the parts of the request it reads: path parameters as
    strings, the fields of the JSON body as optional strings ([None] when
    the field is missing) and the [categories] and [notes] arrays as lists
    (empty when missing). *)

(** The shape test that tells a profile from the categories and notes
    listed under the same prefix:
    [item.name && item.description && !item.categoryName && !item.entry]. *)
Definition isProfileObject (item : Item.t) : bool :=
  truthy (Item.name item) && truthy (Item.description item)
  && negb (truthy (Item.categoryName item)) && negb (truthy (Item.entry item)).

(** GET /profiles *)
Definition listProfiles (env : Env) : World -> Response * World :=
  tryCatch
    (user <- requireUser env ;;
     allItems <- kvGetByPrefix (profilePrefix user) ;;
     ret (json (ProfilesBody (filter isProfileObject allItems))))
    (fun _ => jsonStatus (ErrorBody "Failed to fetch profiles") 500).

(** [!x || typeof x !== "string" || x.trim() === ""]. *)
Definition isBlank (o : option string) : bool :=
  negb (truthy o) || String.eqb (trim (interp o)) "".

(** POST /profiles *)
Definition createProfile (env : Env) (name avatar description : option string)
  : World -> Response * World :=
  tryCatch
    (user <- requireUser env ;;
     allItems <- kvGetByPrefix (profilePrefix user) ;;
     let existingProfiles := filter isProfileObject allItems in
     if (5 <=? List.length existingProfiles)%nat then
       respond (jsonStatus (ErrorBody "Maximum 5 profiles allowed") 400)
     else if isBlank name then
       respond (jsonStatus (ErrorBody "Profile name is required") 400)
     else if isBlank description then
       respond (jsonStatus (ErrorBody "Profile description is required") 400)
     else
       profileId <- drawUUID env ;;
       let createdAt := now env ProfileCreated in
       let profile :=
         Item.mk (Some profileId) (Some (trim (interp name))) (Some (orElse avatar ""))
                 (Some (trim (interp description))) None None None None
                 (Some user) None (Some createdAt) None in
       kvSet (profileKey user profileId) profile ;;;
       upsertProfileRow
         (ProfileRow.mk profileId user (trim (interp name)) (orElse avatar "")
                        (trim (interp description)) createdAt) ;;;
       ret (json (ProfileBody profile)))
    (fun _ => jsonStatus (ErrorBody "Failed to create profile") 500).

(** DELETE /profiles/:profileId *)
Definition deleteProfile (env : Env) (profileId : string) : World -> Response * World :=
  tryCatch
    (user <- requireUser env ;;
     notes <- kvGetByPrefix (notePrefix user profileId) ;;
     categories <- kvGetByPrefix (categoryPrefix user profileId) ;;
     let keysToDelete :=
       (profileKey user profileId
        :: map (fun n => noteKey user profileId (interp (Item.id n))) notes
        ++ map (fun cat => categoryKey user profileId (interp (Item.id cat))) categories)%list in
     kvMdel keysToDelete ;;;
     emit (DbDelete "memory_items") ;;;
     withMemory (Db.deleteMemoryOfProfile user profileId) ;;;
     emit (DbDelete "profiles") ;;;
     withProfiles (Db.deleteProfile user profileId) ;;;
     ret (json SuccessBody))
    (fun _ => jsonStatus (ErrorBody "Failed to delete profile") 500).

(** GET /profiles/:profileId/categories *)
Definition listCategories (env : Env) (profileId : string) : World -> Response * World :=
  tryCatch
    (user <- requireUser env ;;
     categories <- kvGetByPrefix (categoryPrefix user profileId) ;;
     ret (json (CategoriesBody categories)))
    (fun _ => jsonStatus (ErrorBody "Failed to fetch categories") 500).

(** GET /profiles/:profileId/notes *)
Definition listNotes (env : Env) (profileId : string) : World -> Response * World :=
  tryCatch
    (user <- requireUser env ;;
     notes <- kvGetByPrefix (notePrefix user profileId) ;;
     ret (json (NotesBody notes)))
    (fun _ => jsonStatus (ErrorBody "Failed to fetch notes") 500).

(** [generateSimpleEmbedding(text)]. *)
Definition generateSimpleEmbedding (env : Env) (text : string) : Handler (list float) :=
  match embeddingModel env with
  | None => throw "Gemini embedding model is not initialized."
  | Some embedContent =>
      let clean := text in
      if String.eqb (trim clean) "" then ret zeroVector
      else
        emit (EmbedContent clean) ;;;
        match embedContent clean with
        | inl message => throw message
        | inr (Some values) => ret values
        | inr None => ret []
        end
  end.

(** The settled state of a promise: a rejection is kept as a value, so the
    sibling branches of a [Promise.all] go on. *)
Definition settle {A : Type} (m : Handler A) : Handler (string + A) :=
  fun w =>
    match m w with
    | (Value a, w') => (Value (inr a), w')
    | (Return r, w') => (Return r, w')
    | (Throw e, w') => (Value (inl e), w')
    end.

(** [l.map(f)] for a callback with effects, run along the list.  The
    callbacks of the source do not look at the index of their element; it
    is passed on here, counted from [index], only to tell the clock
    readings of the elements apart. *)
Fixpoint mapM {A B : Type} (f : nat -> A -> Handler B) (index : nat) (l : list A)
  : Handler (list B) :=
  match l with
  | [] => ret []
  | x :: l' => y <- f index x ;; ys <- mapM f (S index) l' ;; ret (y :: ys)
  end.

(** [x.id || crypto.randomUUID()]. *)
Definition idOrFresh (env : Env) (id : option string) : Handler string :=
  if truthy id then ret (interp id) else drawUUID env.

(** The record the submit handler stores for a category. *)
Definition categoryRecord (env : Env) (user profileId categoryId : string)
  (index : nat) (category : CategoryInput.t) : Item.t :=
  Item.mk (Some categoryId) (CategoryInput.name category) None None None None None
          (Some profileId) (Some user) None
          (Some (orElse (CategoryInput.createdAt category) (now env (CategoryCreated index))))
          None.

(** The record it stores for a note, and the row it upserts into
    [memory_items]. *)
Definition noteRecord (user profileId noteId : string) (n : NoteInput.t)
  (embedding : list float) (createdAt updatedAt : string) : Item.t :=
  Item.mk (Some noteId) None None None None (NoteInput.entry n)
          (NoteInput.categoryId n) (Some profileId) (Some user)
          (Some embedding) (Some createdAt) (Some updatedAt).

Definition memoryRow (user profileId : string) (profileNameForMemory : option string)
  (noteId : string) (n : NoteInput.t) (embedding : list float)
  (createdAt updatedAt : string) : MemoryRow.t :=
  MemoryRow.mk noteId user profileId profileNameForMemory
               (NoteInput.entry n) embedding createdAt updatedAt.

(** The synchronous part of one element of [categoryPromises]: the key and
    the record handed to [kv.set]. *)
Definition categoryBranch (env : Env) (user profileId : string)
  (index : nat) (category : CategoryInput.t) : Handler (list Write) :=
  categoryId <- idOrFresh env (CategoryInput.id category) ;;
  ret [WriteKv (categoryKey user profileId categoryId)
         (categoryRecord env user profileId categoryId index category)].

(** One element of [notePromises] up to its writes: the identifier, the
    embedding, then the record for [kv.set] and the row for the upsert into
    [memory_items]; a failed embedding leaves the branch without writes. *)
Definition noteBranch (env : Env) (user profileId : string)
  (profileNameForMemory : option string) (index : nat) (n : NoteInput.t)
  : Handler (string + list Write) :=
  noteId <- idOrFresh env (NoteInput.id n) ;;
  let textContent := orElse (NoteInput.entry n) "" in
  settle
    (embedding <- generateSimpleEmbedding env textContent ;;
     let createdAt := orElse (NoteInput.createdAt n) (now env (NoteCreated index)) in
     let updatedAt := now env (NoteUpdated index) in
     ret [WriteKv (noteKey user profileId noteId)
            (noteRecord user profileId noteId n embedding createdAt updatedAt);
          WriteMemory
            (memoryRow user profileId profileNameForMemory noteId n embedding
                       createdAt updatedAt)]).

Definition applyWrite (wr : Write) : Handler unit :=
  match wr with
  | WriteKv key value => kvSet key value
  | WriteMemory row => upsertMemoryRow row
  end.

Fixpoint applyWrites (l : list Write) : Handler unit :=
  match l with
  | [] => ret tt
  | wr :: l' => applyWrite wr ;;; applyWrites l'
  end.

(** The branches of [notePromises] that reached their writes, and the
    message of the first that was rejected. *)
Fixpoint fulfilled {A : Type} (l : list (string + A)) : list A :=
  match l with
  | [] => []
  | inl _ :: l' => fulfilled l'
  | inr a :: l' => a :: fulfilled l'
  end.

Fixpoint firstRejection {A : Type} (l : list (string + A)) : option string :=
  match l with
  | [] => None
  | inl e :: _ => Some e
  | inr _ :: l' => firstRejection l'
  end.

(** POST /profiles/:profileId/submit.  The writes of all branches land in
    the order [schedule env] picks; a rejected branch does not stop the
    others, and makes the handler answer 500 with its message. *)
Definition submit (env : Env) (profileId : string)
  (categories : list CategoryInput.t) (notes : list NoteInput.t)
  : World -> Response * World :=
  tryCatch
    (user <- requireUser env ;;
     profileNameForMemory <- selectProfileName user profileId ;;
     categoryPromises <- mapM (categoryBranch env user profileId) 0 categories ;;
     notePromises <- mapM (noteBranch env user profileId profileNameForMemory) 0 notes ;;
     applyWrites (schedule env (categoryPromises ++ fulfilled notePromises)%list) ;;;
     match firstRejection notePromises with
     | Some message => throw message
     | None => ret (json (SubmitBody "Notes and categories saved with vector embeddings"))
     end)
    (fun message => jsonStatus (ErrorBody message) 500).

(** DELETE /profiles/:profileId/notes/:noteId *)
Definition deleteNote (env : Env) (profileId noteId : string) : World -> Response * World :=
  tryCatch
    (user <- requireUser env ;;
     kvDel (noteKey user profileId noteId) ;;;
     emit (DbDelete "memory_items") ;;;
     withMemory (Db.deleteMemoryItem user profileId noteId) ;;;
     ret (json SuccessBody))
    (fun _ => jsonStatus (ErrorBody "Failed to delete note") 500).

(** The name test of the search handler:
    [item.name && item.name.toLowerCase().trim() === profileName.toLowerCase().trim()]. *)
Definition nameMatches (profileName : string) (item : Item.t) : bool :=
  truthy (Item.name item)
  && String.eqb (trim (toLowerCase (interp (Item.name item)))) (trim (toLowerCase profileName)).

(** The resolution of [profileName] to an identifier, run only when no
    [profileId] came with the request. *)
Definition resolveProfile (user : string) (profileId profileName : option string)
  : Handler (option string) :=
  if negb (truthy profileId) && truthy profileName then
    allProfiles <- kvGetByPrefix (profilePrefix user) ;;
    match filter (nameMatches (interp profileName)) allProfiles with
    | [] =>
        respond (jsonStatus
                   (ErrorBody ("No profile found with name '" ++ interp profileName ++ "'")) 404)
    | first :: _ => ret (Item.id first)
    end
  else ret profileId.

(** [item.entry !== undefined]. *)
Definition hasEntry (item : Item.t) : bool :=
  match Item.entry item with
  | Some _ => true
  | None => false
  end.

Definition relevant (env : Env) (s : Scored) : RelevantNote :=
  mkRelevant (Item.id (note s)) (Item.entry (note s)) (Item.profileId (note s))
             (toFixed2 env (similarity s * 100)%float ++ "%")
             ("https://www.amazon.com/s?k=" ++ encodeURIComponent env (interp (Item.entry (note s)))).

Definition noNotesMessage : string :=
  "No notes found. Please add notes to profiles first.".

Definition searchMessage : string :=
  "Use the matched notes to suggest relevant gift products to the user.".

(** The prefix the candidates are read from. *)
Definition searchPrefix (user : string) (resolvedProfileId : option string) : string :=
  if truthy resolvedProfileId then notePrefix user (interp resolvedProfileId)
  else profilePrefix user.

(** POST /search-gifts *)
Definition searchGifts (env : Env) (query profileId profileName : option string)
  : World -> Response * World :=
  tryCatch
    (user <- requireUser env ;;
     if negb (truthy query) then
       respond (jsonStatus (ErrorBody "Query string is required") 400)
     else
       resolvedProfileId <- resolveProfile user profileId profileName ;;
       queryEmbedding <- generateSimpleEmbedding env (interp query) ;;
       allNotes <- kvGetByPrefix (searchPrefix user resolvedProfileId) ;;
       let notes := filter hasEntry allNotes in
       if (List.length notes =? 0)%nat then
         respond (json (NoNotesBody [] [] noNotesMessage))
       else
         let relevantData := map (relevant env) (scoredNotes queryEmbedding notes) in
         ret (json (SearchBody (interp query)
                      (match resolvedProfileId with Some p => p | None => "all-profiles" end)
                      (List.length notes) relevantData searchMessage)))
    (fun _ => jsonStatus (ErrorBody "Failed to search for gifts") 500).

(** ** Vocabulary of the properties *)

(** Every earlier element has a similarity at least that of every later one. *)
Definition descending (l : list Scored) : Prop :=
  StronglySorted (fun a b => (similarity b <=? similarity a)%float = true) l.

(** Elements of equal similarity stand in [result] in the order they have in
    [original]. *)
Definition tiesKeepOrder (original result : list Scored) : Prop :=
  forall s : float,
    filter (fun x => (similarity x =? s)%float) result
    = filter (fun x => (similarity x =? s)%float) original.

(** A scored note whose similarity is a number. *)
Definition notNaN (x : Scored) : Prop := is_nan (similarity x) = false.

(** A vector all of whose components are zero (of either sign). *)
Definition isZeroVector (v : list float) : Prop :=
  Forall (fun x => (x =? 0)%float = true) v.

(** The candidate notes of a search over the prefix of [resolvedProfileId]. *)
Definition candidateNotes (user : string) (resolvedProfileId : option string)
  (s : Kv.store) : list Item.t :=
  filter hasEntry (Kv.getByPrefix (searchPrefix user resolvedProfileId) s).

(** [generateSimpleEmbedding env text] resolves to [v]. *)
Definition embedsTo (env : Env) (text : string) (v : list float) : Prop :=
  forall w, fst (generateSimpleEmbedding env text w) = Value v.

(** The ranked notes a response carries. *)
Definition rankedNotes (r : Response) : list RelevantNote :=
  match snd r with
  | SearchBody _ _ _ relevantNotes _ => relevantNotes
  | NoNotesBody _ matchedNotes _ => matchedNotes
  | _ => []
  end.

(** The world after one more event. *)
Definition logged (e : Event) (w : World) : World :=
  mkWorld (kv w) (profiles w) (memory_items w) (uuidsDrawn w) (log w ++ [e]).

(** Two worlds with the same stores and identifier count; only the log may
    differ. *)
Definition sameStores (w w' : World) : Prop :=
  kv w' = kv w /\ profiles w' = profiles w /\ memory_items w' = memory_items w
  /\ uuidsDrawn w' = uuidsDrawn w.

(** The store events of a log. *)
Definition storeEvents (l : list Event) : list Event := filter isStoreEvent l.


(** The identifiers [idOrFresh] hands out along a list, from the [n]-th
    random identifier on. *)
Fixpoint assignIds (env : Env) (n : nat) (ids : list (option string)) : list string :=
  match ids with
  | [] => []
  | id :: ids' =>
      if truthy id then interp id :: assignIds env n ids'
      else randomUUID env n :: assignIds env (S n) ids'
  end.

(** How many random identifiers that takes. *)
Definition freshCount (ids : list (option string)) : nat :=
  List.length (filter (fun id => negb (truthy id)) ids).

(** What [generateSimpleEmbedding] comes to, as a value: the message it
    throws or the vector it resolves to. *)
Definition embedResult (env : Env) (text : string) : string + list float :=
  match embeddingModel env with
  | None => inl "Gemini embedding model is not initialized."
  | Some embedContent =>
      if String.eqb (trim text) "" then inr zeroVector
      else
        match embedContent text with
        | inl message => inl message
        | inr (Some values) => inr values
        | inr None => inr []
        end
  end.

(** The text a note is embedded from: [note.entry || ""]. *)
Definition textContent (n : NoteInput.t) : string := orElse (NoteInput.entry n) "".

(** The two writes of the note at [index] whose embedding is [e]. *)
Definition noteWrites (env : Env) (user profileId : string)
  (profileNameForMemory : option string) (n : NoteInput.t) (noteId : string)
  (index : nat) (e : list float) : list Write :=
  [WriteKv (noteKey user profileId noteId)
     (noteRecord user profileId noteId n e
                 (orElse (NoteInput.createdAt n) (now env (NoteCreated index)))
                 (now env (NoteUpdated index)));
   WriteMemory
     (memoryRow user profileId profileNameForMemory noteId n e
                (orElse (NoteInput.createdAt n) (now env (NoteCreated index)))
                (now env (NoteUpdated index)))].

(** The branches of [categoryPromises] and the settled [notePromises], as
    values: the identifiers are drawn along the list from the [k]-th
    random one, and the elements are counted from [index]. *)
Fixpoint categoryWrites (env : Env) (user profileId : string) (k index : nat)
  (categories : list CategoryInput.t) : list (list Write) :=
  match categories with
  | [] => []
  | c :: rest =>
      let categoryId :=
        if truthy (CategoryInput.id c) then interp (CategoryInput.id c) else randomUUID env k in
      [WriteKv (categoryKey user profileId categoryId)
         (categoryRecord env user profileId categoryId index c)]
      :: categoryWrites env user profileId
           (if truthy (CategoryInput.id c) then k else S k) (S index) rest
  end.

Fixpoint settledNotes (env : Env) (user profileId : string)
  (profileNameForMemory : option string) (k index : nat) (notes : list NoteInput.t)
  : list (string + list Write) :=
  match notes with
  | [] => []
  | n :: rest =>
      let noteId :=
        if truthy (NoteInput.id n) then interp (NoteInput.id n) else randomUUID env k in
      match embedResult env (textContent n) with
      | inl message => inl message
      | inr e => inr (noteWrites env user profileId profileNameForMemory n noteId index e)
      end
      :: settledNotes env user profileId profileNameForMemory
           (if truthy (NoteInput.id n) then k else S k) (S index) rest
  end.

(** The stores after a sequence of writes has landed. *)
Definition landKv (l : list Write) (s : Kv.store) : Kv.store :=
  fold_left (fun s wr => match wr with WriteKv k v => Kv.set k v s | WriteMemory _ => s end) l s.

Definition landMemory (l : list Write) (t : list MemoryRow.t) : list MemoryRow.t :=
  fold_left (fun t wr => match wr with WriteKv _ _ => t | WriteMemory row => Db.upsertMemory row t end)
            l t.

Definition eventOf (wr : Write) : Event :=
  match wr with
  | WriteKv k _ => KvSet k
  | WriteMemory row => DbUpsert "memory_items" (MemoryRow.id row)
  end.

(** ** Sample data *)

Module Sample.

Local Open Scope float_scope.

(** A deterministic stand-in for the remote model: texts about gardening
    lie on the first axis, all others on the second. *)
Definition embedder (text : string) : string + option (list float) :=
  if String.eqb text "gardening" || String.eqb text "loves gardening"
  then inr (Some [1; 0]) else inr (Some [0; 1]).

(** A stand-in for [toFixed(2)], exact on the scores the samples meet. *)
Definition fixed2 (x : float) : string :=
  if x =? 0 then "0.00" else if x =? 100 then "100.00" else "50.00".

Definition uuid (n : nat) : string :=
  "00000000-0000-4000-8000-00000000000" ++ String (ascii_of_nat (48 + n)) "".

Definition timestamp : string := "2025-01-01T00:00:00.000Z".

(** A clock that stands still. *)
Definition clock (r : Reading) : string := timestamp.

(** A signed-in user, the model configured, branches landing one after
    the other. *)
Definition env : Env :=
  mkEnv (Some "u1") (Some embedder) uuid clock fixed2 (fun s => s) (@List.concat Write).

Definition emptyWorld : World := mkWorld [] [] [] 0 [].

Definition profile (id name : string) : Item.t :=
  Item.mk (Some id) (Some name) (Some "") (Some "family") None None None None
          (Some "u1") None (Some timestamp) None.

Definition category (id name profileId : string) : Item.t :=
  Item.mk (Some id) (Some name) None None None None None (Some profileId)
          (Some "u1") None (Some timestamp) None.

Definition storedNote (id entry profileId : string) (embedding : option (list float)) : Item.t :=
  Item.mk (Some id) None None None None (Some entry) (Some "c1") (Some profileId)
          (Some "u1") embedding (Some timestamp) (Some timestamp).

Definition memory (id entry profileId profileName : string) (embedding : list float)
  : MemoryRow.t :=
  MemoryRow.mk id "u1" profileId (Some profileName) (Some entry) embedding timestamp timestamp.

(** One profile with a category and four notes, three of them with the
    same embedding. *)
Definition momWorld : World :=
  mkWorld
    [(profileKey "u1" "p1", profile "p1" "Mom");
     (categoryKey "u1" "p1" "c1", category "c1" "Hobbies" "p1");
     (noteKey "u1" "p1" "n1", storedNote "n1" "reads novels" "p1" (Some [0; 1]));
     (noteKey "u1" "p1" "n2", storedNote "n2" "loves gardening" "p1" (Some [1; 0]));
     (noteKey "u1" "p1" "n3", storedNote "n3" "gardening" "p1" (Some [1; 0]));
     (noteKey "u1" "p1" "n4", storedNote "n4" "loves gardening" "p1" (Some [1; 0]))]
    [ProfileRow.mk "p1" "u1" "Mom" "" "family" timestamp]
    [memory "n1" "reads novels" "p1" "Mom" [0; 1];
     memory "n2" "loves gardening" "p1" "Mom" [1; 0];
     memory "n3" "gardening" "p1" "Mom" [1; 0];
     memory "n4" "loves gardening" "p1" "Mom" [1; 0]]
    0 [].

(** A second submit for that profile: the note "n2" again, with a new
    entry, and a note that has no identifier yet. *)
Definition resubmitted : NoteInput.t :=
  NoteInput.mk (Some "n2") (Some "loves roses") (Some "c1") None.

Definition unsaved : NoteInput.t :=
  NoteInput.mk None (Some "gardening") (Some "c1") None.

(** A profile without notes yet, a note for it, and a provider that
    answers the text of that note without [values]. *)
Definition bareWorld : World :=
  mkWorld [(profileKey "u1" "p1", profile "p1" "Mom")]
          [ProfileRow.mk "p1" "u1" "Mom" "" "family" timestamp] [] 0 [].

Definition teaNote : NoteInput.t :=
  NoteInput.mk (Some "n1") (Some "likes tea") (Some "c1") None.

Definition quietEmbedder (text : string) : string + option (list float) :=
  if String.eqb text "likes tea" then inr None else embedder text.

Definition quietEnv : Env :=
  mkEnv (Some "u1") (Some quietEmbedder) uuid clock fixed2 (fun s => s) (@List.concat Write).


(** The profile "Dad" with a category named "Mom": no profile is named
    "Mom". *)
Definition dadWorld : World :=
  mkWorld
    [(profileKey "u1" "p1", profile "p1" "Dad");
     (categoryKey "u1" "p1" "c1", category "c1" "Mom" "p1")]
    [ProfileRow.mk "p1" "u1" "Dad" "" "family" timestamp] [] 0 [].

(** A model and a store with components near the top of the binary64
    range: [0x1p700] is 2^700, about 5.26e210. *)
Definition hugeEmbedder (text : string) : string + option (list float) :=
  inr (Some [0x1p700]).

Definition hugeEnv : Env :=
  mkEnv (Some "u1") (Some hugeEmbedder) uuid clock fixed2 (fun s => s) (@List.concat Write).

Definition hugeWorld : World :=
  mkWorld
    [(noteKey "u1" "p1" "a", storedNote "a" "a yacht" "p1" (Some [0x1p700]));
     (noteKey "u1" "p1" "b", storedNote "b" "a book" "p1" (Some [1]))]
    [] [] 0 [].

End Sample.

(** ** The pages that call the server

    [src/components/VisualizePage.tsx] draws the embeddings of a profile's
    notes; [NotesPage.tsx] edits the categories and notes of a profile
    before they are submitted.  A React state update is the new value of
    the state variable; a handler is a function from the state it closed
    over to the state after its updates. *)

Module VisualizePage.

Local Open Scope float_scope.

(** [cosineSimilarity] of the page: no emptiness test, the loop runs over
    [vecA] once the lengths agree. *)
Definition cosineSimilarity (vecA vecB : list float) : float :=
  if negb (List.length vecA =? List.length vecB)%nat then 0
  else
    let s := sumLoop vecA vecB (mkSums 0 0 0) in
    let magA := sqrt (magA s) in
    let magB := sqrt (magB s) in
    if (magA =? 0) || (magB =? 0) then 0
    else dotProduct s / (magA * magB).

(** One cell of the matrix:
    [note1.embedding && note2.embedding ? cosineSimilarity(...) : 0]. *)
Definition cell (note1 note2 : Item.t) : float :=
  match Item.embedding note1, Item.embedding note2 with
  | Some e1, Some e2 => cosineSimilarity e1 e2
  | _, _ => 0
  end.

(** [calculateSimilarityMatrix()]: row [i] holds the similarities of note
    [i] to every note. *)
Definition calculateSimilarityMatrix (notes : list Item.t) : list (list float) :=
  map (fun note1 => map (fun note2 => cell note1 note2) notes) notes.

(** [notes.length > 0 ? calculateSimilarityMatrix() : []]. *)
Definition similarityMatrix (notes : list Item.t) : list (list float) :=
  if (0 <? List.length notes)%nat then calculateSimilarityMatrix notes else [].

Local Close Scope float_scope.

(** [Math.ceil(embedding.length / 64)]: the quotient by a power of two is
    exact, so this is the rounded-up integer quotient. *)
Definition step (embedding : list float) : nat := (List.length embedding + 63) / 64.

(** [l.filter((_, idx) => idx % step === 0)], with [idx] counted from [i]. *)
Fixpoint everyNth {A : Type} (step i : nat) (l : list A) : list A :=
  match l with
  | [] => []
  | x :: l' =>
      if (i mod step =? 0)%nat then x :: everyNth step (S i) l'
      else everyNth step (S i) l'
  end.

(** [sampledEmbedding] of [renderEmbeddingVisualization]. *)
Definition sampledEmbedding (embedding : list float) : list float :=
  everyNth (step embedding) 0 embedding.

(** [getCategoryName(categoryId)]: [categories.find(c => c.id === categoryId)],
    then [cat?.name || 'Unknown']. *)
Definition getCategoryName (categories : list Item.t) (categoryId : string) : string :=
  match find (fun c => match Item.id c with
                       | Some i => String.eqb i categoryId
                       | None => false
                       end) categories with
  | Some cat => orElse (Item.name cat) "Unknown"
  | None => "Unknown"
  end.

End VisualizePage.

Module NotesPage.

(** The state variables of the page the editing handlers touch. *)
Record State := mkState {
  categories : list CategoryInput.t;
  notes : list NoteInput.t;
  activeCategory : option string;
  newCategoryName : string
}.

(** [x === s] where [x] may be [undefined]. *)
Definition equals (x : option string) (s : string) : bool :=
  match x with
  | Some y => String.eqb y s
  | None => false
  end.

(** [a === b] where either may be [undefined]. *)
Definition same (a b : option string) : bool :=
  match a, b with
  | Some x, Some y => String.eqb x y
  | None, None => true
  | _, _ => false
  end.


(** [deleteCategory(categoryId)]; the handler reads [categories] as it was
    when the page was rendered. *)
Definition deleteCategory (categoryId : string) (st : State) : State :=
  mkState
    (filter (fun c => negb (equals (CategoryInput.id c) categoryId)) (categories st))
    (filter (fun n => negb (equals (NoteInput.categoryId n) categoryId)) (notes st))
    (if equals (activeCategory st) categoryId && (0 <? List.length (categories st))%nat
     then match categories st with
          | first :: _ => CategoryInput.id first
          | [] => activeCategory st
          end
     else activeCategory st)
    (newCategoryName st).

(** [addNote], with the value [crypto.randomUUID()] returns. *)
Definition addNote (uuid : string) (st : State) : State :=
  if negb (truthy (activeCategory st)) then st
  else
    mkState (categories st)
            (notes st ++ [NoteInput.mk (Some uuid) (Some "") (activeCategory st) None])
            (activeCategory st) (newCategoryName st).

(** [updateNote(noteId, 'entry', value)]. *)
Definition updateNote (noteId value : string) (st : State) : State :=
  mkState (categories st)
          (map (fun n =>
                  if equals (NoteInput.id n) noteId
                  then NoteInput.mk (NoteInput.id n) (Some value) (NoteInput.categoryId n)
                                    (NoteInput.createdAt n)
                  else n) (notes st))
          (activeCategory st) (newCategoryName st).

(** The state update of [deleteNote(noteId)], after the request to the
    server. *)
Definition removeNote (noteId : string) (st : State) : State :=
  mkState (categories st)
          (filter (fun n => negb (equals (NoteInput.id n) noteId)) (notes st))
          (activeCategory st) (newCategoryName st).

(** [categoryNotes]: the notes shown under the active category. *)
Definition categoryNotes (st : State) : list NoteInput.t :=
  filter (fun n => same (NoteInput.categoryId n) (activeCategory st)) (notes st).

End NotesPage.

(** ** More vocabulary *)

(** A user identifier without a colon, as the identifiers the
    authentication service hands out are. *)
Fixpoint colonFree (s : string) : bool :=
  match s with
  | EmptyString => true
  | String c r => negb (Ascii.eqb c ":") && colonFree r
  end.

(** The profiles a store lists for a user. *)
Definition profilesOf (user : string) (s : Kv.store) : list Item.t :=
  filter isProfileObject (Kv.getByPrefix (profilePrefix user) s).

(** The record and the row [createProfile] writes. *)
Definition profileRecord (env : Env) (user profileId : string)
  (name avatar description : option string) : Item.t :=
  Item.mk (Some profileId) (Some (trim (interp name))) (Some (orElse avatar ""))
          (Some (trim (interp description))) None None None None
          (Some user) None (Some (now env ProfileCreated)) None.

Definition profileRow (env : Env) (user profileId : string)
  (name avatar description : option string) : ProfileRow.t :=
  ProfileRow.mk profileId user (trim (interp name)) (orElse avatar "")
                (trim (interp description)) (now env ProfileCreated).

(** Every note of the editing page belongs to a category of the page. *)
Definition filed (st : NotesPage.State) : Prop :=
  forall n, In n (NotesPage.notes st) ->
    exists c i, In c (NotesPage.categories st)
                /\ NoteInput.categoryId n = Some i /\ CategoryInput.id c = Some i.


(** The notes of a list that carry a given identifier. *)
Definition withId (noteId : string) (l : list NoteInput.t) : list NoteInput.t :=
  filter (fun n => NotesPage.equals (NoteInput.id n) noteId) l.

Module Sample2.

(** A request without a valid token. *)
Definition anonymous : Env :=
  mkEnv None (Some Sample.embedder) Sample.uuid Sample.clock Sample.fixed2
        (fun s => s) (@List.concat Write).

(** A deployment without [GEMINI_API_KEY]. *)
Definition noModel : Env :=
  mkEnv (Some "u1") None Sample.uuid Sample.clock Sample.fixed2
        (fun s => s) (@List.concat Write).

(** Another signed-in user. *)
Definition other : Env :=
  mkEnv (Some "u2") (Some Sample.embedder) Sample.uuid Sample.clock Sample.fixed2
        (fun s => s) (@List.concat Write).

(** A user with five profiles. *)
Definition fullWorld : World :=
  mkWorld
    [(profileKey "u1" "p1", Sample.profile "p1" "Mom");
     (profileKey "u1" "p2", Sample.profile "p2" "Dad");
     (profileKey "u1" "p3", Sample.profile "p3" "Ann");
     (profileKey "u1" "p4", Sample.profile "p4" "Bob");
     (profileKey "u1" "p5", Sample.profile "p5" "Cleo")]
    [] [] 5 [].

(** The editing page with two categories and three notes. *)
Definition page : NotesPage.State :=
  NotesPage.mkState
    [CategoryInput.mk (Some "c1") (Some "Hobbies") None;
     CategoryInput.mk (Some "c2") (Some "Colours") None]
    [NoteInput.mk (Some "n1") (Some "reads novels") (Some "c1") None;
     NoteInput.mk (Some "n2") (Some "teal") (Some "c2") None;
     NoteInput.mk (Some "n3") (Some "gardening") (Some "c1") None]
    (Some "c1") "Music".

End Sample2.

(** * Facts *)

(** ** Binary64 arithmetic

    The comparator of the ranking subtracts two similarities and the sort
    looks at the sign of the difference.  This part derives, from the
    specification of the primitive operations, that the sign of [b - a]
    decides [a < b] for numbers that are not NaN, and the order laws the
    ranking needs. *)

Section Binary64.

Local Open Scope Z_scope.


Lemma digits2_pos_lower (m : positive) : 2 ^ (Z.pos (digits2_pos m) - 1) <= Z.pos m.
Proof.
  induction m as [m IH | m IH | ]; cbn [digits2_pos].
  - rewrite Pos2Z.inj_succ. replace (Z.succ (Z.pos (digits2_pos m)) - 1) with (Z.succ (Z.pos (digits2_pos m) - 1)) by lia.
    rewrite Z.pow_succ_r by lia. lia.
  - rewrite Pos2Z.inj_succ. replace (Z.succ (Z.pos (digits2_pos m)) - 1) with (Z.succ (Z.pos (digits2_pos m) - 1)) by lia.
    rewrite Z.pow_succ_r by lia. lia.
  - reflexivity.
Qed.

Lemma digits2_pos_upper (m : positive) : Z.pos m < 2 ^ Z.pos (digits2_pos m).
Proof.
  induction m as [m IH | m IH | ]; cbn [digits2_pos].
  - rewrite Pos2Z.inj_succ, Z.pow_succ_r by lia. lia.
  - rewrite Pos2Z.inj_succ, Z.pow_succ_r by lia. lia.
  - reflexivity.
Qed.

(** One right shift halves a non-negative mantissa. *)
Lemma shr_1_m (mrs : shr_record) :
  0 <= shr_m mrs -> shr_m (shr_1 mrs) = shr_m mrs / 2.
Proof.
  destruct mrs as [m r s]; cbn [shr_m]. intros Hm.
  destruct m as [ | [p | p | ] | p]; cbn [shr_1 shr_m]; try reflexivity; try lia.
  - apply Z.div_unique with (r := 1); lia.
  - apply Z.div_unique with (r := 0); lia.
Qed.

Lemma pow2_xI (p : positive) : 2 ^ Z.pos p~1 = 2 * (2 ^ Z.pos p * 2 ^ Z.pos p).
Proof.
  assert (H : Z.pos p~1 = Z.succ (Z.pos p + Z.pos p)) by lia.
  rewrite H, Z.pow_succ_r, Z.pow_add_r by lia. reflexivity.
Qed.

Lemma pow2_xO (p : positive) : 2 ^ Z.pos p~0 = 2 ^ Z.pos p * 2 ^ Z.pos p.
Proof.
  assert (H : Z.pos p~0 = Z.pos p + Z.pos p) by lia.
  rewrite H, Z.pow_add_r by lia. reflexivity.
Qed.

Lemma iter_shr_1_m (p : positive) (mrs : shr_record) :
  0 <= shr_m mrs -> shr_m (iter_pos shr_1 p mrs) = shr_m mrs / 2 ^ Z.pos p.
Proof.
  revert mrs. induction p as [p IH | p IH | ]; intros mrs Hm; cbn [iter_pos].
  - assert (Hp : 0 < 2 ^ Z.pos p) by (apply Z.pow_pos_nonneg; lia).
    assert (H1 : 0 <= shr_m (shr_1 mrs)) by (rewrite shr_1_m by assumption; apply Z.div_pos; lia).
    assert (H2 : 0 <= shr_m (iter_pos shr_1 p (shr_1 mrs))) by (rewrite IH by assumption; apply Z.div_pos; lia).
    rewrite IH by assumption. rewrite IH by assumption. rewrite shr_1_m by assumption.
    rewrite !Z.div_div by lia. rewrite pow2_xI. f_equal; lia.
  - assert (Hp : 0 < 2 ^ Z.pos p) by (apply Z.pow_pos_nonneg; lia).
    assert (H2 : 0 <= shr_m (iter_pos shr_1 p mrs)) by (rewrite IH by assumption; apply Z.div_pos; lia).
    rewrite IH by assumption. rewrite IH by assumption.
    rewrite !Z.div_div by lia. rewrite pow2_xO. reflexivity.
  - rewrite shr_1_m by assumption. reflexivity.
Qed.

Lemma shr_m_of_loc (m : Z) (l : location) : shr_m (shr_record_of_loc m l) = m.
Proof. destruct l as [ | [ | | ]]; reflexivity. Qed.

(** Rounding to the format's exponent never loses a positive mantissa whose
    exponent is at least [emin]. *)
Lemma shr_fexp_positive (m : positive) (e : Z) (l : location) :
  emin <= e ->
  0 < shr_m (fst (shr_fexp prec emax (Z.pos m) e l)) /\
  emin <= snd (shr_fexp prec emax (Z.pos m) e l).
Proof.
  intros He. unfold shr_fexp, shr.
  destruct (fexp prec emax (Zdigits2 (Z.pos m) + e) - e) as [ | n | n] eqn:Hn;
    cbn [fst snd]; rewrite ?shr_m_of_loc; try (split; lia).
  unfold fexp in Hn. cbn [Zdigits2] in Hn.
  assert (Hd : Z.pos n = Z.pos (digits2_pos m) - prec).
  { unfold SpecFloat.emin, emax, prec in *. lia. }
  rewrite iter_shr_1_m by (rewrite shr_m_of_loc; lia).
  rewrite shr_m_of_loc. split; [ | lia].
  apply Z.div_str_pos. split; [apply Z.pow_pos_nonneg; lia | ].
  apply Z.le_trans with (2 ^ (Z.pos (digits2_pos m) - 1)).
  - apply Z.pow_le_mono_r; unfold prec in Hd; lia.
  - apply digits2_pos_lower.
Qed.

Lemma round_nearest_even_positive (m : Z) (l : location) :
  0 < m -> 0 < round_nearest_even m l.
Proof.
  intros Hm. destruct l as [ | [ | | ]]; cbn [round_nearest_even];
    try destruct (Z.even m); lia.
Qed.

(** Rounding a positive mantissa at an exponent of the format gives a
    finite number or an infinity of the sign asked for, never a zero. *)
Lemma binary_round_aux_positive (sx : bool) (m : positive) (e : Z) (l : location) :
  emin <= e ->
  (exists m' e', binary_round_aux prec emax sx (Z.pos m) e l = S754_finite sx m' e')
  \/ binary_round_aux prec emax sx (Z.pos m) e l = S754_infinity sx.
Proof.
  intros He. unfold binary_round_aux.
  destruct (shr_fexp_positive m e l He) as [H1 H2].
  destruct (shr_fexp prec emax (Z.pos m) e l) as [mrs' e']. cbn [fst snd] in H1, H2.
  pose proof (round_nearest_even_positive _ (loc_of_shr_record mrs') H1) as H3.
  destruct (round_nearest_even (shr_m mrs') (loc_of_shr_record mrs')) as [ | m2 | m2]; try lia.
  destruct (shr_fexp_positive m2 e' loc_Exact H2) as [H4 H5].
  destruct (shr_fexp prec emax (Z.pos m2) e' loc_Exact) as [mrs2 e2]. cbn [fst snd] in H4, H5.
  destruct (shr_m mrs2) as [ | m3 | m3]; try lia.
  destruct (e2 <=? emax - prec); [left; eauto | right; reflexivity].
Qed.

Lemma shl_align_exponent (m : positive) (e e' : Z) :
  emin <= e -> emin <= e' -> emin <= snd (shl_align m e e').
Proof.
  intros He He'. unfold shl_align. destruct (e' - e); cbn [snd]; assumption.
Qed.

Lemma binary_round_positive (sx : bool) (m : positive) (e : Z) :
  emin <= e ->
  (exists m' e', binary_round prec emax sx m e = S754_finite sx m' e')
  \/ binary_round prec emax sx m e = S754_infinity sx.
Proof.
  intros He. unfold binary_round.
  pose proof (shl_align_exponent m e (fexp prec emax (Z.pos (digits2_pos m) + e)) He) as H.
  destruct (shl_align m e (fexp prec emax (Z.pos (digits2_pos m) + e))) as [mz ez].
  cbn [snd] in H. apply binary_round_aux_positive. apply H.
  unfold fexp. lia.
Qed.

(** The sign of a normalised integer is the sign of the integer. *)
Lemma binary_normalize_sign (d e : Z) :
  emin <= e ->
  SFltb (S754_zero false) (binary_normalize prec emax d e false) = (0 <? d).
Proof.
  intros He. destruct d as [ | d | d]; cbn [binary_normalize].
  - reflexivity.
  - destruct (binary_round_positive false d e He) as [(m' & e' & H) | H]; rewrite H; reflexivity.
  - destruct (binary_round_positive true d e He) as [(m' & e' & H) | H]; rewrite H; reflexivity.
Qed.

Lemma iter_xO_value (m d : positive) :
  Z.pos (Pos.iter xO m d) = Z.pos m * 2 ^ Z.pos d.
Proof.
  induction d as [ | d IH] using Pos.peano_ind.
  - cbn. lia.
  - rewrite Pos.iter_succ, Pos2Z.inj_succ, Z.pow_succ_r by lia.
    rewrite Pos2Z.inj_xO, IH. lia.
Qed.

Lemma shl_align_value (m : positive) (e e' : Z) :
  e' <= e -> Z.pos (fst (shl_align m e e')) = Z.pos m * 2 ^ (e - e').
Proof.
  intros H. unfold shl_align.
  destruct (e' - e) as [ | d | d] eqn:Hd; cbn [fst]; try lia.
  - replace (e - e') with 0 by lia. lia.
  - rewrite iter_xO_value. f_equal. f_equal. lia.
Qed.

(** What being valid says of a finite number: its mantissa fits the
    precision, and fills it unless the exponent is the least one. *)
Lemma valid_finite (s : bool) (m : positive) (e : Z) :
  valid_binary (S754_finite s m e) = true ->
  emin <= e /\ Z.pos (digits2_pos m) <= prec /\ (emin < e -> Z.pos (digits2_pos m) = prec).
Proof.
  cbn [SpecFloat.valid_binary]. unfold bounded, canonical_mantissa, fexp.
  intros H. apply andb_prop in H. destruct H as [H _]. apply Z.eqb_eq in H.
  unfold SpecFloat.emin, emax, prec in *. lia.
Qed.

(** Among valid numbers a larger exponent is a larger magnitude. *)
Lemma valid_exponent_lt (s1 s2 : bool) (m1 m2 : positive) (e1 e2 : Z) :
  valid_binary (S754_finite s1 m1 e1) = true ->
  valid_binary (S754_finite s2 m2 e2) = true ->
  e1 < e2 -> Z.pos m1 < Z.pos m2 * 2 ^ (e2 - e1).
Proof.
  intros H1 H2 He.
  apply valid_finite in H1. apply valid_finite in H2.
  destruct H1 as (He1 & Hd1 & _). destruct H2 as (_ & _ & Hd2).
  specialize (Hd2 ltac:(lia)).
  pose proof (digits2_pos_upper m1) as Hu. pose proof (digits2_pos_lower m2) as Hl.
  rewrite Hd2 in Hl.
  assert (Hp : 2 ^ Z.pos (digits2_pos m1) <= 2 ^ prec) by (apply Z.pow_le_mono_r; lia).
  assert (Hq : 2 ^ 1 <= 2 ^ (e2 - e1)) by (apply Z.pow_le_mono_r; lia).
  assert (Hr : 2 ^ prec = 2 ^ (prec - 1) * 2 ^ 1) by reflexivity.
  assert (Hs : 0 < 2 ^ (prec - 1)) by reflexivity.
  nia.
Qed.

(** The sign of a difference of two valid numbers tells which is larger:
    the subtraction of the format never rounds a non-zero difference to
    zero. *)
Lemma SFsub_sign (x y : spec_float) :
  valid_binary x = true -> valid_binary y = true ->
  x <> S754_nan -> y <> S754_nan ->
  SFltb (S754_zero false) (SFsub prec emax y x) = SFltb x y.
Proof.
  intros Vx Vy Nx Ny.
  destruct x as [sx | sx | | sx mx ex]; try congruence;
    destruct y as [sy | sy | | sy my ey]; try congruence;
    try (destruct sx, sy; reflexivity).
  cbn [SFsub].
  pose proof (valid_finite _ _ _ Vx) as (Hex & _ & _).
  pose proof (valid_finite _ _ _ Vy) as (Hey & _ & _).
  rewrite binary_normalize_sign by lia.
  rewrite !shl_align_value by lia.
  unfold SFltb, SFcompare.
  assert (Hmx : 0 < Z.pos mx) by lia. assert (Hmy : 0 < Z.pos my) by lia.
  destruct (Z.compare_spec ex ey) as [He | He | He].
  - subst ey. rewrite Z.min_id, Z.sub_diag, !Z.mul_1_r.
    rewrite Pos.compare_cont_spec. cbn [Pos.switch_Eq].
    destruct sx, sy; cbn [cond_Zopp];
      destruct (Pos.compare_spec mx my) as [Hm | Hm | Hm]; cbn [CompOpp];
      first [ apply Z.ltb_lt; lia | apply Z.ltb_ge; lia ].
  - pose proof (valid_exponent_lt _ _ _ _ _ _ Vx Vy He) as Hlt.
    rewrite Z.min_r by lia. rewrite Z.sub_diag, Z.mul_1_r.
    assert (Hp : 0 < 2 ^ (ey - ex)) by (apply Z.pow_pos_nonneg; lia).
    destruct sx, sy; cbn [cond_Zopp];
      first [ apply Z.ltb_lt; nia | apply Z.ltb_ge; nia ].
  - pose proof (valid_exponent_lt _ _ _ _ _ _ Vy Vx He) as Hlt.
    rewrite Z.min_l by lia. rewrite Z.sub_diag, Z.mul_1_r.
    assert (Hp : 0 < 2 ^ (ex - ey)) by (apply Z.pow_pos_nonneg; lia).
    destruct sx, sy; cbn [cond_Zopp];
      first [ apply Z.ltb_lt; nia | apply Z.ltb_ge; nia ].
Qed.

Ltac sf_order :=
  repeat match goal with
    | s : bool |- _ => destruct s
    end;
  cbn; try congruence; try reflexivity;
  repeat match goal with
    | |- context [Z.compare ?a ?b] => destruct (Z.compare_spec a b); cbn
    | H : context [Z.compare ?a ?b] |- _ => destruct (Z.compare_spec a b); cbn in H
    end;
  rewrite ?Pos.compare_cont_spec in *; cbn [Pos.switch_Eq] in *;
  repeat match goal with
    | |- context [Pos.compare ?a ?b] => destruct (Pos.compare_spec a b); cbn
    | H : context [Pos.compare ?a ?b] |- _ => destruct (Pos.compare_spec a b); cbn in H
    end;
  try congruence; try reflexivity; try lia.

Lemma SFltb_false_SFleb (x y : spec_float) :
  x <> S754_nan -> y <> S754_nan -> SFltb x y = false -> SFleb y x = true.
Proof.
  unfold SFltb, SFleb, SFcompare.
  destruct x as [sx | sx | | sx mx ex]; try congruence;
    destruct y as [sy | sy | | sy my ey]; try congruence; intros _ _; sf_order.
Qed.

Lemma SFltb_SFleb (x y : spec_float) : SFltb x y = true -> SFleb x y = true.
Proof.
  unfold SFltb, SFleb. destruct (SFcompare x y) as [[ | | ] | ]; congruence.
Qed.

Lemma SFleb_trans (x y z : spec_float) :
  SFleb x y = true -> SFleb y z = true -> SFleb x z = true.
Proof.
  unfold SFleb, SFcompare.
  destruct x as [sx | sx | | sx mx ex];
    destruct y as [sy | sy | | sy my ey];
    destruct z as [sz | sz | | sz mz ez]; sf_order.
Qed.

Lemma SFeqb_SFltb (x y s : spec_float) :
  SFeqb x s = true -> SFeqb y s = true -> SFltb x y = false.
Proof.
  unfold SFeqb, SFltb, SFcompare.
  destruct x as [sx | sx | | sx mx ex];
    destruct y as [sy | sy | | sy my ey];
    destruct s as [ss | ss | | ss ms es]; sf_order.
Qed.

End Binary64.

Section FloatOrder.

Local Open Scope float_scope.

Lemma not_nan_spec (a : float) : is_nan a = false -> Prim2SF a <> S754_nan.
Proof.
  unfold is_nan. rewrite eqb_spec. intros H E. rewrite E in H. discriminate H.
Qed.

(** The sign of [b - a] decides [a < b]. *)
Lemma ltb_sub_pos (a b : float) :
  is_nan a = false -> is_nan b = false -> (0 <? b - a) = (a <? b).
Proof.
  intros Ha Hb. rewrite !ltb_spec, sub_spec.
  change (Prim2SF 0) with (S754_zero false).
  apply SFsub_sign; auto using Prim2SF_valid, not_nan_spec.
Qed.

Lemma ltb_false_leb (a b : float) :
  is_nan a = false -> is_nan b = false -> (a <? b) = false -> (b <=? a) = true.
Proof.
  intros Ha Hb. rewrite ltb_spec, leb_spec.
  apply SFltb_false_SFleb; auto using not_nan_spec.
Qed.

Lemma ltb_leb (a b : float) : (a <? b) = true -> (a <=? b) = true.
Proof. rewrite ltb_spec, leb_spec. apply SFltb_SFleb. Qed.

Lemma leb_trans (a b c : float) :
  (a <=? b) = true -> (b <=? c) = true -> (a <=? c) = true.
Proof. rewrite !leb_spec. apply SFleb_trans. Qed.

Lemma eqb_not_nan (a s : float) : (a =? s) = true -> is_nan a = false.
Proof.
  unfold is_nan. rewrite !eqb_spec. unfold SFeqb, SFcompare.
  destruct (Prim2SF a) as [[ | ] | [ | ] | | [ | ] m e];
    destruct (Prim2SF s) as [[ | ] | [ | ] | | [ | ] m' e'];
    try discriminate; intros _; try reflexivity;
    rewrite Z.compare_refl, Pos.compare_cont_refl; reflexivity.
Qed.

Lemma eqb_ties (a b s : float) :
  (a =? s) = true -> (b =? s) = true -> (a <? b) = false.
Proof. rewrite !eqb_spec, ltb_spec. apply SFeqb_SFltb. Qed.

(** The numbers that compare equal to zero are the two zeros. *)
Lemma eqb_zero_cases (x : float) : (x =? 0) = true -> x = 0 \/ x = (-0).
Proof.
  rewrite eqb_spec. change (Prim2SF 0) with (S754_zero false).
  intros H. rewrite <- (SF2Prim_Prim2SF x).
  destruct (Prim2SF x) as [[ | ] | [ | ] | | [ | ] m e]; try discriminate H.
  - right. reflexivity.
  - left. reflexivity.
Qed.

End FloatOrder.

(** ** [cosineSimilarity] on degenerate vectors *)

Section Cosine.

Local Open Scope float_scope.

Lemma cosineSimilarity_nil_l (vecB : list float) : cosineSimilarity [] vecB = 0.
Proof. reflexivity. Qed.

Lemma cosineSimilarity_nil_r (vecA : list float) : cosineSimilarity vecA [] = 0.
Proof. unfold cosineSimilarity. cbn [List.length Nat.eqb]. rewrite orb_true_r. reflexivity. Qed.

Lemma cosineSimilarity_length (vecA vecB : list float) :
  List.length vecA <> List.length vecB -> cosineSimilarity vecA vecB = 0.
Proof.
  intros H. unfold cosineSimilarity.
  destruct ((List.length vecA =? 0)%nat || (List.length vecB =? 0)%nat); [reflexivity | ].
  apply Nat.eqb_neq in H. rewrite H. reflexivity.
Qed.

(** A zero vector leaves its sum of squares at zero, whatever the other
    vector holds. *)
Lemma sumLoop_magA_zero (vecA vecB : list float) (acc : Sums) :
  isZeroVector vecA -> magA acc = 0 -> magA (sumLoop vecA vecB acc) = 0.
Proof.
  intros Hz. revert vecB acc.
  induction Hz as [ | a vecA Ha _ IH]; intros vecB acc Hacc; [exact Hacc | ].
  destruct vecB as [ | b vecB]; [exact Hacc | ].
  cbn [sumLoop]. apply IH. cbn [accumulate magA]. rewrite Hacc.
  destruct (eqb_zero_cases a Ha) as [-> | ->]; reflexivity.
Qed.

Lemma sumLoop_magB_zero (vecA vecB : list float) (acc : Sums) :
  isZeroVector vecB -> magB acc = 0 -> magB (sumLoop vecA vecB acc) = 0.
Proof.
  intros Hz. revert vecA acc.
  induction Hz as [ | b vecB Hb _ IH]; intros vecA acc Hacc.
  - destruct vecA; exact Hacc.
  - destruct vecA as [ | a vecA]; [exact Hacc | ].
    cbn [sumLoop]. apply IH. cbn [accumulate magB]. rewrite Hacc.
    destruct (eqb_zero_cases b Hb) as [-> | ->]; reflexivity.
Qed.

Lemma cosineSimilarity_zero_l (vecA vecB : list float) :
  isZeroVector vecA -> cosineSimilarity vecA vecB = 0.
Proof.
  intros Hz. unfold cosineSimilarity.
  destruct ((List.length vecA =? 0)%nat || (List.length vecB =? 0)%nat); [reflexivity | ].
  destruct (negb (List.length vecA =? List.length vecB)%nat); [reflexivity | ].
  rewrite sumLoop_magA_zero by (assumption || reflexivity). reflexivity.
Qed.

Lemma cosineSimilarity_zero_r (vecA vecB : list float) :
  isZeroVector vecB -> cosineSimilarity vecA vecB = 0.
Proof.
  intros Hz. unfold cosineSimilarity.
  destruct ((List.length vecA =? 0)%nat || (List.length vecB =? 0)%nat); [reflexivity | ].
  destruct (negb (List.length vecA =? List.length vecB)%nat); [reflexivity | ].
  rewrite (sumLoop_magB_zero vecA vecB) by (assumption || reflexivity).
  change (sqrt 0 =? 0) with true. rewrite orb_true_r. reflexivity.
Qed.

Lemma zeroVector_is_zero : isZeroVector zeroVector.
Proof. unfold isZeroVector, zeroVector. apply Forall_forall. intros x Hx.
  apply repeat_spec in Hx. subst x. reflexivity. Qed.

Lemma zeroVector_length : List.length zeroVector = 768%nat.
Proof. apply repeat_length. Qed.

End Cosine.

(** ** The sort *)

Section Sorting.

Local Open Scope float_scope.

Context {A : Type} (compareFn : A -> A -> float).

Lemma insertBy_perm (x : A) (l : list A) : Permutation (insertBy compareFn x l) (x :: l).
Proof.
  induction l as [ | y l IH]; cbn [insertBy]; [reflexivity | ].
  destruct (0 <? compareFn x y); [ | reflexivity].
  rewrite IH. apply perm_swap.
Qed.

Lemma sortBy_perm (l : list A) : Permutation (sortBy compareFn l) l.
Proof.
  induction l as [ | x l IH]; cbn [sortBy fold_right]; [reflexivity | ].
  fold (sortBy compareFn l). rewrite insertBy_perm. now apply perm_skip.
Qed.

Lemma sortBy_length (l : list A) : List.length (sortBy compareFn l) = List.length l.
Proof. apply Permutation_length, sortBy_perm. Qed.

(** A comparator that never asks for a swap leaves the array as it is. *)
Lemma sortBy_no_swap (l : list A) :
  (forall x y, In x l -> In y l -> (0 <? compareFn x y) = false) ->
  sortBy compareFn l = l.
Proof.
  induction l as [ | x l IH]; intros H; cbn [sortBy fold_right]; [reflexivity | ].
  fold (sortBy compareFn l). rewrite IH by (intros; apply H; now right).
  destruct l as [ | y l]; [reflexivity | ]. cbn [insertBy].
  rewrite H; [reflexivity | now left | right; now left].
Qed.

End Sorting.

Section Ranking.

Local Open Scope float_scope.

Lemma by_similarity_swap (x y : Scored) :
  notNaN x -> notNaN y ->
  (0 <? bySimilarityDesc x y) = (similarity x <? similarity y).
Proof. intros Hx Hy. unfold bySimilarityDesc. now apply ltb_sub_pos. Qed.

Lemma insert_descending (x : Scored) (l : list Scored) :
  notNaN x -> Forall notNaN l -> descending l ->
  descending (insertBy bySimilarityDesc x l).
Proof.
  intros Hx Hl Hs. induction Hs as [ | y l Hs IH Hy]; cbn [insertBy].
  - repeat constructor.
  - inversion Hl as [ | ? ? Hny Hnl]; subst.
    rewrite by_similarity_swap by assumption.
    destruct (similarity x <? similarity y) eqn:Hlt.
    + constructor; [now apply IH | ].
      eapply Permutation_Forall; [symmetry; apply insertBy_perm | ].
      constructor; [now apply ltb_leb | assumption].
    + assert (Hyx : (similarity y <=? similarity x) = true) by now apply ltb_false_leb.
      constructor; [now constructor | ].
      constructor; [assumption | ].
      eapply Forall_impl; [ | exact Hy]. cbn. intros z Hz. eapply leb_trans; eassumption.
Qed.

Lemma sort_descending (l : list Scored) :
  Forall notNaN l -> descending (sortBy bySimilarityDesc l).
Proof.
  induction 1 as [ | x l Hx Hl IH]; cbn [sortBy fold_right]; [constructor | ].
  fold (sortBy bySimilarityDesc l). apply insert_descending; try assumption.
  eapply Permutation_Forall; [symmetry; apply sortBy_perm | assumption].
Qed.

Lemma insert_ties (s : float) (x : Scored) (l : list Scored) :
  filter (fun z => similarity z =? s) (insertBy bySimilarityDesc x l)
  = filter (fun z => similarity z =? s) (x :: l).
Proof.
  induction l as [ | y l IH]; cbn [insertBy]; [reflexivity | ].
  destruct (0 <? bySimilarityDesc x y) eqn:Hswap; [ | reflexivity].
  cbn [filter] in *. rewrite IH.
  destruct (similarity x =? s) eqn:Hx; destruct (similarity y =? s) eqn:Hy; try reflexivity.
  rewrite by_similarity_swap in Hswap by (eapply eqb_not_nan; eassumption).
  rewrite (eqb_ties _ _ _ Hx Hy) in Hswap. discriminate Hswap.
Qed.

Lemma sort_ties (l : list Scored) : tiesKeepOrder l (sortBy bySimilarityDesc l).
Proof.
  intros s. induction l as [ | x l IH]; cbn [sortBy fold_right]; [reflexivity | ].
  fold (sortBy bySimilarityDesc l). rewrite insert_ties. cbn [filter]. now rewrite IH.
Qed.

Lemma scoredNotes_length (q : list float) (notes : list Item.t) :
  List.length (scoredNotes q notes) = Nat.min 10 (List.length notes).
Proof.
  unfold scoredNotes, slice0. rewrite length_firstn, sortBy_length, length_map. reflexivity.
Qed.

(** When every candidate scores zero the ranking is the candidates' own
    order. *)
Lemma scoredNotes_all_zero (q : list float) (notes : list Item.t) :
  (forall n, In n notes -> similarity (score q n) = 0) ->
  scoredNotes q notes = firstn 10 (map (fun n => mkScored n 0) notes).
Proof.
  intros H. unfold scoredNotes, slice0. f_equal.
  rewrite sortBy_no_swap.
  - apply map_ext_in. intros n Hn. specialize (H n Hn). unfold score in *. cbn in H.
    now rewrite H.
  - intros x y Hx Hy. apply in_map_iff in Hx, Hy.
    destruct Hx as (n & <- & Hn). destruct Hy as (n' & <- & Hn').
    unfold bySimilarityDesc. rewrite (H n Hn), (H n' Hn'). reflexivity.
Qed.

End Ranking.

(** ** Running the search handler *)

Section SearchRun.

Lemma sameStores_refl (w : World) : sameStores w w.
Proof. repeat split. Qed.

Lemma sameStores_logged (e : Event) (w : World) : sameStores w (logged e w).
Proof. repeat split. Qed.

Lemma kvGetByPrefix_run (prefix : string) (w : World) :
  kvGetByPrefix prefix w
  = (Value (Kv.getByPrefix prefix (kv w)), logged (KvGetByPrefix prefix) w).
Proof. reflexivity. Qed.

(** With a [profileId] in the request the name is not looked at and no
    store is read. *)
Lemma resolveProfile_explicit (user : string) (profileId profileName : option string)
  (w : World) :
  truthy profileId = true ->
  resolveProfile user profileId profileName w = (Value profileId, w).
Proof. intros H. unfold resolveProfile. rewrite H. reflexivity. Qed.

Lemma resolveProfile_stores (user : string) (profileId profileName : option string)
  (w : World) :
  sameStores w (snd (resolveProfile user profileId profileName w)).
Proof.
  unfold resolveProfile.
  destruct (negb (truthy profileId) && truthy profileName); [ | apply sameStores_refl].
  unfold bind. rewrite kvGetByPrefix_run.
  destruct (filter _ _); apply sameStores_logged.
Qed.

Lemma generateSimpleEmbedding_stores (env : Env) (text : string) (w : World) :
  sameStores w (snd (generateSimpleEmbedding env text w)).
Proof.
  unfold generateSimpleEmbedding.
  destruct (embeddingModel env) as [f | ]; [ | apply sameStores_refl].
  destruct (String.eqb (trim text) ""); [apply sameStores_refl | ].
  unfold bind, emit. destruct (f text) as [e | [v | ]]; apply sameStores_logged.
Qed.

(** Blank text is embedded as the zero vector, without a call to the remote
    model. *)
Lemma generateSimpleEmbedding_blank (env : Env) (text : string) (w : World) :
  embeddingModel env <> None -> trim text = "" ->
  generateSimpleEmbedding env text w = (Value zeroVector, w).
Proof.
  intros Hm Ht. unfold generateSimpleEmbedding.
  destruct (embeddingModel env); [ | congruence]. rewrite Ht. reflexivity.
Qed.

(** The response of a search that passed authentication, validation, name
    resolution and the embedding of the query. *)
Lemma searchGifts_response (env : Env) (query profileId profileName : option string)
  (w : World) (user : string) (resolved : option string) (q : list float) :
  authUser env = Some user ->
  truthy query = true ->
  fst (resolveProfile user profileId profileName w) = Value resolved ->
  embedsTo env (interp query) q ->
  fst (searchGifts env query profileId profileName w)
  = let notes := candidateNotes user resolved (kv w) in
    if (List.length notes =? 0)%nat then json (NoNotesBody [] [] noNotesMessage)
    else json (SearchBody (interp query)
                 (match resolved with Some p => p | None => "all-profiles" end)
                 (List.length notes) (map (relevant env) (scoredNotes q notes))
                 searchMessage).
Proof.
  intros Hauth Hq Hres Hemb.
  unfold searchGifts, tryCatch, bind, requireUser. rewrite Hauth. cbn [ret].
  rewrite Hq. cbn [negb].
  pose proof (resolveProfile_stores user profileId profileName w) as (Hkv1 & _).
  destruct (resolveProfile user profileId profileName w) as [o1 w1].
  cbn [fst snd] in Hres, Hkv1. subst o1.
  specialize (Hemb w1).
  pose proof (generateSimpleEmbedding_stores env (interp query) w1) as (Hkv2 & _).
  destruct (generateSimpleEmbedding env (interp query) w1) as [o2 w2].
  cbn [fst snd] in Hemb, Hkv2. subst o2.
  rewrite kvGetByPrefix_run. unfold candidateNotes. rewrite Hkv2, Hkv1.
  cbv zeta.
  destruct (List.length _ =? 0)%nat; reflexivity.
Qed.

Lemma generateSimpleEmbedding_result (env : Env) (text : string) (w : World) :
  fst (generateSimpleEmbedding env text w)
  = match embedResult env text with
    | inl message => Throw message
    | inr v => Value v
    end.
Proof.
  unfold generateSimpleEmbedding, embedResult.
  destruct (embeddingModel env) as [f | ]; [ | reflexivity].
  destruct (String.eqb (trim text) ""); [reflexivity | ].
  unfold bind, emit. destruct (f text) as [m | [v | ]]; reflexivity.
Qed.

Lemma embedsTo_result (env : Env) (text : string) (v : list float) :
  embedResult env text = inr v -> embedsTo env text v.
Proof. intros H w. rewrite generateSimpleEmbedding_result, H. reflexivity. Qed.

Lemma searchGifts_embed_failure (env : Env) (query profileId profileName : option string)
  (w : World) (user : string) (resolved : option string) (message : string) :
  authUser env = Some user ->
  truthy query = true ->
  fst (resolveProfile user profileId profileName w) = Value resolved ->
  embedResult env (interp query) = inl message ->
  fst (searchGifts env query profileId profileName w)
  = (500, ErrorBody "Failed to search for gifts")
  /\ sameStores w (snd (searchGifts env query profileId profileName w)).
Proof.
  intros Hauth Hq Hres Hemb.
  unfold searchGifts, tryCatch, bind, requireUser. rewrite Hauth. cbn [ret].
  rewrite Hq. cbn [negb].
  pose proof (resolveProfile_stores user profileId profileName w) as H1.
  destruct (resolveProfile user profileId profileName w) as [o1 w1].
  cbn [fst snd] in Hres, H1. subst o1.
  pose proof (generateSimpleEmbedding_result env (interp query) w1) as Hr.
  pose proof (generateSimpleEmbedding_stores env (interp query) w1) as H2.
  destruct (generateSimpleEmbedding env (interp query) w1) as [o2 w2].
  cbn [fst snd] in Hr, H2. rewrite Hemb in Hr. subst o2. cbn [fst snd].
  split; [reflexivity | ].
  destruct H1 as (A1 & A2 & A3 & A4). destruct H2 as (B1 & B2 & B3 & B4).
  repeat split; congruence.
Qed.

End SearchRun.

(** ** Claims about [cosineSimilarity] and the ranking *)

Section RankingClaims.

Local Open Scope float_scope.

(** C2, counterexample: the claim says [cosineSimilarity] never returns NaN
    for any pair of vectors.  On the one-component vectors [[2^700]] and
    [[2^700]] the dot product and both sums of squares overflow to
    [Infinity], and [Infinity / (Infinity * Infinity)] is NaN. *)
Lemma cosineSimilarity_overflow_is_nan :
  is_nan (cosineSimilarity [0x1p700] [0x1p700]) = true.
Proof. vm_compute. reflexivity. Qed.

(** C2, amended: whenever either vector is empty or a zero vector, or the
    two lengths differ, [cosineSimilarity] returns exactly 0, which is not
    NaN; being a total function it never throws.  (Outside these cases the
    result can be NaN.) *)
Theorem cosineSimilarity_degenerate (vecA vecB : list float) :
  vecA = [] \/ vecB = [] \/ List.length vecA <> List.length vecB
  \/ isZeroVector vecA \/ isZeroVector vecB ->
  cosineSimilarity vecA vecB = 0 /\ is_nan (cosineSimilarity vecA vecB) = false.
Proof.
  intros H.
  assert (E : cosineSimilarity vecA vecB = 0).
  { destruct H as [-> | [-> | [H | [H | H]]]].
    - apply cosineSimilarity_nil_l.
    - apply cosineSimilarity_nil_r.
    - now apply cosineSimilarity_length.
    - now apply cosineSimilarity_zero_l.
    - now apply cosineSimilarity_zero_r. }
  rewrite E. split; reflexivity.
Qed.

Lemma cosineSimilarity_degenerate_witness :
  isZeroVector [0; -0]
  /\ cosineSimilarity [0; -0] [3; 4] = 0
  /\ is_nan (cosineSimilarity [0; -0] [3; 4]) = false.
Proof.
  assert (Hz : isZeroVector [0; -0]) by (repeat constructor).
  split; [exact Hz | ].
  apply (cosineSimilarity_degenerate [0; -0] [3; 4]).
  right; right; right; left. exact Hz.
Defined.

(** C1, counterexample: the claim says the result is sorted by descending
    similarity for every candidate set.  With the query embedded as
    [[2^700]] the note "a" scores NaN and the note "b" scores 0; the
    handler returns them as "a", "b", and no arrangement of the two is in
    descending order. *)
Lemma search_ranking_nan_unsorted :
  let candidates :=
    map (score [0x1p700])
        (candidateNotes "u1" (Some "p1") (kv Sample.hugeWorld)) in
  map noteId (rankedNotes (fst (searchGifts Sample.hugeEnv (Some "boat") (Some "p1") None
                                            Sample.hugeWorld)))
  = [Some "a"; Some "b"]
  /\ map similarity candidates = [nan; 0]
  /\ forall ranking, Permutation ranking candidates -> ~ descending ranking.
Proof.
  cbv zeta. split; [vm_compute; reflexivity | ].
  split; [vm_compute; reflexivity | ].
  intros ranking Hp Hd.
  assert (Hnan : exists x, In x ranking /\ is_nan (similarity x) = true).
  { eexists. split.
    - eapply Permutation_in; [symmetry; exact Hp | ]. left. reflexivity.
    - vm_compute. reflexivity. }
  assert (Hlen : List.length ranking = 2%nat).
  { rewrite (Permutation_length Hp). reflexivity. }
  destruct Hnan as (x & Hin & Hx).
  assert (Hle : forall y, is_nan (similarity x) = true ->
                          (similarity y <=? similarity x) = false
                          /\ (similarity x <=? similarity y) = false).
  { intros y H. rewrite !leb_spec.
    assert (E : Prim2SF (similarity x) = S754_nan).
    { unfold is_nan in H. rewrite eqb_spec in H.
      destruct (Prim2SF (similarity x)) as [[ | ] | [ | ] | | [ | ] m e]; try discriminate H;
        try reflexivity.
      - unfold SFeqb, SFcompare in H.
        rewrite Z.compare_refl, Pos.compare_cont_refl in H. discriminate H.
      - unfold SFeqb, SFcompare in H.
        rewrite Z.compare_refl, Pos.compare_cont_refl in H. discriminate H. }
    rewrite E. unfold SFleb, SFcompare. split; [ | reflexivity].
    destruct (Prim2SF (similarity y)); reflexivity. }
  destruct ranking as [ | a [ | b [ | c r]]]; try discriminate Hlen.
  inversion Hd as [ | ? ? _ Hall]; subst. inversion Hall as [ | ? ? Hab _]; subst.
  destruct Hin as [-> | [-> | []]].
  - destruct (Hle b Hx) as [H _]. rewrite H in Hab. discriminate Hab.
  - destruct (Hle a Hx) as [_ H]. rewrite H in Hab. discriminate Hab.
Qed.

(** C1, amended: for every candidate note set whose similarities to the
    query embedding are all numbers (none is NaN), the search returns the
    candidates sorted by cosine similarity in descending order, ties in the
    candidates' original order, cut to the first ten: the result has
    exactly min(10, candidateCount) elements. *)
Theorem search_ranks_by_similarity (env : Env) (query profileId profileName : option string)
  (w : World) (user : string) (resolved : option string) (q : list float) :
  authUser env = Some user ->
  truthy query = true ->
  fst (resolveProfile user profileId profileName w) = Value resolved ->
  embedsTo env (interp query) q ->
  Forall notNaN (map (score q) (candidateNotes user resolved (kv w))) ->
  exists ranking : list Scored,
    Permutation ranking (map (score q) (candidateNotes user resolved (kv w)))
    /\ descending ranking
    /\ tiesKeepOrder (map (score q) (candidateNotes user resolved (kv w))) ranking
    /\ List.length (firstn 10 ranking)
       = Nat.min 10 (List.length (candidateNotes user resolved (kv w)))
    /\ fst (fst (searchGifts env query profileId profileName w)) = 200%nat
    /\ rankedNotes (fst (searchGifts env query profileId profileName w))
       = map (relevant env) (firstn 10 ranking).
Proof.
  intros Hauth Hq Hres Hemb Hnan.
  set (notes := candidateNotes user resolved (kv w)) in *.
  exists (sortBy bySimilarityDesc (map (score q) notes)).
  split; [apply sortBy_perm | ].
  split; [now apply sort_descending | ].
  split; [apply sort_ties | ].
  split; [rewrite length_firstn, sortBy_length, length_map; reflexivity | ].
  rewrite (searchGifts_response env query profileId profileName w user resolved q)
    by assumption.
  fold notes. cbv zeta.
  destruct notes as [ | n notes']; [split; reflexivity | ].
  cbn [List.length Nat.eqb]. split; reflexivity.
Qed.

Lemma search_ranks_by_similarity_witness :
  exists ranking : list Scored,
    Permutation ranking
      (map (score [1; 0]) (candidateNotes "u1" (Some "p1") (kv Sample.momWorld)))
    /\ descending ranking
    /\ tiesKeepOrder
         (map (score [1; 0]) (candidateNotes "u1" (Some "p1") (kv Sample.momWorld))) ranking
    /\ List.length (firstn 10 ranking)
       = Nat.min 10 (List.length (candidateNotes "u1" (Some "p1") (kv Sample.momWorld)))
    /\ fst (fst (searchGifts Sample.env (Some "gardening") None (Some " MOM ") Sample.momWorld))
       = 200%nat
    /\ rankedNotes (fst (searchGifts Sample.env (Some "gardening") None (Some " MOM ")
                                     Sample.momWorld))
       = map (relevant Sample.env) (firstn 10 ranking).
Proof.
  apply (search_ranks_by_similarity Sample.env (Some "gardening") None (Some " MOM ")
           Sample.momWorld "u1" (Some "p1") [1; 0]).
  - reflexivity.
  - reflexivity.
  - vm_compute. reflexivity.
  - intros w. reflexivity.
  - vm_compute. repeat constructor.
Defined.

(** The three notes with the same embedding come back in the order the
    store lists them, ahead of the note on the other axis. *)
Example search_ties_in_listing_order :
  map noteId (rankedNotes (fst (searchGifts Sample.env (Some "gardening") None (Some " MOM ")
                                            Sample.momWorld)))
  = [Some "n2"; Some "n3"; Some "n4"; Some "n1"]
  /\ map relevanceScore
         (rankedNotes (fst (searchGifts Sample.env (Some "gardening") None (Some " MOM ")
                                        Sample.momWorld)))
     = ["100.00%"; "100.00%"; "100.00%"; "0.00%"]%string.
Proof. split; vm_compute; reflexivity. Qed.

End RankingClaims.

(** ** Claims about the search handler *)

Section SearchClaims.

Local Open Scope float_scope.

Lemma score_without_embedding (q : list float) (n : Item.t) :
  embeddingOf n = [] -> score q n = mkScored n 0.
Proof.
  intros H. unfold score. rewrite H.
  now rewrite cosineSimilarity_nil_r.
Qed.

Lemma scoredNotes_all (q : list float) (notes : list Item.t) (n : Item.t) :
  (List.length notes <= 10)%nat -> In n notes -> In (score q n) (scoredNotes q notes).
Proof.
  intros Hlen Hin. unfold scoredNotes, slice0.
  rewrite firstn_all2 by (rewrite sortBy_length, length_map; exact Hlen).
  eapply Permutation_in; [symmetry; apply sortBy_perm | ].
  now apply in_map.
Qed.

(** The candidates of a search are the records under the searched prefix
    that have an [entry] field. *)
Lemma candidateNotes_in (user : string) (resolved : option string) (s : Kv.store)
  (n : Item.t) :
  In n (candidateNotes user resolved s)
  <-> hasEntry n = true
      /\ exists k, In (k, n) s /\ startsWith k (searchPrefix user resolved) = true.
Proof.
  unfold candidateNotes, Kv.getByPrefix. rewrite filter_In, in_map_iff.
  split.
  - intros [([k v] & E & H) H2]. cbn in E. subst v. apply filter_In in H.
    split; [exact H2 | ]. now exists k.
  - intros [H2 (k & H & Hk)]. split; [ | exact H2].
    exists (k, n). split; [reflexivity | ]. now apply filter_In.
Qed.

(** C3, counterexample: the claim says a note without a generated
    embedding never appears in the ranked results.  The provider answers
    the text of this note without [values], the submit succeeds and stores
    the note with an empty embedding, and the search returns it. *)
Lemma search_returns_note_without_embedding :
  Sample.quietEmbedder "likes tea" = inr None
  /\ fst (submit Sample.quietEnv "p1" [] [Sample.teaNote] Sample.bareWorld)
     = (200%nat, SubmitBody "Notes and categories saved with vector embeddings")
  /\ Kv.get (noteKey "u1" "p1" "n1")
            (kv (snd (submit Sample.quietEnv "p1" [] [Sample.teaNote] Sample.bareWorld)))
     = Some (Sample.storedNote "n1" "likes tea" "p1" (Some []))
  /\ map noteId
         (rankedNotes
            (fst (searchGifts Sample.quietEnv (Some "tea") (Some "p1") None
                    (snd (submit Sample.quietEnv "p1" [] [Sample.teaNote] Sample.bareWorld)))))
     = [Some "n1"].
Proof. repeat split; vm_compute; reflexivity. Qed.

(** C3, amended: in a search that reaches the ranking (it is authenticated,
    its query is present and embedded, its profile name, if any, is
    resolved), a stored note without a generated embedding (the
    [embedding] field is missing or, as the submit stores it when the
    provider answers without values, empty) is still a candidate: the
    candidates are exactly the records under the searched prefix that have
    an [entry] field, whatever their embedding.  Such a note is scored with
    similarity 0 (against [note.embedding || []]) and ranked with the
    others, so it is among the results whenever there are at most ten
    candidates. *)
Theorem note_without_embedding_scores_zero (env : Env)
  (query profileId profileName : option string)
  (w : World) (user : string) (resolved : option string) (q : list float)
  (k : string) (n : Item.t) :
  authUser env = Some user ->
  truthy query = true ->
  fst (resolveProfile user profileId profileName w) = Value resolved ->
  embedsTo env (interp query) q ->
  In (k, n) (kv w) ->
  startsWith k (searchPrefix user resolved) = true ->
  hasEntry n = true ->
  embeddingOf n = [] ->
  In n (candidateNotes user resolved (kv w))
  /\ (forall m, In m (candidateNotes user resolved (kv w))
                <-> hasEntry m = true
                    /\ exists k', In (k', m) (kv w)
                                  /\ startsWith k' (searchPrefix user resolved) = true)
  /\ score q n = mkScored n 0
  /\ ((List.length (candidateNotes user resolved (kv w)) <= 10)%nat ->
      In (relevant env (mkScored n 0))
         (rankedNotes (fst (searchGifts env query profileId profileName w)))).
Proof.
  intros Hauth Hq Hres Hemb Hstored Hprefix Hentry Hnone.
  assert (Hin : In n (candidateNotes user resolved (kv w))).
  { apply candidateNotes_in. split; [exact Hentry | ]. now exists k. }
  split; [exact Hin | ].
  split; [intros m; apply candidateNotes_in | ].
  split; [now apply score_without_embedding | ].
  intros Hlen.
  rewrite (searchGifts_response env query profileId profileName w user resolved q)
    by assumption.
  cbv zeta.
  destruct (candidateNotes user resolved (kv w)) as [ | n0 notes] eqn:E; [destruct Hin | ].
  cbn [List.length Nat.eqb rankedNotes json snd].
  rewrite <- (score_without_embedding q n Hnone).
  apply in_map. now apply scoredNotes_all.
Qed.

Lemma note_without_embedding_scores_zero_witness :
  In (Sample.storedNote "n1" "likes tea" "p1" (Some []))
     (candidateNotes "u1" (Some "p1")
        (kv (snd (submit Sample.quietEnv "p1" [] [Sample.teaNote] Sample.bareWorld))))
  /\ score [0; 1] (Sample.storedNote "n1" "likes tea" "p1" (Some []))
     = mkScored (Sample.storedNote "n1" "likes tea" "p1" (Some [])) 0
  /\ In (relevant Sample.quietEnv (mkScored (Sample.storedNote "n1" "likes tea" "p1" (Some [])) 0))
        (rankedNotes
           (fst (searchGifts Sample.quietEnv (Some "tea") (Some "p1") None
                   (snd (submit Sample.quietEnv "p1" [] [Sample.teaNote] Sample.bareWorld))))).
Proof.
  destruct (note_without_embedding_scores_zero Sample.quietEnv (Some "tea") (Some "p1") None
              (snd (submit Sample.quietEnv "p1" [] [Sample.teaNote] Sample.bareWorld))
              "u1" (Some "p1") [0; 1] (noteKey "u1" "p1" "n1")
              (Sample.storedNote "n1" "likes tea" "p1" (Some [])))
    as (Hcand & _ & Hscore & Hin).
  - reflexivity.
  - reflexivity.
  - reflexivity.
  - intros w. reflexivity.
  - vm_compute. right. left. reflexivity.
  - reflexivity.
  - reflexivity.
  - reflexivity.
  - split; [exact Hcand | ]. split; [exact Hscore | ]. apply Hin. vm_compute.
    repeat constructor.
Defined.

(** C4, counterexample: the claim says an empty query is embedded as the
    zero vector and still gets a ranked result.  The empty string fails the
    [!query] test and the handler answers 400. *)
Lemma search_rejects_empty_query :
  fst (searchGifts Sample.env (Some "") None None Sample.momWorld)
  = (400%nat, ErrorBody "Query string is required").
Proof. reflexivity. Qed.

(** C4, amended: for a query that is not empty but consists of white space
    only, with the embedding model configured, the query is embedded as the
    zero vector of length 768 without a call to the remote model, every
    candidate gets similarity 0, and the search answers 200 with the
    candidates in their original order (the first ten), or with the
    "no notes" body when there is none.  (The empty query is rejected with
    400 before it is embedded.) *)
Theorem blank_query_scores_zero (env : Env) (q : string)
  (profileId profileName : option string)
  (w : World) (user : string) (resolved : option string) :
  authUser env = Some user ->
  embeddingModel env <> None ->
  q <> "" -> trim q = "" ->
  fst (resolveProfile user profileId profileName w) = Value resolved ->
  (forall w', generateSimpleEmbedding env q w' = (Value zeroVector, w'))
  /\ List.length zeroVector = 768%nat
  /\ (forall v, cosineSimilarity zeroVector v = 0)
  /\ fst (searchGifts env (Some q) profileId profileName w)
     = if (List.length (candidateNotes user resolved (kv w)) =? 0)%nat
       then json (NoNotesBody [] [] noNotesMessage)
       else json (SearchBody q
                    (match resolved with Some p => p | None => "all-profiles" end)
                    (List.length (candidateNotes user resolved (kv w)))
                    (map (relevant env)
                       (firstn 10 (map (fun n => mkScored n 0)
                                       (candidateNotes user resolved (kv w)))))
                    searchMessage).
Proof.
  intros Hauth Hmodel Hne Hblank Hres.
  assert (Hgen : forall w', generateSimpleEmbedding env q w' = (Value zeroVector, w')).
  { intros w'. now apply generateSimpleEmbedding_blank. }
  assert (Hzero : forall v, cosineSimilarity zeroVector v = 0).
  { intros v. apply cosineSimilarity_zero_l. exact zeroVector_is_zero. }
  split; [exact Hgen | ]. split; [apply zeroVector_length | ]. split; [exact Hzero | ].
  rewrite (searchGifts_response env (Some q) profileId profileName w user resolved zeroVector).
  - cbv zeta. cbn [interp]. rewrite scoredNotes_all_zero; [reflexivity | ].
    intros n _. apply Hzero.
  - exact Hauth.
  - destruct q; [congruence | reflexivity].
  - exact Hres.
  - intros w'. cbn [interp]. now rewrite Hgen.
Qed.

Lemma blank_query_scores_zero_witness :
  (forall w', generateSimpleEmbedding Sample.env "  " w' = (Value zeroVector, w'))
  /\ List.length zeroVector = 768%nat
  /\ (forall v, cosineSimilarity zeroVector v = 0)
  /\ fst (searchGifts Sample.env (Some "  ") (Some "p1") None Sample.momWorld)
     = if (List.length (candidateNotes "u1" (Some "p1") (kv Sample.momWorld)) =? 0)%nat
       then json (NoNotesBody [] [] noNotesMessage)
       else json (SearchBody "  " "p1"
                    (List.length (candidateNotes "u1" (Some "p1") (kv Sample.momWorld)))
                    (map (relevant Sample.env)
                       (firstn 10 (map (fun n => mkScored n 0)
                                       (candidateNotes "u1" (Some "p1") (kv Sample.momWorld)))))
                    searchMessage).
Proof.
  apply (blank_query_scores_zero Sample.env "  " (Some "p1") None Sample.momWorld "u1"
           (Some "p1")).
  - reflexivity.
  - discriminate.
  - discriminate.
  - reflexivity.
  - reflexivity.
Defined.

(** C9, counterexample: the claim says a search whose candidate set is
    empty never answers with an error.  The query is embedded before the
    candidates are read: while the embedding model is not configured, the
    search answers 500 although no record of the store is a candidate. *)
Lemma search_without_candidates_fails_without_model :
  candidateNotes "u1" None (kv Sample.dadWorld) = []
  /\ fst (searchGifts Sample2.noModel (Some "golf clubs") None None Sample.dadWorld)
     = (500%nat, ErrorBody "Failed to search for gifts").
Proof. split; reflexivity. Qed.

(** C9, amended: an authenticated search that carries a query, whose
    profile name (if any) is resolved and whose candidate note set is
    empty, answers 200 with empty [gifts] and [matchedNotes] lists and the
    "No notes found" message, not an error, when the query is embedded;
    when the embedding of the query fails it answers 500 "Failed to search
    for gifts", the candidates being read only afterwards. *)
Theorem search_without_candidates (env : Env) (query profileId profileName : option string)
  (w : World) (user : string) (resolved : option string) :
  authUser env = Some user ->
  truthy query = true ->
  fst (resolveProfile user profileId profileName w) = Value resolved ->
  candidateNotes user resolved (kv w) = [] ->
  (forall q, embedsTo env (interp query) q ->
             fst (searchGifts env query profileId profileName w)
             = (200%nat, NoNotesBody [] [] noNotesMessage))
  /\ ((forall w', exists message,
         fst (generateSimpleEmbedding env (interp query) w') = Throw message) ->
      fst (searchGifts env query profileId profileName w)
      = (500%nat, ErrorBody "Failed to search for gifts")).
Proof.
  intros Hauth Hq Hres Hnone. split.
  - intros q Hemb.
    rewrite (searchGifts_response env query profileId profileName w user resolved q)
      by assumption.
    cbv zeta. rewrite Hnone. reflexivity.
  - intros Hfail. destruct (Hfail w) as (message & Hm).
    rewrite generateSimpleEmbedding_result in Hm.
    destruct (embedResult env (interp query)) as [m | v] eqn:He; [ | discriminate Hm].
    apply (searchGifts_embed_failure env query profileId profileName w user resolved m);
      assumption.
Qed.

Lemma search_without_candidates_witness :
  candidateNotes "u1" None (kv Sample.dadWorld) = []
  /\ fst (searchGifts Sample.env (Some "golf clubs") None None Sample.dadWorld)
     = (200%nat, NoNotesBody [] [] noNotesMessage)
  /\ fst (searchGifts Sample2.noModel (Some "golf clubs") None None Sample.dadWorld)
     = (500%nat, ErrorBody "Failed to search for gifts").
Proof.
  split; [reflexivity | ]. split.
  - destruct (search_without_candidates Sample.env (Some "golf clubs") None None
                Sample.dadWorld "u1" None eq_refl eq_refl eq_refl eq_refl) as [Hok _].
    apply (Hok [0; 1]). intros w. reflexivity.
  - destruct (search_without_candidates Sample2.noModel (Some "golf clubs") None None
                Sample.dadWorld "u1" None eq_refl eq_refl eq_refl eq_refl) as [_ Hfail].
    apply Hfail. intros w. eexists. reflexivity.
Defined.

Lemma generateSimpleEmbedding_no_return (env : Env) (text : string) (w : World) (r : Response) :
  fst (generateSimpleEmbedding env text w) <> Return r.
Proof.
  unfold generateSimpleEmbedding.
  destruct (embeddingModel env) as [f | ]; [ | discriminate].
  destruct (String.eqb (trim text) ""); [discriminate | ].
  unfold bind, emit. destruct (f text) as [e | [v | ]]; discriminate.
Qed.

(** C10, counterexample: the claim says a search with an explicit
    [profileId] under which no note is stored returns the "no notes"
    response instead of an error.  While the embedding model is not
    configured it answers 500: the query is embedded before the notes are
    read. *)
Lemma search_with_profileId_fails_without_model :
  Kv.getByPrefix (notePrefix "u1" "no-such-profile") (kv Sample.momWorld) = []
  /\ fst (searchGifts Sample2.noModel (Some "socks") (Some "no-such-profile") None
                      Sample.momWorld)
     = (500%nat, ErrorBody "Failed to search for gifts").
Proof. split; reflexivity. Qed.

(** C10, amended: when the request carries a [profileId], the profile name
    is not resolved (the identifier is passed on and no store is read for
    it) and the answer is never the 404 of a failed resolution, also when
    the identifier matches no profile.  When no record lies under the note
    prefix of that identifier, an authenticated search with a query answers
    with the "no notes" body if the query is embedded, and with 500
    "Failed to search for gifts" if the embedding of the query fails. *)
Theorem search_with_profileId_skips_resolution (env : Env)
  (query profileId profileName : option string) (w : World) :
  truthy profileId = true ->
  (forall user, resolveProfile user profileId profileName w = (Value profileId, w))
  /\ fst (fst (searchGifts env query profileId profileName w)) <> 404%nat
  /\ (forall user,
        authUser env = Some user ->
        truthy query = true ->
        Kv.getByPrefix (notePrefix user (interp profileId)) (kv w) = [] ->
        (forall q, embedsTo env (interp query) q ->
                   fst (searchGifts env query profileId profileName w)
                   = (200%nat, NoNotesBody [] [] noNotesMessage))
        /\ ((forall w', exists message,
               fst (generateSimpleEmbedding env (interp query) w') = Throw message) ->
            fst (searchGifts env query profileId profileName w)
            = (500%nat, ErrorBody "Failed to search for gifts"))).
Proof.
  intros Hid.
  split; [intros user; now apply resolveProfile_explicit | ].
  split.
  - unfold searchGifts, tryCatch, bind, requireUser.
    destruct (authUser env) as [user | ]; [ | cbn; discriminate].
    cbn [ret]. destruct (truthy query); [ | cbn; discriminate].
    cbn [negb]. rewrite resolveProfile_explicit by assumption.
    pose proof (generateSimpleEmbedding_no_return env (interp query) w) as Hnr.
    destruct (generateSimpleEmbedding env (interp query) w) as [[v | r | e] w2].
    + rewrite kvGetByPrefix_run.
      destruct (List.length _ =? 0)%nat; cbn; discriminate.
    + exfalso. now apply (Hnr r).
    + cbn. discriminate.
  - intros user Hauth Hq Hnone.
    assert (Hres : fst (resolveProfile user profileId profileName w) = Value profileId)
      by now rewrite resolveProfile_explicit.
    split.
    + intros q Hemb.
      rewrite (searchGifts_response env query profileId profileName w user profileId q);
        try assumption.
      unfold candidateNotes, searchPrefix. rewrite Hid, Hnone. reflexivity.
    + intros Hfail. destruct (Hfail w) as (message & Hm).
      rewrite generateSimpleEmbedding_result in Hm.
      destruct (embedResult env (interp query)) as [m | v] eqn:He; [ | discriminate Hm].
      apply (searchGifts_embed_failure env query profileId profileName w user profileId m);
        assumption.
Qed.

Lemma search_with_profileId_skips_resolution_witness :
  resolveProfile "u1" (Some "no-such-profile") (Some "Nobody") Sample.momWorld
  = (Value (Some "no-such-profile"), Sample.momWorld)
  /\ fst (fst (searchGifts Sample.env (Some "socks") (Some "no-such-profile") (Some "Nobody")
                           Sample.momWorld)) <> 404%nat
  /\ Kv.getByPrefix (notePrefix "u1" "no-such-profile") (kv Sample.momWorld) = []
  /\ fst (searchGifts Sample.env (Some "socks") (Some "no-such-profile") (Some "Nobody")
                      Sample.momWorld)
     = (200%nat, NoNotesBody [] [] noNotesMessage).
Proof.
  destruct (search_with_profileId_skips_resolution Sample.env (Some "socks")
              (Some "no-such-profile") (Some "Nobody") Sample.momWorld eq_refl)
    as (Hres & Hstatus & Hnone).
  split; [apply Hres | ]. split; [exact Hstatus | ]. split; [reflexivity | ].
  destruct (Hnone "u1" eq_refl eq_refl eq_refl) as [Hok _].
  apply (Hok [0; 1]). intros w. reflexivity.
Defined.

End SearchClaims.

(** ** Strings and keys *)

Section Keys.

Local Open Scope string_scope.

Lemma string_app_assoc (a b c : string) : (a ++ b) ++ c = a ++ (b ++ c).
Proof. induction a as [ | x a IH]; cbn; [reflexivity | now rewrite IH]. Qed.

Lemma string_app_inv (p a b : string) : p ++ a = p ++ b -> a = b.
Proof.
  induction p as [ | x p IH]; cbn; intros H; [exact H | ].
  injection H as H. now apply IH.
Qed.

Lemma startsWith_app (p s : string) : startsWith (p ++ s) p = true.
Proof.
  unfold startsWith. induction p as [ | x p IH]; cbn.
  - destruct s; reflexivity.
  - destruct (ascii_dec x x) as [_ | N]; [exact IH | now elim N].
Qed.

Lemma noteKey_inj (u p a b : string) : noteKey u p a = noteKey u p b -> a = b.
Proof. unfold noteKey. apply string_app_inv. Qed.

Lemma categoryKey_inj (u p a b : string) : categoryKey u p a = categoryKey u p b -> a = b.
Proof. unfold categoryKey. apply string_app_inv. Qed.

Lemma noteKey_not_categoryKey (u p a b : string) : noteKey u p a <> categoryKey u p b.
Proof.
  unfold noteKey, notePrefix, categoryKey, categoryPrefix.
  rewrite !string_app_assoc. intros H. apply string_app_inv in H. discriminate H.
Qed.

Lemma noteKey_not_profileKey (u p a : string) : noteKey u p a <> profileKey u p.
Proof.
  unfold noteKey, notePrefix. rewrite string_app_assoc. intros H.
  assert (E : profileKey u p ++ (":note:" ++ a) = profileKey u p ++ "").
  { rewrite H. clear H. induction (profileKey u p) as [ | x s IH]; cbn; [reflexivity | now rewrite <- IH]. }
  apply string_app_inv in E. discriminate E.
Qed.

Lemma categoryKey_not_profileKey (u p a : string) : categoryKey u p a <> profileKey u p.
Proof.
  unfold categoryKey, categoryPrefix. rewrite string_app_assoc. intros H.
  assert (E : profileKey u p ++ (":category:" ++ a) = profileKey u p ++ "").
  { rewrite H. clear H. induction (profileKey u p) as [ | x s IH]; cbn; [reflexivity | now rewrite <- IH]. }
  apply string_app_inv in E. discriminate E.
Qed.

Lemma noteKey_startsWith (u p a : string) : startsWith (noteKey u p a) (notePrefix u p) = true.
Proof. apply startsWith_app. Qed.

Lemma categoryKey_startsWith (u p a : string) :
  startsWith (categoryKey u p a) (categoryPrefix u p) = true.
Proof. apply startsWith_app. Qed.

End Keys.

(** ** The key-value store *)

Section KvFacts.


Lemma kv_get_in (key : string) (v : Item.t) (s : Kv.store) :
  Kv.get key s = Some v -> In (key, v) s.
Proof.
  induction s as [ | [k v'] s IH]; cbn; [discriminate | ].
  destruct (String.eqb_spec k key) as [-> | N].
  - intros H. injection H as ->. now left.
  - intros H. right. now apply IH.
Qed.

Lemma kv_get_none (key : string) (s : Kv.store) :
  (forall v, ~ In (key, v) s) -> Kv.get key s = None.
Proof.
  induction s as [ | [k v'] s IH]; cbn; intros H; [reflexivity | ].
  destruct (String.eqb_spec k key) as [-> | N].
  - elim (H v'). now left.
  - apply IH. intros v Hv. apply (H v). now right.
Qed.


Lemma kv_getByPrefix_in (prefix : string) (x : Item.t) (s : Kv.store) :
  In x (Kv.getByPrefix prefix s) <-> exists k, In (k, x) s /\ startsWith k prefix = true.
Proof.
  unfold Kv.getByPrefix. rewrite in_map_iff. split.
  - intros ([k v] & E & H). cbn in E. subst v. apply filter_In in H. now exists k.
  - intros (k & H1 & H2). exists (k, x). split; [reflexivity | ]. now apply filter_In.
Qed.


End KvFacts.

(** ** Claims about name resolution, validation and deletion *)

Section ProfileClaims.

(** Resolution by name: the first record listed under the user's prefix
    whose [name], lower-cased and trimmed, equals the requested one. *)
Lemma resolveProfile_by_name (user : string) (profileId profileName : option string)
  (w : World) :
  truthy profileId = false -> truthy profileName = true ->
  fst (resolveProfile user profileId profileName w)
  = match filter (nameMatches (interp profileName))
                 (Kv.getByPrefix (profilePrefix user) (kv w)) with
    | [] => Return (jsonStatus
                      (ErrorBody ("No profile found with name '" ++ interp profileName ++ "'"))
                      404)
    | first :: _ => Value (Item.id first)
    end.
Proof.
  intros H1 H2. unfold resolveProfile. rewrite H1, H2. cbn [negb andb].
  unfold bind. rewrite kvGetByPrefix_run.
  destruct (filter _ _); reflexivity.
Qed.

(** C5, failing input: the user's only profile is "Dad" and one of its
    categories is named "Mom".  Resolving the profile name "Mom" should
    fail with the 404 of [ProfileNotFound]; the name test of the search
    handler lacks the shape test of the profile listing, takes the
    category for a profile, resolves to its identifier "c1" and answers
    200 with the "no notes" body. *)
Theorem resolve_by_name_takes_category :
  fst (listProfiles Sample.env Sample.dadWorld)
  = (200, ProfilesBody [Sample.profile "p1" "Dad"])
  /\ filter isProfileObject
       (filter (nameMatches "Mom") (Kv.getByPrefix (profilePrefix "u1") (kv Sample.dadWorld)))
     = []
  /\ fst (resolveProfile "u1" None (Some "Mom") Sample.dadWorld) = Value (Some "c1")
  /\ fst (searchGifts Sample.env (Some "birthday gift") None (Some "Mom") Sample.dadWorld)
     = (200, NoNotesBody [] [] noNotesMessage).
Proof. repeat split; vm_compute; reflexivity. Qed.

(** C8, counterexample: the claim says a validation error is returned
    before any store read or write.  A profile creation without a name is
    answered 400 only after the key-value store was read for the user's
    existing profiles. *)
Lemma createProfile_reads_before_validation :
  fst (createProfile Sample.env None None (Some "my mother") Sample.emptyWorld)
  = (400, ErrorBody "Profile name is required")
  /\ storeEvents (log (snd (createProfile Sample.env None None (Some "my mother")
                                          Sample.emptyWorld)))
     = [KvGetByPrefix "user:u1:profile:"].
Proof. split; reflexivity. Qed.

(** C8, amended: a validation error is returned before any store write.
    The search handler rejects a missing query before it touches a store
    at all; the profile creation rejects a missing name or description
    after one read of the key-value store (the listing behind the limit of
    five profiles), and leaves both stores as they were. *)
Theorem validation_errors_precede_writes (env : Env) (w : World) (user : string) :
  authUser env = Some user ->
  (forall query profileId profileName,
      truthy query = false ->
      searchGifts env query profileId profileName w
      = ((400, ErrorBody "Query string is required"), w))
  /\ (forall name avatar description,
        (List.length (filter isProfileObject (Kv.getByPrefix (profilePrefix user) (kv w))) < 5)%nat ->
        isBlank name || isBlank description = true ->
        createProfile env name avatar description w
        = ((400, ErrorBody (if isBlank name then "Profile name is required"
                            else "Profile description is required")),
           logged (KvGetByPrefix (profilePrefix user)) w)).
Proof.
  intros Hauth. split.
  - intros query profileId profileName Hq.
    unfold searchGifts, tryCatch, bind, requireUser. rewrite Hauth. cbn [ret].
    rewrite Hq. reflexivity.
  - intros name avatar description Hlt Hblank.
    unfold createProfile, tryCatch, bind, requireUser. rewrite Hauth. cbn [ret].
    rewrite kvGetByPrefix_run.
    apply Nat.leb_gt in Hlt. rewrite Hlt.
    destruct (isBlank name); [reflexivity | ].
    cbn [orb] in Hblank. rewrite Hblank. reflexivity.
Qed.

Lemma validation_errors_precede_writes_witness :
  searchGifts Sample.env None (Some "p1") None Sample.momWorld
  = ((400, ErrorBody "Query string is required"), Sample.momWorld)
  /\ createProfile Sample.env (Some "Dad") None (Some "   ") Sample.momWorld
     = ((400, ErrorBody "Profile description is required"),
        logged (KvGetByPrefix (profilePrefix "u1")) Sample.momWorld).
Proof.
  destruct (validation_errors_precede_writes Sample.env Sample.momWorld "u1" eq_refl)
    as [Hsearch Hcreate].
  split; [apply (Hsearch None (Some "p1") None); reflexivity | ].
  apply (Hcreate (Some "Dad") None (Some "   ")).
  - vm_compute. repeat constructor.
  - reflexivity.
Defined.

(** Resolution by name ignores case and surrounding white space, and a name
    no record carries is answered 404. *)
Example resolveProfile_name_variants :
  fst (resolveProfile "u1" None (Some " Mom ") Sample.momWorld) = Value (Some "p1")
  /\ fst (resolveProfile "u1" None (Some "MOM") Sample.momWorld) = Value (Some "p1")
  /\ fst (searchGifts Sample.env (Some "gardening") None (Some "Grandpa") Sample.momWorld)
     = (404, ErrorBody "No profile found with name 'Grandpa'").
Proof. repeat split; vm_compute; reflexivity. Qed.

End ProfileClaims.

(** ** Deleting a profile *)

Section DeleteProfile.


Lemma listNotes_run (env : Env) (profileId : string) (w : World) (user : string) :
  authUser env = Some user ->
  fst (listNotes env profileId w)
  = (200, NotesBody (Kv.getByPrefix (notePrefix user profileId) (kv w))).
Proof.
  intros Hauth. unfold listNotes, tryCatch, bind, requireUser. rewrite Hauth. reflexivity.
Qed.

Lemma listCategories_run (env : Env) (profileId : string) (w : World) (user : string) :
  authUser env = Some user ->
  fst (listCategories env profileId w)
  = (200, CategoriesBody (Kv.getByPrefix (categoryPrefix user profileId) (kv w))).
Proof.
  intros Hauth. unfold listCategories, tryCatch, bind, requireUser. rewrite Hauth. reflexivity.
Qed.


End DeleteProfile.

Section DeleteProfileClaim.





End DeleteProfileClaim.

(** ** Running the submit handler *)

Section SubmitRun.

Lemma generateSimpleEmbedding_log (env : Env) (text : string) (w : World) :
  exists events, log (snd (generateSimpleEmbedding env text w)) = (log w ++ events)%list.
Proof.
  unfold generateSimpleEmbedding.
  destruct (embeddingModel env) as [f | ]; [ | exists []; cbn; now rewrite app_nil_r].
  destruct (String.eqb (trim text) ""); [exists []; cbn; now rewrite app_nil_r | ].
  unfold bind, emit. exists [EmbedContent text].
  destruct (f text) as [m | [v | ]]; reflexivity.
Qed.

Lemma categoryBranch_run (env : Env) (user profileId : string) (i : nat)
  (c : CategoryInput.t) (w : World) :
  categoryBranch env user profileId i c w
  = (Value [WriteKv (categoryKey user profileId
                       (if truthy (CategoryInput.id c) then interp (CategoryInput.id c)
                        else randomUUID env (uuidsDrawn w)))
              (categoryRecord env user profileId
                 (if truthy (CategoryInput.id c) then interp (CategoryInput.id c)
                  else randomUUID env (uuidsDrawn w)) i c)],
     mkWorld (kv w) (profiles w) (memory_items w)
             (if truthy (CategoryInput.id c) then uuidsDrawn w else S (uuidsDrawn w)) (log w)).
Proof.
  unfold categoryBranch, idOrFresh, bind, drawUUID.
  destruct (truthy (CategoryInput.id c)); cbn [ret]; destruct w; reflexivity.
Qed.

Lemma mapM_categoryBranch_run (env : Env) (user profileId : string)
  (categories : list CategoryInput.t) (i : nat) (w : World) :
  mapM (categoryBranch env user profileId) i categories w
  = (Value (categoryWrites env user profileId (uuidsDrawn w) i categories),
     mkWorld (kv w) (profiles w) (memory_items w)
             (uuidsDrawn w + freshCount (map CategoryInput.id categories)) (log w)).
Proof.
  revert i w. induction categories as [ | c rest IH]; intros i w.
  - cbn. rewrite Nat.add_0_r. destruct w; reflexivity.
  - cbn [mapM categoryWrites map]. unfold bind.
    rewrite categoryBranch_run, IH. cbn [ret kv profiles memory_items uuidsDrawn log].
    unfold freshCount. cbn [filter].
    destruct (truthy (CategoryInput.id c)); cbn [negb List.length];
      rewrite ?Nat.add_succ_r; reflexivity.
Qed.

Lemma noteBranch_run (env : Env) (user profileId : string) (pname : option string)
  (i : nat) (n : NoteInput.t) (w : World) :
  exists events,
    noteBranch env user profileId pname i n w
    = (Value (match embedResult env (textContent n) with
              | inl message => inl message
              | inr e =>
                  inr (noteWrites env user profileId pname n
                         (if truthy (NoteInput.id n) then interp (NoteInput.id n)
                          else randomUUID env (uuidsDrawn w)) i e)
              end),
       mkWorld (kv w) (profiles w) (memory_items w)
               (if truthy (NoteInput.id n) then uuidsDrawn w else S (uuidsDrawn w))
               (log w ++ events)%list).
Proof.
  unfold noteBranch, idOrFresh, settle, textContent.
  destruct (truthy (NoteInput.id n)) eqn:Hid.
  - unfold bind at 1. cbn [ret]. unfold bind.
    pose proof (generateSimpleEmbedding_result env (orElse (NoteInput.entry n) "") w) as Hr.
    pose proof (generateSimpleEmbedding_stores env (orElse (NoteInput.entry n) "") w)
      as (H1 & H2 & H3 & H4).
    destruct (generateSimpleEmbedding_log env (orElse (NoteInput.entry n) "") w) as (ev & Hlog).
    exists ev.
    destruct (generateSimpleEmbedding env (orElse (NoteInput.entry n) "") w) as [o w1].
    cbn [fst snd] in *. destruct w1 as [k1 p1 m1 u1 l1]. cbn in *. subst.
    destruct (embedResult env (orElse (NoteInput.entry n) "")) as [m | e];
      cbn [ret]; destruct w; reflexivity.
  - unfold bind at 1. unfold drawUUID. unfold bind.
    set (w0 := mkWorld (kv w) (profiles w) (memory_items w) (S (uuidsDrawn w)) (log w)).
    pose proof (generateSimpleEmbedding_result env (orElse (NoteInput.entry n) "") w0) as Hr.
    pose proof (generateSimpleEmbedding_stores env (orElse (NoteInput.entry n) "") w0)
      as (H1 & H2 & H3 & H4).
    destruct (generateSimpleEmbedding_log env (orElse (NoteInput.entry n) "") w0) as (ev & Hlog).
    exists ev.
    destruct (generateSimpleEmbedding env (orElse (NoteInput.entry n) "") w0) as [o w1].
    cbn [fst snd] in *. destruct w1 as [k1 p1 m1 u1 l1]. cbn in *. subst.
    destruct (embedResult env (orElse (NoteInput.entry n) "")) as [m | e];
      cbn [ret]; reflexivity.
Qed.

Lemma mapM_noteBranch_run (env : Env) (user profileId : string) (pname : option string)
  (notes : list NoteInput.t) (i : nat) (w : World) :
  exists events,
    mapM (noteBranch env user profileId pname) i notes w
    = (Value (settledNotes env user profileId pname (uuidsDrawn w) i notes),
       mkWorld (kv w) (profiles w) (memory_items w)
               (uuidsDrawn w + freshCount (map NoteInput.id notes)) (log w ++ events)%list).
Proof.
  revert i w. induction notes as [ | n rest IH]; intros i w.
  - exists []. cbn. rewrite Nat.add_0_r, app_nil_r. destruct w; reflexivity.
  - cbn [mapM settledNotes map]. unfold bind at 1.
    destruct (noteBranch_run env user profileId pname i n w) as (ev1 & ->).
    unfold bind.
    match goal with |- context [mapM _ ?j rest ?w1] => destruct (IH j w1) as (ev2 & ->) end.
    exists (ev1 ++ ev2)%list. cbn [ret kv profiles memory_items uuidsDrawn log].
    unfold freshCount. cbn [filter].
    destruct (truthy (NoteInput.id n)); cbn [negb List.length];
      rewrite <- ?app_assoc, ?Nat.add_succ_r; reflexivity.
Qed.

Lemma applyWrites_run (l : list Write) (w : World) :
  applyWrites l w
  = (Value tt,
     mkWorld (landKv l (kv w)) (profiles w) (landMemory l (memory_items w)) (uuidsDrawn w)
             (log w ++ map eventOf l)%list).
Proof.
  revert w. induction l as [ | wr l IH]; intros w.
  - cbn. rewrite app_nil_r. destruct w; reflexivity.
  - cbn [applyWrites]. unfold bind at 1.
    destruct wr as [k v | row]; cbn [applyWrite]; unfold kvSet, upsertMemoryRow, bind, emit,
      withKv, withMemory; rewrite IH; cbn; rewrite <- app_assoc; reflexivity.
Qed.

(** The submit handler, run: the stores hold what the writes of all
    branches leave, landed in the order the schedule takes them. *)
Lemma submit_run (env : Env) (profileId : string)
  (categories : list CategoryInput.t) (notes : list NoteInput.t) (w : World) (user : string) :
  authUser env = Some user ->
  exists events,
    let pname := Db.selectProfileName user profileId (profiles w) in
    let settled :=
      settledNotes env user profileId pname
        (uuidsDrawn w + freshCount (map CategoryInput.id categories)) 0 notes in
    let landed :=
      schedule env (categoryWrites env user profileId (uuidsDrawn w) 0 categories
                    ++ fulfilled settled)%list in
    submit env profileId categories notes w
    = (match firstRejection settled with
       | Some message => jsonStatus (ErrorBody message) 500
       | None => json (SubmitBody "Notes and categories saved with vector embeddings")
       end,
       mkWorld (landKv landed (kv w)) (profiles w) (landMemory landed (memory_items w))
               (uuidsDrawn w + freshCount (map CategoryInput.id categories)
                + freshCount (map NoteInput.id notes))
               (log w ++ events)%list).
Proof.
  intros Hauth. unfold submit, tryCatch, bind, requireUser. rewrite Hauth. cbn [ret].
  unfold selectProfileName, bind, emit.
  rewrite mapM_categoryBranch_run. cbn [kv profiles memory_items uuidsDrawn log].
  match goal with |- context [mapM (noteBranch ?e ?u ?p ?pn) 0 notes ?w1] =>
    destruct (mapM_noteBranch_run e u p pn notes 0 w1) as (ev & ->) end.
  cbn [kv profiles memory_items uuidsDrawn log].
  rewrite applyWrites_run. cbn [kv profiles memory_items uuidsDrawn log].
  eexists. cbv zeta.
  destruct (firstRejection _); cbn; rewrite <- !app_assoc; reflexivity.
Qed.

End SubmitRun.

(** ** Writes landing in the stores *)

Section Landing.

Lemma interleaves_perm {A : Type} (bs : list (list A)) (l : list A) :
  Interleaves bs l -> Permutation (List.concat bs) l.
Proof.
  induction 1 as [bs Hall | pre x b post l _ IH].
  - induction Hall as [ | b bs Hb _ IH]; cbn; [constructor | ]. subst b. exact IH.
  - rewrite concat_app in *. cbn [List.concat] in *. cbn [app].
    rewrite <- Permutation_middle. now apply perm_skip.
Qed.

Lemma interleaves_skip_empty {A : Type} (bs : list (list A)) (l : list A) :
  Interleaves bs l -> Interleaves ([] :: bs) l.
Proof.
  induction 1 as [bs Hall | pre x b post l _ IH].
  - constructor. now constructor.
  - apply (interleaves_step ([] :: pre) x b post l). exact IH.
Qed.

(** Running the branches one after the other is one of the schedules. *)
Lemma interleaves_concat {A : Type} (bs : list (list A)) : Interleaves bs (List.concat bs).
Proof.
  induction bs as [ | b bs IH]; cbn [List.concat].
  - constructor. constructor.
  - induction b as [ | x b IHb]; cbn [app].
    + now apply interleaves_skip_empty.
    + apply (interleaves_step [] x b bs). exact IHb.
Qed.

Lemma kv_keys_set (k : string) (v : Item.t) (s : Kv.store) :
  Kv.keys (Kv.set k v s) = if in_dec string_dec k (Kv.keys s) then Kv.keys s
                           else (Kv.keys s ++ [k])%list.
Proof.
  induction s as [ | [k' v'] s IH]; cbn [Kv.set Kv.keys map fst].
  - destruct (in_dec string_dec k []) as [[] | _]. reflexivity.
  - destruct (String.eqb_spec k' k) as [-> | N].
    + destruct (in_dec string_dec k (k :: map fst s)) as [_ | H]; [reflexivity | ].
      elim H. now left.
    + cbn [map fst]. fold (Kv.keys (Kv.set k v s)). rewrite IH. unfold Kv.keys.
      destruct (in_dec string_dec k (map fst s)) as [H | H];
        destruct (in_dec string_dec k (k' :: map fst s)) as [H' | H']; try reflexivity.
      * elim H'. now right.
      * destruct H' as [E | H']; [now elim N | contradiction].
Qed.

Lemma kv_set_nodup (k : string) (v : Item.t) (s : Kv.store) :
  NoDup (Kv.keys s) -> NoDup (Kv.keys (Kv.set k v s)).
Proof.
  intros H. rewrite kv_keys_set. destruct (in_dec string_dec k (Kv.keys s)) as [_ | N];
    [exact H | ].
  apply NoDup_app; [exact H | repeat constructor; intros [] | ].
  intros x Hx [<- | []]. contradiction.
Qed.

Lemma landKv_nodup (l : list Write) (s : Kv.store) :
  NoDup (Kv.keys s) -> NoDup (Kv.keys (landKv l s)).
Proof.
  revert s. induction l as [ | [k v | row] l IH]; intros s H; cbn; [exact H | | ].
  - apply IH. now apply kv_set_nodup.
  - now apply IH.
Qed.

Lemma kv_get_set_same (k : string) (v : Item.t) (s : Kv.store) :
  Kv.get k (Kv.set k v s) = Some v.
Proof.
  induction s as [ | [k' v'] s IH]; cbn.
  - now rewrite String.eqb_refl.
  - destruct (String.eqb_spec k' k) as [-> | N]; cbn.
    + now rewrite String.eqb_refl.
    + apply String.eqb_neq in N. now rewrite N.
Qed.

Lemma kv_get_set_other (k k' : string) (v : Item.t) (s : Kv.store) :
  k' <> k -> Kv.get k (Kv.set k' v s) = Kv.get k s.
Proof.
  intros N. induction s as [ | [k0 v0] s IH]; cbn.
  - apply String.eqb_neq in N. now rewrite N.
  - destruct (String.eqb_spec k0 k') as [-> | N0]; cbn.
    + apply String.eqb_neq in N. now rewrite N.
    + now rewrite IH.
Qed.

(** After the writes have landed a key holds the value written to it,
    when all writes to that key carry the same value. *)
Lemma memory_ids_upsert (row : MemoryRow.t) (t : list MemoryRow.t) :
  map MemoryRow.id (Db.upsertMemory row t)
  = if in_dec string_dec (MemoryRow.id row) (map MemoryRow.id t) then map MemoryRow.id t
    else (map MemoryRow.id t ++ [MemoryRow.id row])%list.
Proof.
  induction t as [ | r t IH]; cbn [Db.upsertMemory map].
  - destruct (in_dec string_dec (MemoryRow.id row) []) as [[] | _]. reflexivity.
  - destruct (String.eqb_spec (MemoryRow.id r) (MemoryRow.id row)) as [E | N].
    + cbn [map]. rewrite E.
      destruct (in_dec string_dec (MemoryRow.id row) (MemoryRow.id row :: map MemoryRow.id t))
        as [_ | H]; [reflexivity | ].
      elim H. now left.
    + cbn [map]. rewrite IH.
      destruct (in_dec string_dec (MemoryRow.id row) (map MemoryRow.id t)) as [H | H];
        destruct (in_dec string_dec (MemoryRow.id row) (MemoryRow.id r :: map MemoryRow.id t))
          as [H' | H']; try reflexivity.
      * elim H'. now right.
      * destruct H' as [E | H']; [now elim N | contradiction].
Qed.

Lemma upsertMemory_nodup (row : MemoryRow.t) (t : list MemoryRow.t) :
  NoDup (map MemoryRow.id t) -> NoDup (map MemoryRow.id (Db.upsertMemory row t)).
Proof.
  intros H. rewrite memory_ids_upsert.
  destruct (in_dec string_dec (MemoryRow.id row) (map MemoryRow.id t)) as [_ | N];
    [exact H | ].
  apply NoDup_app; [exact H | repeat constructor; intros [] | ].
  intros x Hx [<- | []]. contradiction.
Qed.

Lemma landMemory_nodup (l : list Write) (t : list MemoryRow.t) :
  NoDup (map MemoryRow.id t) -> NoDup (map MemoryRow.id (landMemory l t)).
Proof.
  revert t. induction l as [ | [k v | row] l IH]; intros t H; cbn; [exact H | | ].
  - now apply IH.
  - apply IH. now apply upsertMemory_nodup.
Qed.

Lemma findMemory_upsert_same (row : MemoryRow.t) (t : list MemoryRow.t) :
  Db.findMemory (MemoryRow.id row) (Db.upsertMemory row t) = Some row.
Proof.
  unfold Db.findMemory. induction t as [ | r t IH]; cbn.
  - now rewrite String.eqb_refl.
  - destruct (String.eqb_spec (MemoryRow.id r) (MemoryRow.id row)) as [E | N]; cbn.
    + now rewrite String.eqb_refl.
    + apply String.eqb_neq in N. now rewrite N.
Qed.

Lemma findMemory_upsert_other (id : string) (row : MemoryRow.t) (t : list MemoryRow.t) :
  MemoryRow.id row <> id ->
  Db.findMemory id (Db.upsertMemory row t) = Db.findMemory id t.
Proof.
  intros N. unfold Db.findMemory. induction t as [ | r t IH]; cbn.
  - apply String.eqb_neq in N. now rewrite N.
  - destruct (String.eqb_spec (MemoryRow.id r) (MemoryRow.id row)) as [E | N0]; cbn.
    + rewrite E. apply String.eqb_neq in N. now rewrite N.
    + now rewrite IH.
Qed.

End Landing.

(** ** The branches of a submit *)

Section SubmitBranches.

Lemma assignIds_cons (env : Env) (k : nat) (id : option string) (ids : list (option string)) :
  assignIds env k (id :: ids)
  = (if truthy id then interp id else randomUUID env k)
    :: assignIds env (if truthy id then k else S k) ids.
Proof. cbn [assignIds]. destruct (truthy id); reflexivity. Qed.

Lemma assignIds_length (env : Env) (k : nat) (ids : list (option string)) :
  List.length (assignIds env k ids) = List.length ids.
Proof.
  revert k. induction ids as [ | id ids IH]; intros k; [reflexivity | ].
  rewrite assignIds_cons. cbn [List.length]. now rewrite IH.
Qed.

(** An identifier handed out is the one that came with the element, or a
    random one when none came. *)
Lemma assignIds_nth (env : Env) (k : nat) (ids : list (option string)) (j : nat)
  (id : option string) (assigned : string) :
  nth_error ids j = Some id ->
  nth_error (assignIds env k ids) j = Some assigned ->
  (truthy id = true -> assigned = interp id)
  /\ (truthy id = false -> exists m, (k <= m)%nat /\ assigned = randomUUID env m).
Proof.
  revert k j. induction ids as [ | x ids IH]; intros k j Hj Ha; [destruct j; discriminate Hj | ].
  rewrite assignIds_cons in Ha. destruct j as [ | j]; cbn [nth_error] in Hj, Ha.
  - injection Hj as ->. injection Ha as <-. destruct (truthy id).
    + split; [reflexivity | discriminate].
    + split; [discriminate | ]. intros _. now exists k.
  - destruct (IH _ _ Hj Ha) as [H1 H2]. split; [exact H1 | ].
    intros Hid. destruct (H2 Hid) as (m & Hm & ->). exists m. split; [ | reflexivity].
    destruct (truthy x); lia.
Qed.

(** The writes of the category branches, by position. *)
Lemma categoryWrites_nth (env : Env) (user profileId : string) (k i : nat)
  (categories : list CategoryInput.t) (wr : Write) :
  In wr (List.concat (categoryWrites env user profileId k i categories))
  <-> exists j c categoryId,
        nth_error categories j = Some c
        /\ nth_error (assignIds env k (map CategoryInput.id categories)) j = Some categoryId
        /\ wr = WriteKv (categoryKey user profileId categoryId)
                        (categoryRecord env user profileId categoryId (i + j) c).
Proof.
  revert k i. induction categories as [ | c rest IH]; intros k i.
  - cbn. split; [intros [] | intros ([ | j] & ? & ? & H & _); discriminate H].
  - cbn [categoryWrites List.concat app map]. rewrite assignIds_cons. split.
    + intros [<- | H].
      * exists 0%nat, c. eexists. rewrite Nat.add_0_r. repeat split.
      * apply IH in H. destruct H as (j & c' & i' & H1 & H2 & ->).
        exists (S j), c', i'. rewrite Nat.add_succ_r. repeat split; assumption.
    + intros ([ | j] & c' & i' & H1 & H2 & ->); cbn [nth_error] in H1, H2.
      * injection H1 as <-. injection H2 as <-. rewrite Nat.add_0_r. now left.
      * right. apply IH. exists j, c', i'. rewrite Nat.add_succ_r. repeat split; assumption.
Qed.

(** The writes of the note branches that were not rejected, by position. *)
Lemma settledNotes_nth (env : Env) (user profileId : string) (pname : option string)
  (k i : nat) (notes : list NoteInput.t) (wr : Write) :
  In wr (List.concat (fulfilled (settledNotes env user profileId pname k i notes)))
  <-> exists j n noteId e,
        nth_error notes j = Some n
        /\ nth_error (assignIds env k (map NoteInput.id notes)) j = Some noteId
        /\ embedResult env (textContent n) = inr e
        /\ In wr (noteWrites env user profileId pname n noteId (i + j) e).
Proof.
  revert k i. induction notes as [ | n rest IH]; intros k i.
  - cbn. split; [intros [] | intros ([ | j] & ? & ? & ? & H & _); discriminate H].
  - cbn [settledNotes map]. rewrite assignIds_cons. split.
    + intros H.
      destruct (embedResult env (textContent n)) as [m | e] eqn:He;
        cbn [fulfilled List.concat] in H.
      * apply IH in H. destruct H as (j & n' & i' & e' & H1 & H2 & H3 & H4).
        exists (S j), n', i', e'. rewrite Nat.add_succ_r. repeat split; assumption.
      * apply in_app_or in H. destruct H as [H | H].
        -- exists 0%nat, n. eexists. exists e. rewrite Nat.add_0_r.
           split; [reflexivity | ]. split; [reflexivity | ]. split; [exact He | exact H].
        -- apply IH in H. destruct H as (j & n' & i' & e' & H1 & H2 & H3 & H4).
           exists (S j), n', i', e'. rewrite Nat.add_succ_r. repeat split; assumption.
    + intros ([ | j] & n' & i' & e' & H1 & H2 & H3 & H4); cbn [nth_error] in H1, H2.
      * injection H1 as <-. injection H2 as <-. rewrite H3. cbn [fulfilled List.concat].
        apply in_or_app. left. now rewrite Nat.add_0_r in H4.
      * assert (Hrest : In wr (List.concat (fulfilled
                   (settledNotes env user profileId pname
                      (if truthy (NoteInput.id n) then k else S k) (S i) rest)))).
        { apply IH. exists j, n', i', e'. rewrite Nat.add_succ_r in H4.
          repeat split; assumption. }
        destruct (embedResult env (textContent n)); cbn [fulfilled List.concat];
          [exact Hrest | apply in_or_app; now right].
Qed.

(** No branch is rejected exactly when every embedding succeeds. *)
Lemma settledNotes_no_rejection (env : Env) (user profileId : string) (pname : option string)
  (k i : nat) (notes : list NoteInput.t) :
  firstRejection (settledNotes env user profileId pname k i notes) = None
  <-> Forall (fun n => exists e, embedResult env (textContent n) = inr e) notes.
Proof.
  revert k i. induction notes as [ | n rest IH]; intros k i.
  - split; [constructor | reflexivity].
  - cbn [settledNotes]. destruct (embedResult env (textContent n)) as [m | e] eqn:He;
      cbn [firstRejection].
    + split; [discriminate | ]. intros H. inversion H as [ | ? ? (e & He') _]. congruence.
    + rewrite IH. split; [intros H; constructor; [now exists e | exact H] | ].
      intros H. now inversion H.
Qed.

(** After the writes have landed, a key that was written holds the value
    of one of its writes (the last to land). *)
Lemma landKv_get_written (k : string) (l : list Write) (s : Kv.store) :
  (exists v, In (WriteKv k v) l) ->
  exists v, In (WriteKv k v) l /\ Kv.get k (landKv l s) = Some v.
Proof.
  induction l as [ | wr l IH] using rev_ind; intros (v0 & H0); [destruct H0 | ].
  unfold landKv in *. rewrite fold_left_app. cbn [fold_left].
  destruct wr as [k' v' | row].
  - destruct (string_dec k' k) as [-> | N].
    + exists v'. split; [apply in_or_app; right; now left | apply kv_get_set_same].
    + destruct IH as (v & Hv & Hget).
      { exists v0. apply in_app_or in H0. destruct H0 as [H | [E | []]]; [exact H | ].
        injection E as -> _. now elim N. }
      exists v. split; [apply in_or_app; now left | ].
      now rewrite kv_get_set_other.
  - destruct IH as (v & Hv & Hget).
    { exists v0. apply in_app_or in H0. destruct H0 as [H | [E | []]]; [exact H | ].
      discriminate E. }
    exists v. split; [apply in_or_app; now left | exact Hget].
Qed.

Lemma landMemory_find_written (id : string) (l : list Write) (t : list MemoryRow.t) :
  (exists row, In (WriteMemory row) l /\ MemoryRow.id row = id) ->
  exists row, In (WriteMemory row) l /\ MemoryRow.id row = id
              /\ Db.findMemory id (landMemory l t) = Some row.
Proof.
  induction l as [ | wr l IH] using rev_ind; intros (r0 & H0 & E0); [destruct H0 | ].
  unfold landMemory in *. rewrite fold_left_app. cbn [fold_left].
  destruct wr as [k' v' | row].
  - destruct IH as (r & Hr & Hid & Hfind).
    { exists r0. split; [ | exact E0].
      apply in_app_or in H0. destruct H0 as [H | [E | []]]; [exact H | discriminate E]. }
    exists r. split; [apply in_or_app; now left | ]. split; [exact Hid | exact Hfind].
  - destruct (string_dec (MemoryRow.id row) id) as [E | N].
    + exists row. split; [apply in_or_app; right; now left | ]. split; [exact E | ].
      rewrite <- E. apply findMemory_upsert_same.
    + destruct IH as (r & Hr & Hid & Hfind).
      { exists r0. split; [ | exact E0].
        apply in_app_or in H0. destruct H0 as [H | [E | []]]; [exact H | ].
        injection E as ->. now elim N. }
      exists r. split; [apply in_or_app; now left | ]. split; [exact Hid | ].
      now rewrite findMemory_upsert_other.
Qed.

(** What has landed once a submit has run: the writes of the category
    branches and of the note branches that were not rejected. *)
Lemma submit_landed (env : Env) (categories : list (list Write))
  (settled : list (string + list Write)) (wr : Write) :
  (forall bs, Interleaves bs (schedule env bs)) ->
  In wr (schedule env (categories ++ fulfilled settled)%list)
  <-> In wr (List.concat categories) \/ In wr (List.concat (fulfilled settled)).
Proof.
  intros Hsched. rewrite <- in_app_iff, <- concat_app.
  split; apply Permutation_in; [symmetry | ]; apply interleaves_perm, Hsched.
Qed.

End SubmitBranches.

(** ** Submitting notes *)

Section SubmitClaim.

Local Open Scope float_scope.

(** C7, counterexample: the claim says that resubmitting a note whose id is
    already stored overwrites it in both stores, and that a note submitted
    without an id becomes retrievable.  While the embedding model is not
    configured the submit is answered 500: the note "n2" is resubmitted
    with a new entry and both stores keep the old one, and the note sent
    without an id is not listed. *)
Lemma resubmit_without_model_keeps_note :
  fst (submit Sample2.noModel "p1" [] [Sample.resubmitted; Sample.unsaved] Sample.momWorld)
  = (500%nat, ErrorBody "Gemini embedding model is not initialized.")
  /\ NoteInput.entry Sample.resubmitted = Some "loves roses"
  /\ Kv.get (noteKey "u1" "p1" "n2")
            (kv (snd (submit Sample2.noModel "p1" [] [Sample.resubmitted; Sample.unsaved]
                             Sample.momWorld)))
     = Some (Sample.storedNote "n2" "loves gardening" "p1" (Some [1; 0]))
  /\ Db.findMemory "n2"
       (memory_items (snd (submit Sample2.noModel "p1" [] [Sample.resubmitted; Sample.unsaved]
                                  Sample.momWorld)))
     = Some (Sample.memory "n2" "loves gardening" "p1" "Mom" [1; 0])
  /\ fst (listNotes Sample2.noModel "p1"
            (snd (submit Sample2.noModel "p1" [] [Sample.resubmitted; Sample.unsaved]
                         Sample.momWorld)))
     = fst (listNotes Sample2.noModel "p1" Sample.momWorld).
Proof. repeat split; vm_compute; reflexivity. Qed.

(** C7, amended: a submit that is answered with success is idempotent on
    note identifiers, whatever the order in which its concurrent writes
    land.  Every note of the submit has an identifier: the one it came
    with, or a random one.  Afterwards the key made from that identifier
    and the [memory_items] row with that [id] hold the record of a note of
    this submit that carries the identifier (the note itself when no other
    note of the submit shares it): its [id], [entry], [categoryId], the
    profile, the user, the embedding of its text and the clock readings of
    its branch.  Where each key of the key-value store and each [id] of
    [memory_items] occurred once, it still does, so a note whose [id] was
    already stored is overwritten in both stores, not duplicated; and the
    record is among the notes [listNotes] returns, also for a note that
    came without an [id]. *)
Theorem submit_overwrites_by_id (env : Env) (profileId : string)
  (categories : list CategoryInput.t) (notes : list NoteInput.t) (w : World) (user : string) :
  authUser env = Some user ->
  (forall bs, Interleaves bs (schedule env bs)) ->
  fst (submit env profileId categories notes w)
  = (200%nat, SubmitBody "Notes and categories saved with vector embeddings") ->
  let w' := snd (submit env profileId categories notes w) in
  let ids := assignIds env (uuidsDrawn w + freshCount (map CategoryInput.id categories))
                       (map NoteInput.id notes) in
  (NoDup (Kv.keys (kv w)) -> NoDup (Kv.keys (kv w')))
  /\ (NoDup (map MemoryRow.id (memory_items w)) ->
      NoDup (map MemoryRow.id (memory_items w')))
  /\ List.length ids = List.length notes
  /\ forall j n noteId,
       nth_error notes j = Some n ->
       nth_error ids j = Some noteId ->
       (truthy (NoteInput.id n) = true -> noteId = interp (NoteInput.id n))
       /\ (truthy (NoteInput.id n) = false -> exists m, noteId = randomUUID env m)
       /\ (exists j' n' e record,
             nth_error notes j' = Some n' /\ nth_error ids j' = Some noteId
             /\ ((forall i, nth_error ids i = Some noteId -> i = j) -> j' = j /\ n' = n)
             /\ embedsTo env (textContent n') e
             /\ record
                = Item.mk (Some noteId) None None None None (NoteInput.entry n')
                          (NoteInput.categoryId n') (Some profileId) (Some user) (Some e)
                          (Some (orElse (NoteInput.createdAt n') (now env (NoteCreated j'))))
                          (Some (now env (NoteUpdated j')))
             /\ Kv.get (noteKey user profileId noteId) (kv w') = Some record
             /\ exists listed,
                  fst (listNotes env profileId w') = (200%nat, NotesBody listed)
                  /\ In record listed)
       /\ (exists j' n' e,
             nth_error notes j' = Some n' /\ nth_error ids j' = Some noteId
             /\ ((forall i, nth_error ids i = Some noteId -> i = j) -> j' = j /\ n' = n)
             /\ embedsTo env (textContent n') e
             /\ Db.findMemory noteId (memory_items w')
                = Some (MemoryRow.mk noteId user profileId
                          (Db.selectProfileName user profileId (profiles w))
                          (NoteInput.entry n') e
                          (orElse (NoteInput.createdAt n') (now env (NoteCreated j')))
                          (now env (NoteUpdated j')))).
Proof.
  intros Hauth Hsched Hok. cbv zeta.
  destruct (submit_run env profileId categories notes w user Hauth) as (events & Hrun).
  cbv zeta in Hrun. rewrite Hrun in Hok |- *. clear Hrun. cbn [fst snd kv memory_items] in *.
  set (pname := Db.selectProfileName user profileId (profiles w)) in *.
  set (k := (uuidsDrawn w + freshCount (map CategoryInput.id categories))%nat) in *.
  set (cats := categoryWrites env user profileId (uuidsDrawn w) 0 categories) in *.
  set (settled := settledNotes env user profileId pname k 0 notes) in *.
  set (landed := schedule env (cats ++ fulfilled settled)%list) in *.
  assert (Hrej : firstRejection settled = None).
  { destruct (firstRejection settled); [discriminate Hok | reflexivity]. }
  assert (Hemb : Forall (fun n => exists e, embedResult env (textContent n) = inr e) notes)
    by (apply (settledNotes_no_rejection env user profileId pname k 0 notes), Hrej).
  pose proof (fun wr => submit_landed env cats settled wr Hsched) as Hlanded.
  fold landed in Hlanded.
  split; [apply landKv_nodup | ].
  split; [apply landMemory_nodup | ].
  split; [now rewrite assignIds_length, length_map | ].
  intros j n noteId Hj Hid.
  assert (Hjid : nth_error (map NoteInput.id notes) j = Some (NoteInput.id n))
    by (rewrite nth_error_map, Hj; reflexivity).
  destruct (assignIds_nth env k _ j _ noteId Hjid Hid) as [Hgiven Hfresh].
  split; [exact Hgiven | ].
  split; [intros Hn; destruct (Hfresh Hn) as (m & _ & ->); now exists m | ].
  rewrite Forall_forall in Hemb.
  destruct (Hemb n (nth_error_In _ _ Hj)) as (e & He).
  assert (Hown : forall wr, In wr (noteWrites env user profileId pname n noteId j e) ->
                            In wr landed).
  { intros wr Hwr. apply Hlanded. right. apply settledNotes_nth.
    exists j, n, noteId, e. repeat split; assumption. }
  assert (Hsame : forall j' n', nth_error notes j' = Some n' ->
                    (forall i, nth_error (assignIds env k (map NoteInput.id notes)) i
                               = Some noteId -> i = j) ->
                    nth_error (assignIds env k (map NoteInput.id notes)) j' = Some noteId ->
                    j' = j /\ n' = n).
  { intros j' n' Hj' Huniq Hid'. assert (j' = j) by now apply Huniq. subst j'.
    split; [reflexivity | congruence]. }
  split.
  - destruct (landKv_get_written (noteKey user profileId noteId) landed (kv w))
      as (v & Hv & Hget).
    { eexists. apply Hown. left. reflexivity. }
    apply Hlanded in Hv. destruct Hv as [Hc | Hs].
    { apply categoryWrites_nth in Hc. destruct Hc as (jc & c & ic & _ & _ & E).
      assert (Ek : noteKey user profileId noteId = categoryKey user profileId ic)
        by congruence.
      now apply noteKey_not_categoryKey in Ek. }
    apply settledNotes_nth in Hs.
    destruct Hs as (j' & n' & i' & e' & Hj' & Hid' & He' & [E | [E | []]]);
      [ | discriminate E].
    change (0 + j')%nat with j' in E.
    assert (Ek : noteKey user profileId i' = noteKey user profileId noteId) by congruence.
    apply noteKey_inj in Ek. subst i'.
    assert (Ev : v = noteRecord user profileId noteId n' e'
                       (orElse (NoteInput.createdAt n') (now env (NoteCreated j')))
                       (now env (NoteUpdated j'))) by congruence.
    exists j', n', e'. eexists.
    split; [exact Hj' | ]. split; [exact Hid' | ].
    split; [intros Huniq; now apply Hsame | ].
    split; [now apply embedsTo_result | ].
    split; [reflexivity | ].
    split; [rewrite Hget, Ev; reflexivity | ].
    eexists. split; [apply (listNotes_run env profileId _ user Hauth) | ].
    cbn [kv]. apply kv_getByPrefix_in. exists (noteKey user profileId noteId).
    split; [ | apply noteKey_startsWith].
    apply kv_get_in. rewrite Hget, Ev. reflexivity.
  - destruct (landMemory_find_written noteId landed (memory_items w))
      as (row & Hrow & Hrid & Hfind).
    { eexists. split; [apply Hown; right; left; reflexivity | reflexivity]. }
    apply Hlanded in Hrow. destruct Hrow as [Hc | Hs].
    { apply categoryWrites_nth in Hc. destruct Hc as (jc & c & ic & _ & _ & E).
      discriminate E. }
    apply settledNotes_nth in Hs.
    destruct Hs as (j' & n' & i' & e' & Hj' & Hid' & He' & [E | [E | []]]);
      [discriminate E | ].
    change (0 + j')%nat with j' in E.
    injection E as <-. cbn [memoryRow MemoryRow.id] in Hrid. subst i'.
    exists j', n', e'.
    split; [exact Hj' | ]. split; [exact Hid' | ].
    split; [intros Huniq; now apply Hsame | ].
    split; [now apply embedsTo_result | ].
    rewrite Hfind. reflexivity.
Qed.

Ltac distinct_strings :=
  vm_compute;
  repeat (constructor;
          [ let H := fresh in
            intros H; cbn in H;
            repeat (destruct H as [H | H]; [discriminate H | ]); exact H
          | ]);
  try constructor.

Lemma submit_overwrites_by_id_witness :
  NoDup (Kv.keys (kv (snd (submit Sample.env "p1" [] [Sample.resubmitted; Sample.unsaved]
                                  Sample.momWorld))))
  /\ List.length (kv (snd (submit Sample.env "p1" [] [Sample.resubmitted; Sample.unsaved]
                                  Sample.momWorld)))
     = S (List.length (kv Sample.momWorld))
  /\ Kv.get (noteKey "u1" "p1" "n2")
            (kv (snd (submit Sample.env "p1" [] [Sample.resubmitted; Sample.unsaved]
                             Sample.momWorld)))
     = Some (Item.mk (Some "n2") None None None None (Some "loves roses") (Some "c1")
                     (Some "p1") (Some "u1") (Some [0; 1])
                     (Some Sample.timestamp) (Some Sample.timestamp))
  /\ exists j' n' e,
       nth_error [Sample.resubmitted; Sample.unsaved] j' = Some n'
       /\ embedsTo Sample.env (textContent n') e
       /\ Db.findMemory (Sample.uuid 0)
            (memory_items (snd (submit Sample.env "p1" [] [Sample.resubmitted; Sample.unsaved]
                                       Sample.momWorld)))
          = Some (MemoryRow.mk (Sample.uuid 0) "u1" "p1" (Some "Mom") (NoteInput.entry n') e
                               (orElse (NoteInput.createdAt n') Sample.timestamp)
                               Sample.timestamp).
Proof.
  destruct (submit_overwrites_by_id Sample.env "p1" [] [Sample.resubmitted; Sample.unsaved]
              Sample.momWorld "u1") as (Hkeys & _ & _ & Hnotes).
  - reflexivity.
  - intros bs. apply interleaves_concat.
  - vm_compute. reflexivity.
  - split; [apply Hkeys; distinct_strings | ].
    split; [reflexivity | ]. split; [vm_compute; reflexivity | ].
    destruct (Hnotes 1%nat Sample.unsaved (Sample.uuid 0) eq_refl eq_refl)
      as (_ & _ & _ & j' & n' & e & Hj' & _ & _ & He & Hfind).
    exists j', n', e. split; [exact Hj' | ]. split; [exact He | exact Hfind].
Defined.

End SubmitClaim.

(** * Further properties of the handlers *)

(** ** Requests without a valid token *)

Section Unauthorized.

(** X1: a request whose token does not name a user is answered 401 by
    every handler, and neither store is read or written: the world,
    log included, is the one before the request. *)
Theorem unauthorized_touches_nothing (env : Env) (w : World) :
  authUser env = None ->
  listProfiles env w = ((401, ErrorBody "Unauthorized"), w)
  /\ (forall name avatar description,
        createProfile env name avatar description w = ((401, ErrorBody "Unauthorized"), w))
  /\ (forall profileId, deleteProfile env profileId w = ((401, ErrorBody "Unauthorized"), w))
  /\ (forall profileId, listCategories env profileId w = ((401, ErrorBody "Unauthorized"), w))
  /\ (forall profileId, listNotes env profileId w = ((401, ErrorBody "Unauthorized"), w))
  /\ (forall profileId categories notes,
        submit env profileId categories notes w = ((401, ErrorBody "Unauthorized"), w))
  /\ (forall profileId noteId,
        deleteNote env profileId noteId w = ((401, ErrorBody "Unauthorized"), w))
  /\ (forall query profileId profileName,
        searchGifts env query profileId profileName w = ((401, ErrorBody "Unauthorized"), w)).
Proof.
  intros H.
  unfold listProfiles, createProfile, deleteProfile, listCategories, listNotes, submit,
    deleteNote, searchGifts, tryCatch, bind, requireUser.
  rewrite H. repeat split.
Qed.

Lemma unauthorized_touches_nothing_witness :
  submit Sample2.anonymous "p1" [] [Sample.resubmitted] Sample.momWorld
  = ((401, ErrorBody "Unauthorized"), Sample.momWorld)
  /\ deleteProfile Sample2.anonymous "p1" Sample.momWorld
     = ((401, ErrorBody "Unauthorized"), Sample.momWorld).
Proof.
  destruct (unauthorized_touches_nothing Sample2.anonymous Sample.momWorld eq_refl)
    as (_ & _ & Hdel & _ & _ & Hsub & _).
  split; [apply Hsub | apply Hdel].
Defined.

End Unauthorized.

(** ** Creating a profile *)

Section CreateProfile.

Lemma kv_set_fresh (k : string) (v : Item.t) (s : Kv.store) :
  ~ In k (Kv.keys s) -> Kv.set k v s = (s ++ [(k, v)])%list.
Proof.
  induction s as [ | [k' v'] s IH]; cbn; intros H; [reflexivity | ].
  destruct (String.eqb_spec k' k) as [-> | N]; [elim H; now left | ].
  rewrite IH; [reflexivity | ]. intros Hin. apply H. now right.
Qed.

Lemma kv_getByPrefix_app (prefix : string) (s s' : Kv.store) :
  Kv.getByPrefix prefix (s ++ s')%list
  = (Kv.getByPrefix prefix s ++ Kv.getByPrefix prefix s')%list.
Proof. unfold Kv.getByPrefix. now rewrite filter_app, map_app. Qed.

Lemma isBlank_false (o : option string) :
  isBlank o = false -> truthy (Some (trim (interp o))) = true.
Proof.
  unfold isBlank. intros H. apply orb_false_elim in H. destruct H as [_ H].
  destruct (trim (interp o)); [discriminate H | reflexivity].
Qed.

Lemma profileRecord_shape (env : Env) (user profileId : string)
  (name avatar description : option string) :
  isBlank name = false -> isBlank description = false ->
  isProfileObject (profileRecord env user profileId name avatar description) = true.
Proof.
  intros Hn Hd. unfold isProfileObject, profileRecord. cbn [Item.name Item.description
    Item.categoryName Item.entry].
  rewrite (isBlank_false _ Hn), (isBlank_false _ Hd). reflexivity.
Qed.

(** X2: once the user's prefix lists five profile-shaped records, a
    profile creation is answered 400 "Maximum 5 profiles allowed", whatever
    the body holds; both stores stay as they were and no identifier is
    drawn. *)
Theorem createProfile_limit (env : Env) (name avatar description : option string)
  (w : World) (user : string) :
  authUser env = Some user ->
  (5 <= List.length (profilesOf user (kv w)))%nat ->
  createProfile env name avatar description w
  = ((400, ErrorBody "Maximum 5 profiles allowed"),
     logged (KvGetByPrefix (profilePrefix user)) w).
Proof.
  intros Hauth Hfull. unfold createProfile, tryCatch, bind, requireUser.
  rewrite Hauth. cbn [ret]. rewrite kvGetByPrefix_run.
  apply Nat.leb_le in Hfull. unfold profilesOf in Hfull. rewrite Hfull. reflexivity.
Qed.

Lemma createProfile_limit_witness :
  createProfile Sample.env (Some "Dora") None (Some "a friend") Sample2.fullWorld
  = ((400, ErrorBody "Maximum 5 profiles allowed"),
     logged (KvGetByPrefix (profilePrefix "u1")) Sample2.fullWorld).
Proof.
  apply (createProfile_limit Sample.env (Some "Dora") None (Some "a friend")
           Sample2.fullWorld "u1").
  - reflexivity.
  - vm_compute. repeat constructor.
Defined.

(** X3: with fewer than five profiles and a name and a description that are
    not blank, the creation answers 200 with the new profile, whose name
    and description are trimmed and whose identifier is the random one
    drawn; the record sits under the profile's key and the same fields are
    upserted into the [profiles] table.  When the key is new, the profile
    listing afterwards holds the new profile once and every profile listed
    before as often as before, in whatever order the store lists them. *)
Theorem createProfile_stores_profile (env : Env) (name avatar description : option string)
  (w : World) (user : string) :
  authUser env = Some user ->
  (List.length (profilesOf user (kv w)) < 5)%nat ->
  isBlank name = false ->
  isBlank description = false ->
  fst (createProfile env name avatar description w)
  = (200, ProfileBody (profileRecord env user (randomUUID env (uuidsDrawn w))
                                     name avatar description))
  /\ Kv.get (profileKey user (randomUUID env (uuidsDrawn w)))
            (kv (snd (createProfile env name avatar description w)))
     = Some (profileRecord env user (randomUUID env (uuidsDrawn w)) name avatar description)
  /\ profiles (snd (createProfile env name avatar description w))
     = Db.upsertProfile (profileRow env user (randomUUID env (uuidsDrawn w))
                                    name avatar description) (profiles w)
  /\ memory_items (snd (createProfile env name avatar description w)) = memory_items w
  /\ (~ In (profileKey user (randomUUID env (uuidsDrawn w))) (Kv.keys (kv w)) ->
      exists listed,
        fst (listProfiles env (snd (createProfile env name avatar description w)))
        = (200, ProfilesBody listed)
        /\ Permutation listed
             (profileRecord env user (randomUUID env (uuidsDrawn w)) name avatar description
              :: profilesOf user (kv w))).
Proof.
  intros Hauth Hlt Hn Hd.
  assert (Hrun : createProfile env name avatar description w
                 = ((200, ProfileBody (profileRecord env user (randomUUID env (uuidsDrawn w))
                                                     name avatar description)),
                    mkWorld (Kv.set (profileKey user (randomUUID env (uuidsDrawn w)))
                                    (profileRecord env user (randomUUID env (uuidsDrawn w))
                                                   name avatar description) (kv w))
                            (Db.upsertProfile
                               (profileRow env user (randomUUID env (uuidsDrawn w))
                                           name avatar description) (profiles w))
                            (memory_items w) (S (uuidsDrawn w))
                            (log w ++ [KvGetByPrefix (profilePrefix user);
                                       KvSet (profileKey user (randomUUID env (uuidsDrawn w)));
                                       DbUpsert "profiles" (randomUUID env (uuidsDrawn w))])%list)).
  { unfold createProfile, tryCatch, bind, requireUser. rewrite Hauth. cbn [ret].
    rewrite kvGetByPrefix_run. apply Nat.leb_gt in Hlt. unfold profilesOf in Hlt.
    rewrite Hlt, Hn, Hd. cbn. rewrite <- !app_assoc. reflexivity. }
  rewrite Hrun. cbn [fst snd kv profiles memory_items].
  split; [reflexivity | ].
  split; [apply kv_get_set_same | ].
  split; [reflexivity | ].
  split; [reflexivity | ].
  intros Hfresh.
  unfold listProfiles, tryCatch, bind, requireUser. rewrite Hauth. cbn [ret].
  rewrite kvGetByPrefix_run. cbn [fst kv].
  eexists. split; [reflexivity | ].
  rewrite kv_set_fresh by assumption. rewrite kv_getByPrefix_app, filter_app.
  fold (profilesOf user (kv w)).
  unfold Kv.getByPrefix. cbn [filter fst]. unfold profileKey. rewrite startsWith_app.
  cbn [map snd filter]. rewrite profileRecord_shape by assumption.
  symmetry. apply Permutation_cons_append.
Qed.

Lemma createProfile_stores_profile_witness :
  fst (createProfile Sample.env (Some "  Dad ") None (Some "my father") Sample.momWorld)
  = (200, ProfileBody (profileRecord Sample.env "u1" (Sample.uuid 0)
                                     (Some "  Dad ") None (Some "my father")))
  /\ Item.name (profileRecord Sample.env "u1" (Sample.uuid 0)
                              (Some "  Dad ") None (Some "my father")) = Some "Dad"
  /\ exists listed,
       fst (listProfiles Sample.env
              (snd (createProfile Sample.env (Some "  Dad ") None (Some "my father")
                                  Sample.momWorld)))
       = (200, ProfilesBody listed)
       /\ Permutation listed
            (profileRecord Sample.env "u1" (Sample.uuid 0)
                           (Some "  Dad ") None (Some "my father")
             :: profilesOf "u1" (kv Sample.momWorld)).
Proof.
  destruct (createProfile_stores_profile Sample.env (Some "  Dad ") None (Some "my father")
              Sample.momWorld "u1") as (H1 & _ & _ & _ & H5).
  - reflexivity.
  - vm_compute. repeat constructor.
  - reflexivity.
  - reflexivity.
  - split; [exact H1 | ]. split; [reflexivity | ].
    apply H5. vm_compute. intros H.
    repeat (destruct H as [H | H]; [discriminate H | ]). exact H.
Defined.

End CreateProfile.

(** ** What a submit writes *)

Section SubmitWrites.

Lemma landKv_in (l : list Write) (s : Kv.store) (k : string) (v : Item.t) :
  In (k, v) (landKv l s) -> In (k, v) s \/ In (WriteKv k v) l.
Proof.
  revert s. induction l as [ | wr l IH]; intros s H; cbn in H; [now left | ].
  destruct (IH _ H) as [Hs | Hl]; [ | right; now right].
  destruct wr as [k' v' | row]; [ | now left].
  assert (Hset : forall s0, In (k, v) (Kv.set k' v' s0) -> In (k, v) s0 \/ (k, v) = (k', v')).
  { clear. induction s0 as [ | [k0 v0] s0 IH]; cbn.
    - intros [E | []]. right. now symmetry.
    - destruct (String.eqb_spec k0 k') as [-> | N].
      + intros [E | H]; [right; now symmetry | left; now right].
      + intros [E | H]; [left; now left | ].
        destruct (IH H) as [H' | H']; [left; now right | now right]. }
  destruct (Hset _ Hs) as [H' | E]; [now left | ].
  injection E as -> ->. right. now left.
Qed.

Lemma landMemory_in (l : list Write) (t : list MemoryRow.t) (r : MemoryRow.t) :
  In r (landMemory l t) -> In r t \/ In (WriteMemory r) l.
Proof.
  revert t. induction l as [ | wr l IH]; intros t H; cbn in H; [now left | ].
  destruct (IH _ H) as [Ht | Hl]; [ | right; now right].
  destruct wr as [k' v' | row]; [now left | ].
  assert (Hup : forall t0, In r (Db.upsertMemory row t0) -> In r t0 \/ r = row).
  { clear. induction t0 as [ | r0 t0 IH]; cbn.
    - intros [E | []]. right. now symmetry.
    - destruct (String.eqb (MemoryRow.id r0) (MemoryRow.id row)).
      + intros [E | H]; [right; congruence | left; now right].
      + intros [E | H]; [left; now left | ].
        destruct (IH H) as [H' | H']; [left; now right | now right]. }
  destruct (Hup _ Ht) as [H' | ->]; [now left | ]. right. now left.
Qed.

(** The writes of the category branches carry category records. *)
Lemma in_categoryWrites_record (env : Env) (user profileId : string) (k : nat)
  (categories : list CategoryInput.t) (wr : Write) :
  In wr (List.concat (categoryWrites env user profileId k 0 categories)) ->
  exists c categoryId index,
    nth_error categories index = Some c
    /\ wr = WriteKv (categoryKey user profileId categoryId)
                    (categoryRecord env user profileId categoryId index c).
Proof.
  intros H. apply categoryWrites_nth in H. destruct H as (j & c & i & Hj & _ & E).
  now exists c, i, j.
Qed.

(** The writes of the note branches are the two writes of some note. *)
Lemma in_settledNotes_writes (env : Env) (user profileId : string) (pname : option string)
  (k : nat) (notes : list NoteInput.t) (wr : Write) :
  In wr (List.concat (fulfilled (settledNotes env user profileId pname k 0 notes))) ->
  exists n noteId index e,
    In n notes /\ embedResult env (textContent n) = inr e
    /\ In wr (noteWrites env user profileId pname n noteId index e).
Proof.
  intros H. apply settledNotes_nth in H. destruct H as (j & n & i & e & Hj & _ & He & Hw).
  exists n, i, j, e. split; [now apply nth_error_In in Hj | ]. split; assumption.
Qed.

(** Every key-value write of a submit targets a category key or a note key
    of the submitting user, with a category record or a note record. *)
Lemma submit_kv_writes (env : Env) (profileId : string)
  (categories : list CategoryInput.t) (notes : list NoteInput.t) (w : World) (user : string)
  (k : string) (v : Item.t) :
  authUser env = Some user ->
  (forall bs, Interleaves bs (schedule env bs)) ->
  In (k, v) (kv (snd (submit env profileId categories notes w))) ->
  In (k, v) (kv w)
  \/ (exists c i index, k = categoryKey user profileId i
                        /\ v = categoryRecord env user profileId i index c)
  \/ (exists n i e t t', k = noteKey user profileId i
                         /\ v = noteRecord user profileId i n e t t').
Proof.
  intros Hauth Hsched Hin.
  destruct (submit_run env profileId categories notes w user Hauth) as (events & Hrun).
  cbv zeta in Hrun. rewrite Hrun in Hin. cbn [snd kv] in Hin.
  apply landKv_in in Hin. destruct Hin as [H | H]; [now left | right].
  eapply Permutation_in in H; [ | symmetry; apply interleaves_perm, Hsched].
  rewrite concat_app in H. apply in_app_or in H. destruct H as [H | H].
  - left. apply in_categoryWrites_record in H. destruct H as (c & i & j & _ & E).
    injection E as -> ->. now exists c, i, j.
  - right. apply in_settledNotes_writes in H.
    destruct H as (n & i & j & e & _ & _ & [E | [E | []]]); [ | discriminate E].
    injection E as <- <-. repeat eexists.
Qed.

(** X4: a submit never makes a profile appear: whatever it is sent and
    whether or not it succeeds, every profile listed for any user
    afterwards was listed before.  The records it stores for categories
    (no [description]) and notes (no [name]) fail the shape test of the
    profile listing. *)
Theorem submit_adds_no_profile (env : Env) (profileId : string)
  (categories : list CategoryInput.t) (notes : list NoteInput.t) (w : World)
  (user anyUser : string) (x : Item.t) :
  authUser env = Some user ->
  (forall bs, Interleaves bs (schedule env bs)) ->
  In x (profilesOf anyUser (kv (snd (submit env profileId categories notes w)))) ->
  In x (profilesOf anyUser (kv w)).
Proof.
  intros Hauth Hsched Hin. unfold profilesOf in *.
  apply filter_In in Hin. destruct Hin as [Hin Hshape].
  apply kv_getByPrefix_in in Hin. destruct Hin as (k & Hin & Hpre).
  apply filter_In. split; [ | exact Hshape].
  apply kv_getByPrefix_in. exists k. split; [ | exact Hpre].
  destruct (submit_kv_writes env profileId categories notes w user k x Hauth Hsched Hin)
    as [H | [(c & i & j & _ & ->) | (n & i & e & t & t' & _ & ->)]]; [exact H | | ].
  - unfold isProfileObject, categoryRecord in Hshape. cbn in Hshape.
    rewrite andb_false_r in Hshape. discriminate Hshape.
  - discriminate Hshape.
Qed.

Lemma submit_adds_no_profile_witness :
  profilesOf "u1" (kv (snd (submit Sample.env "p1"
                                   [CategoryInput.mk None (Some "Dad") None]
                                   [Sample.unsaved] Sample.momWorld)))
  = [Sample.profile "p1" "Mom"]
  /\ forall x,
       In x (profilesOf "u1" (kv (snd (submit Sample.env "p1"
                                              [CategoryInput.mk None (Some "Dad") None]
                                              [Sample.unsaved] Sample.momWorld)))) ->
       In x (profilesOf "u1" (kv Sample.momWorld)).
Proof.
  split; [vm_compute; reflexivity | ].
  intros x. apply (submit_adds_no_profile Sample.env "p1"
                     [CategoryInput.mk None (Some "Dad") None] [Sample.unsaved]
                     Sample.momWorld "u1" "u1" x).
  - reflexivity.
  - intros bs. apply interleaves_concat.
Defined.

End SubmitWrites.

(** ** Deleting a note *)

Section DeleteNote.

Lemma kv_get_del_same (k : string) (s : Kv.store) : Kv.get k (Kv.del k s) = None.
Proof.
  apply kv_get_none. intros v H. unfold Kv.del in H. apply filter_In in H.
  destruct H as [_ H]. cbn [fst] in H. rewrite String.eqb_refl in H. discriminate H.
Qed.

Lemma kv_get_del_other (k k' : string) (s : Kv.store) :
  k <> k' -> Kv.get k (Kv.del k' s) = Kv.get k s.
Proof.
  intros N. induction s as [ | [k0 v0] s IH]; [reflexivity | ].
  unfold Kv.del in *. cbn [filter fst].
  destruct (String.eqb_spec k0 k') as [-> | N0]; cbn [negb Kv.get].
  - rewrite IH. destruct (String.eqb_spec k' k) as [E | _]; [now elim N | reflexivity].
  - now rewrite IH.
Qed.

Lemma kv_del_absent (k : string) (s : Kv.store) : Kv.get k s = None -> Kv.del k s = s.
Proof.
  induction s as [ | [k0 v0] s IH]; [reflexivity | ].
  unfold Kv.del in *. cbn [Kv.get filter fst].
  destruct (String.eqb k0 k); [discriminate | ].
  intros H. cbn [negb]. now rewrite IH.
Qed.

(** X5: deleting a note answers 200 and leaves no record under the note's
    key, while every other key keeps its record; the [memory_items] rows
    that remain are those not matching the user, the profile and the note
    identifier.  When no record sat under the key the key-value store is
    unchanged: deleting a note that was never saved is not an error. *)
Theorem deleteNote_removes_note (env : Env) (profileId noteId : string) (w : World)
  (user : string) :
  authUser env = Some user ->
  fst (deleteNote env profileId noteId w) = (200, SuccessBody)
  /\ Kv.get (noteKey user profileId noteId) (kv (snd (deleteNote env profileId noteId w)))
     = None
  /\ (forall k, k <> noteKey user profileId noteId ->
                Kv.get k (kv (snd (deleteNote env profileId noteId w))) = Kv.get k (kv w))
  /\ (forall r, In r (memory_items (snd (deleteNote env profileId noteId w)))
                <-> In r (memory_items w)
                    /\ ~ (MemoryRow.user_id r = user /\ MemoryRow.profile_id r = profileId
                          /\ MemoryRow.id r = noteId))
  /\ profiles (snd (deleteNote env profileId noteId w)) = profiles w
  /\ (Kv.get (noteKey user profileId noteId) (kv w) = None ->
      kv (snd (deleteNote env profileId noteId w)) = kv w).
Proof.
  intros Hauth.
  assert (Hrun : deleteNote env profileId noteId w
                 = ((200, SuccessBody),
                    mkWorld (Kv.del (noteKey user profileId noteId) (kv w)) (profiles w)
                            (Db.deleteMemoryItem user profileId noteId (memory_items w))
                            (uuidsDrawn w)
                            (log w ++ [KvDel (noteKey user profileId noteId);
                                       DbDelete "memory_items"])%list)).
  { unfold deleteNote, tryCatch, bind, requireUser. rewrite Hauth. cbn.
    rewrite <- !app_assoc. reflexivity. }
  rewrite Hrun. cbn [fst snd kv profiles memory_items].
  split; [reflexivity | ].
  split; [apply kv_get_del_same | ].
  split; [intros k Hk; now apply kv_get_del_other | ].
  split.
  { intros r. unfold Db.deleteMemoryItem. rewrite filter_In. rewrite negb_true_iff.
    split; intros [Hin H]; split; try exact Hin.
    - intros (Eu & Ep & Ei). rewrite Eu, Ep, Ei, !String.eqb_refl in H. discriminate H.
    - destruct (String.eqb_spec (MemoryRow.user_id r) user) as [Eu | _]; [ | reflexivity].
      destruct (String.eqb_spec (MemoryRow.profile_id r) profileId) as [Ep | _]; [ | reflexivity].
      destruct (String.eqb_spec (MemoryRow.id r) noteId) as [Ei | _]; [ | reflexivity].
      elim H. now repeat split. }
  split; [reflexivity | ].
  apply kv_del_absent.
Qed.

Lemma deleteNote_removes_note_witness :
  fst (deleteNote Sample.env "p1" "n2" Sample.momWorld) = (200, SuccessBody)
  /\ Kv.get (noteKey "u1" "p1" "n2") (kv (snd (deleteNote Sample.env "p1" "n2" Sample.momWorld)))
     = None
  /\ Kv.get (noteKey "u1" "p1" "n3") (kv (snd (deleteNote Sample.env "p1" "n2" Sample.momWorld)))
     = Kv.get (noteKey "u1" "p1" "n3") (kv Sample.momWorld)
  /\ kv (snd (deleteNote Sample.env "p1" "never-saved" Sample.momWorld)) = kv Sample.momWorld.
Proof.
  destruct (deleteNote_removes_note Sample.env "p1" "n2" Sample.momWorld "u1" eq_refl)
    as (H1 & H2 & H3 & _).
  destruct (deleteNote_removes_note Sample.env "p1" "never-saved" Sample.momWorld "u1" eq_refl)
    as (_ & _ & _ & _ & _ & H6).
  split; [exact H1 | ]. split; [exact H2 | ].
  split; [apply H3; discriminate | ].
  apply H6. reflexivity.
Defined.

End DeleteNote.

(** ** More on the search handler *)

Section SearchMore.

Lemma in_firstn {A : Type} (k : nat) (l : list A) (x : A) : In x (firstn k l) -> In x l.
Proof. intros H. rewrite <- (firstn_skipn k l). apply in_or_app. now left. Qed.

(** X6: a successful search reports the number of all candidates as
    [totalNotesSearched] and returns at most ten notes, each built from a
    different candidate: a record stored under the searched prefix that
    has an [entry].  This holds for every store content, also when some
    similarity is not a number. *)
Theorem search_results_from_candidates (env : Env)
  (query profileId profileName : option string)
  (w : World) (user : string) (resolved : option string) (q : list float) :
  authUser env = Some user ->
  truthy query = true ->
  fst (resolveProfile user profileId profileName w) = Value resolved ->
  embedsTo env (interp query) q ->
  candidateNotes user resolved (kv w) <> [] ->
  exists ranking,
    Permutation ranking (candidateNotes user resolved (kv w))
    /\ fst (searchGifts env query profileId profileName w)
       = (200, SearchBody (interp query)
                 (match resolved with Some p => p | None => "all-profiles" end)
                 (List.length (candidateNotes user resolved (kv w)))
                 (map (fun n => relevant env (score q n)) (firstn 10 ranking))
                 searchMessage)
    /\ (List.length (firstn 10 ranking) <= 10)%nat
    /\ forall n, In n ranking ->
                 hasEntry n = true
                 /\ exists k, In (k, n) (kv w)
                              /\ startsWith k (searchPrefix user resolved) = true.
Proof.
  intros Hauth Hq Hres Hemb Hne.
  set (notes := candidateNotes user resolved (kv w)) in *.
  exists (map note (sortBy bySimilarityDesc (map (score q) notes))).
  assert (Hnote : forall l, map note (map (score q) l) = l).
  { intros l. rewrite map_map. cbn. apply map_id. }
  split.
  { rewrite <- (Hnote notes) at 2. apply Permutation_map, sortBy_perm. }
  split.
  { rewrite (searchGifts_response env query profileId profileName w user resolved q)
      by assumption.
    fold notes. cbv zeta. destruct notes as [ | n0 notes'] eqn:E; [congruence | ].
    cbn [List.length Nat.eqb]. unfold json, scoredNotes, slice0. do 3 f_equal.
    rewrite firstn_map, map_map. apply map_ext_in.
    intros s Hs. apply in_firstn in Hs.
    eapply Permutation_in in Hs; [ | apply sortBy_perm].
    apply in_map_iff in Hs. destruct Hs as (n & <- & _). reflexivity. }
  split; [apply firstn_le_length | ].
  intros n Hn.
  assert (Hin : In n notes).
  { rewrite <- (Hnote notes). eapply Permutation_in; [ | exact Hn].
    apply Permutation_map, sortBy_perm. }
  unfold notes, candidateNotes in Hin. apply filter_In in Hin.
  destruct Hin as [Hin Hentry]. split; [exact Hentry | ].
  now apply kv_getByPrefix_in.
Qed.

Lemma search_results_from_candidates_witness :
  exists ranking,
    Permutation ranking (candidateNotes "u1" None (kv Sample.momWorld))
    /\ fst (searchGifts Sample.env (Some "gardening") None None Sample.momWorld)
       = (200, SearchBody "gardening" "all-profiles"
                 (List.length (candidateNotes "u1" None (kv Sample.momWorld)))
                 (map (fun n => relevant Sample.env (score [1%float; 0%float] n))
                      (firstn 10 ranking))
                 searchMessage)
    /\ (List.length (firstn 10 ranking) <= 10)%nat
    /\ forall n, In n ranking ->
                 hasEntry n = true
                 /\ exists k, In (k, n) (kv Sample.momWorld)
                              /\ startsWith k (searchPrefix "u1" None) = true.
Proof.
  apply (search_results_from_candidates Sample.env (Some "gardening") None None
           Sample.momWorld "u1" None [1%float; 0%float]).
  - reflexivity.
  - reflexivity.
  - reflexivity.
  - intros w. reflexivity.
  - vm_compute. discriminate.
Defined.

(** X7: while the embedding model is not configured, a search that is
    authenticated, carries a query and resolves its profile is answered
    500 "Failed to search for gifts", for a blank query too: the check for
    the model comes before the zero-vector branch.  The stores are not
    changed. *)
Theorem search_without_model (env : Env) (query profileId profileName : option string)
  (w : World) (user : string) (resolved : option string) :
  embeddingModel env = None ->
  authUser env = Some user ->
  truthy query = true ->
  fst (resolveProfile user profileId profileName w) = Value resolved ->
  fst (searchGifts env query profileId profileName w)
  = (500, ErrorBody "Failed to search for gifts")
  /\ sameStores w (snd (searchGifts env query profileId profileName w)).
Proof.
  intros Hm Hauth Hq Hres.
  apply (searchGifts_embed_failure env query profileId profileName w user resolved
           "Gemini embedding model is not initialized."); try assumption.
  unfold embedResult. now rewrite Hm.
Qed.

Lemma search_without_model_witness :
  fst (searchGifts Sample2.noModel (Some "   ") (Some "p1") None Sample.momWorld)
  = (500, ErrorBody "Failed to search for gifts")
  /\ sameStores Sample.momWorld
       (snd (searchGifts Sample2.noModel (Some "   ") (Some "p1") None Sample.momWorld)).
Proof.
  apply (search_without_model Sample2.noModel (Some "   ") (Some "p1") None Sample.momWorld
           "u1" (Some "p1")); reflexivity.
Defined.

(** X8: a search that names a profile gives the answer of the search that
    carries the identifier the name resolves to. *)
Theorem search_by_name_as_by_id (env : Env) (query profileName anyName : option string)
  (w : World) (user : string) (p : string) :
  authUser env = Some user ->
  fst (resolveProfile user None profileName w) = Value (Some p) ->
  p <> "" ->
  fst (searchGifts env query None profileName w)
  = fst (searchGifts env query (Some p) anyName w).
Proof.
  intros Hauth Hres Hp.
  assert (Hid : truthy (Some p) = true) by (destruct p; [congruence | reflexivity]).
  assert (Hres' : fst (resolveProfile user (Some p) anyName w) = Value (Some p))
    by now rewrite resolveProfile_explicit.
  destruct (truthy query) eqn:Hq.
  - destruct (embedResult env (interp query)) as [m | q] eqn:He.
    + destruct (searchGifts_embed_failure env query None profileName w user (Some p) m
                  Hauth Hq Hres He) as [-> _].
      destruct (searchGifts_embed_failure env query (Some p) anyName w user (Some p) m
                  Hauth Hq Hres' He) as [-> _].
      reflexivity.
    + rewrite (searchGifts_response env query None profileName w user (Some p) q);
        try assumption; [ | now apply embedsTo_result].
      rewrite (searchGifts_response env query (Some p) anyName w user (Some p) q);
        try assumption; [reflexivity | now apply embedsTo_result].
  - unfold searchGifts, tryCatch, bind, requireUser. rewrite Hauth. cbn [ret].
    rewrite Hq. reflexivity.
Qed.

Lemma search_by_name_as_by_id_witness :
  fst (searchGifts Sample.env (Some "gardening") None (Some " mom ") Sample.momWorld)
  = fst (searchGifts Sample.env (Some "gardening") (Some "p1") None Sample.momWorld).
Proof.
  apply (search_by_name_as_by_id Sample.env (Some "gardening") (Some " mom ") None
           Sample.momWorld "u1" "p1").
  - reflexivity.
  - vm_compute. reflexivity.
  - discriminate.
Defined.

End SearchMore.

(** ** More on the submit handler *)

Ltac distinct_literals :=
  vm_compute;
  repeat (constructor;
          [ let H := fresh in
            intros H; cbn in H;
            repeat (destruct H as [H | H]; [discriminate H | ]); exact H
          | ]);
  try constructor.

Section SubmitMore.

Lemma landMemory_no_rows (l : list Write) (t : list MemoryRow.t) :
  (forall r, ~ In (WriteMemory r) l) -> landMemory l t = t.
Proof.
  revert t. induction l as [ | [k v | row] l IH]; intros t H; cbn; [reflexivity | | ].
  - apply IH. intros r Hr. apply (H r). now right.
  - elim (H row). now left.
Qed.

Lemma settledNotes_all_rejected (env : Env) (user profileId : string) (pname : option string)
  (k i : nat) (notes : list NoteInput.t) (message : string) :
  (forall text, embedResult env text = inl message) ->
  fulfilled (settledNotes env user profileId pname k i notes) = []
  /\ (notes <> [] ->
      firstRejection (settledNotes env user profileId pname k i notes) = Some message).
Proof.
  intros H. revert k i. induction notes as [ | n rest IH]; intros k i.
  - split; [reflexivity | congruence].
  - cbn [settledNotes]. rewrite H. cbn [fulfilled firstRejection].
    split; [apply IH | reflexivity].
Qed.

(** X9: while the embedding model is not configured, a submit that carries
    at least one note is answered 500 with the message "Gemini embedding
    model is not initialized."; no note reaches either store: the
    [memory_items] table is unchanged and the only records added to the
    key-value store are category records under category keys. *)
Theorem submit_without_model (env : Env) (profileId : string)
  (categories : list CategoryInput.t) (notes : list NoteInput.t) (w : World) (user : string) :
  embeddingModel env = None ->
  authUser env = Some user ->
  (forall bs, Interleaves bs (schedule env bs)) ->
  notes <> [] ->
  fst (submit env profileId categories notes w)
  = (500, ErrorBody "Gemini embedding model is not initialized.")
  /\ memory_items (snd (submit env profileId categories notes w)) = memory_items w
  /\ forall k v, In (k, v) (kv (snd (submit env profileId categories notes w))) ->
                 In (k, v) (kv w)
                 \/ exists c i index,
                      nth_error categories index = Some c
                      /\ k = categoryKey user profileId i
                      /\ v = categoryRecord env user profileId i index c.
Proof.
  intros Hm Hauth Hsched Hne.
  destruct (submit_run env profileId categories notes w user Hauth) as (events & Hrun).
  cbv zeta in Hrun. rewrite Hrun. clear Hrun. cbn [fst snd kv memory_items].
  assert (Hrej : forall text, embedResult env text
                              = inl "Gemini embedding model is not initialized.")
    by (intros text; unfold embedResult; now rewrite Hm).
  match goal with |- context [settledNotes env user profileId ?pn ?k 0 notes] =>
    destruct (settledNotes_all_rejected env user profileId pn k 0 notes _ Hrej) as [Hf Hr] end.
  rewrite Hf, (Hr Hne), app_nil_r.
  set (cats := categoryWrites env user profileId (uuidsDrawn w) 0 categories).
  assert (Hlanded : forall wr, In wr (schedule env cats) -> In wr (List.concat cats)).
  { intros wr H. eapply Permutation_in; [symmetry; apply interleaves_perm, Hsched | exact H]. }
  split; [reflexivity | ].
  split.
  - apply landMemory_no_rows. intros r Hr'. apply Hlanded in Hr'.
    apply in_categoryWrites_record in Hr'. destruct Hr' as (c & i & j & _ & E). discriminate E.
  - intros k v Hin. apply landKv_in in Hin. destruct Hin as [H | H]; [now left | right].
    apply Hlanded in H. apply in_categoryWrites_record in H.
    destruct H as (c & i & j & Hc & E). injection E as -> ->. now exists c, i, j.
Qed.

Lemma submit_without_model_witness :
  fst (submit Sample2.noModel "p1" [] [Sample.unsaved] Sample.momWorld)
  = (500, ErrorBody "Gemini embedding model is not initialized.")
  /\ memory_items (snd (submit Sample2.noModel "p1" [] [Sample.unsaved] Sample.momWorld))
     = memory_items Sample.momWorld
  /\ kv (snd (submit Sample2.noModel "p1" [] [Sample.unsaved] Sample.momWorld))
     = kv Sample.momWorld.
Proof.
  destruct (submit_without_model Sample2.noModel "p1" [] [Sample.unsaved] Sample.momWorld "u1")
    as (H1 & H2 & _).
  - reflexivity.
  - reflexivity.
  - intros bs. apply interleaves_concat.
  - discriminate.
  - split; [exact H1 | ]. split; [exact H2 | reflexivity].
Defined.

(** X10: after a submit that succeeded, every category of the submit whose
    identifier no other category of the submit shares sits under its
    category key with the identifier and the name it was sent with, and is
    among the categories [listCategories] returns; a category sent without
    an [id] gets a random one.  The other categories of the submit may
    share identifiers among themselves. *)
Theorem submit_stores_categories (env : Env) (profileId : string)
  (categories : list CategoryInput.t) (notes : list NoteInput.t) (w : World) (user : string) :
  authUser env = Some user ->
  (forall bs, Interleaves bs (schedule env bs)) ->
  Forall (fun n => exists e, embedResult env (textContent n) = inr e) notes ->
  fst (submit env profileId categories notes w)
  = (200, SubmitBody "Notes and categories saved with vector embeddings")
  /\ List.length (assignIds env (uuidsDrawn w) (map CategoryInput.id categories))
     = List.length categories
  /\ forall j c categoryId,
       nth_error categories j = Some c ->
       nth_error (assignIds env (uuidsDrawn w) (map CategoryInput.id categories)) j
       = Some categoryId ->
       (forall i, nth_error (assignIds env (uuidsDrawn w) (map CategoryInput.id categories)) i
                  = Some categoryId -> i = j) ->
       (truthy (CategoryInput.id c) = true -> categoryId = interp (CategoryInput.id c))
       /\ (truthy (CategoryInput.id c) = false -> exists m, categoryId = randomUUID env m)
       /\ Kv.get (categoryKey user profileId categoryId)
                 (kv (snd (submit env profileId categories notes w)))
          = Some (categoryRecord env user profileId categoryId j c)
       /\ Item.id (categoryRecord env user profileId categoryId j c) = Some categoryId
       /\ Item.name (categoryRecord env user profileId categoryId j c) = CategoryInput.name c
       /\ exists listed,
            fst (listCategories env profileId (snd (submit env profileId categories notes w)))
            = (200, CategoriesBody listed)
            /\ In (categoryRecord env user profileId categoryId j c) listed.
Proof.
  intros Hauth Hsched Hemb.
  destruct (submit_run env profileId categories notes w user Hauth) as (events & Hrun).
  cbv zeta in Hrun. rewrite Hrun. clear Hrun. cbn [fst snd kv].
  match goal with |- context [settledNotes env user profileId ?pn ?k 0 notes] =>
    pose proof (proj2 (settledNotes_no_rejection env user profileId pn k 0 notes) Hemb)
      as Hrej;
    set (settled := settledNotes env user profileId pn k 0 notes) in * end.
  rewrite Hrej.
  set (cats := categoryWrites env user profileId (uuidsDrawn w) 0 categories).
  set (landed := schedule env (cats ++ fulfilled settled)%list).
  pose proof (fun wr => submit_landed env cats settled wr Hsched) as Hlanded.
  fold landed in Hlanded.
  split; [reflexivity | ].
  split; [now rewrite assignIds_length, length_map | ].
  intros j c categoryId Hj Hid Huniq.
  assert (Hjid : nth_error (map CategoryInput.id categories) j = Some (CategoryInput.id c))
    by (rewrite nth_error_map, Hj; reflexivity).
  destruct (assignIds_nth env (uuidsDrawn w) _ j _ categoryId Hjid Hid) as [Hgiven Hfresh].
  split; [exact Hgiven | ].
  split; [intros Hc; destruct (Hfresh Hc) as (m & _ & ->); now exists m | ].
  assert (Hget : Kv.get (categoryKey user profileId categoryId) (landKv landed (kv w))
                 = Some (categoryRecord env user profileId categoryId j c)).
  { destruct (landKv_get_written (categoryKey user profileId categoryId) landed (kv w))
      as (v & Hv & Hget).
    { eexists. apply Hlanded. left. apply categoryWrites_nth.
      exists j, c, categoryId. repeat split; assumption. }
    rewrite Hget. f_equal.
    apply Hlanded in Hv. destruct Hv as [Hc | Hs].
    - apply categoryWrites_nth in Hc. destruct Hc as (j' & c' & i' & Hj' & Hid' & E).
      change (0 + j')%nat with j' in E.
      assert (Ek : categoryKey user profileId categoryId = categoryKey user profileId i')
        by congruence.
      apply categoryKey_inj in Ek. subst i'.
      assert (j' = j) by now apply Huniq. subst j'.
      assert (c' = c) by congruence. subst c'. congruence.
    - apply settledNotes_nth in Hs.
      destruct Hs as (j' & n' & i' & e' & _ & _ & _ & [E | [E | []]]); [ | discriminate E].
      assert (Ek : noteKey user profileId i' = categoryKey user profileId categoryId)
        by congruence.
      now apply noteKey_not_categoryKey in Ek. }
  split; [exact Hget | ].
  split; [reflexivity | ].
  split; [reflexivity | ].
  eexists. split; [apply (listCategories_run env profileId _ user Hauth) | ].
  cbn [kv]. apply kv_getByPrefix_in. exists (categoryKey user profileId categoryId).
  split; [now apply kv_get_in | apply categoryKey_startsWith].
Qed.

Lemma submit_stores_categories_witness :
  fst (submit Sample.env "p1"
         [CategoryInput.mk None (Some "Music") None;
          CategoryInput.mk (Some "c7") (Some "Films") None;
          CategoryInput.mk (Some "c7") (Some "Books") None] [] Sample.momWorld)
  = (200, SubmitBody "Notes and categories saved with vector embeddings")
  /\ Kv.get (categoryKey "u1" "p1" (Sample.uuid 0))
            (kv (snd (submit Sample.env "p1"
                        [CategoryInput.mk None (Some "Music") None;
                         CategoryInput.mk (Some "c7") (Some "Films") None;
                         CategoryInput.mk (Some "c7") (Some "Books") None] []
                        Sample.momWorld)))
     = Some (categoryRecord Sample.env "u1" "p1" (Sample.uuid 0) 0
                            (CategoryInput.mk None (Some "Music") None)).
Proof.
  destruct (submit_stores_categories Sample.env "p1"
              [CategoryInput.mk None (Some "Music") None;
               CategoryInput.mk (Some "c7") (Some "Films") None;
               CategoryInput.mk (Some "c7") (Some "Books") None] [] Sample.momWorld "u1")
    as (H1 & _ & H2).
  - reflexivity.
  - intros bs. apply interleaves_concat.
  - constructor.
  - split; [exact H1 | ].
    destruct (H2 0%nat (CategoryInput.mk None (Some "Music") None) (Sample.uuid 0))
      as (_ & _ & H & _).
    + reflexivity.
    + reflexivity.
    + intros [ | [ | [ | i]]] Hi; [reflexivity | | | destruct i]; vm_compute in Hi;
        discriminate Hi.
    + exact H.
Defined.

End SubmitMore.

(** ** One user's writes and another user's reads *)

Section Isolation.

Local Open Scope string_scope.

(** A colon-free identifier followed by a colon is a prefix of another
    such only when the identifiers are equal. *)
Lemma prefix_colonFree (a b x y : string) :
  colonFree a = true -> colonFree b = true ->
  String.prefix (a ++ String ":" x) (b ++ String ":" y) = true -> a = b.
Proof.
  revert b. induction a as [ | c a IH]; intros [ | d b] Ha Hb H;
    cbn [append String.prefix colonFree] in *.
  - reflexivity.
  - apply andb_prop in Hb. destruct Hb as [Hd _].
    destruct (ascii_dec ":" d) as [E | _]; [ | discriminate H].
    subst d. vm_compute in Hd. discriminate Hd.
  - apply andb_prop in Ha. destruct Ha as [Hc _].
    destruct (ascii_dec c ":") as [E | _]; [ | discriminate H].
    subst c. vm_compute in Hc. discriminate Hc.
  - apply andb_prop in Ha, Hb. destruct Ha as [_ Ha]. destruct Hb as [_ Hb].
    destruct (ascii_dec c d) as [-> | _]; [ | discriminate H].
    f_equal. now apply IH.
Qed.

Lemma prefix_app_inv (p s s' : string) :
  String.prefix (p ++ s) (p ++ s') = String.prefix s s'.
Proof.
  induction p as [ | c p IH]; cbn; [reflexivity | ].
  destruct (ascii_dec c c) as [_ | N]; [exact IH | now elim N].
Qed.

(** No key under one user's prefix starts with a prefix of another user. *)
Lemma other_user_prefix (u1 u2 x y : string) :
  colonFree u1 = true -> colonFree u2 = true -> u1 <> u2 ->
  startsWith (profilePrefix u2 ++ y) (profilePrefix u1 ++ x) = false.
Proof.
  intros H1 H2 N. unfold startsWith, profilePrefix.
  destruct (String.prefix _ _) eqn:E; [ | reflexivity].
  exfalso. apply N.
  rewrite !string_app_assoc in E. rewrite prefix_app_inv in E.
  cbn [append] in E.
  exact (prefix_colonFree u1 u2 _ _ H1 H2 E).
Qed.

Lemma kv_getByPrefix_set_other (prefix k : string) (v : Item.t) (s : Kv.store) :
  startsWith k prefix = false ->
  Kv.getByPrefix prefix (Kv.set k v s) = Kv.getByPrefix prefix s.
Proof.
  intros H. unfold Kv.getByPrefix. induction s as [ | [k0 v0] s IH]; cbn [Kv.set filter fst].
  - rewrite H. reflexivity.
  - destruct (String.eqb_spec k0 k) as [-> | N]; cbn [filter fst].
    + rewrite H. reflexivity.
    + destruct (startsWith k0 prefix); cbn [map]; now rewrite IH.
Qed.

Lemma landKv_getByPrefix (prefix : string) (l : list Write) (s : Kv.store) :
  (forall k v, In (WriteKv k v) l -> startsWith k prefix = false) ->
  Kv.getByPrefix prefix (landKv l s) = Kv.getByPrefix prefix s.
Proof.
  unfold landKv. revert s.
  induction l as [ | [k v | row] l IH]; intros s H; cbn [fold_left]; [reflexivity | | ].
  - rewrite IH by (intros k' v' Hin; apply (H k' v'); now right).
    apply kv_getByPrefix_set_other. apply (H k v). now left.
  - apply IH. intros k' v' Hin. apply (H k' v'). now right.
Qed.

(** X11: with user identifiers free of colons, a submit by one user leaves
    what every other user reads from the key-value store as it was: the
    other user's profile, category and note listings and the candidates of
    the other user's searches are unchanged. *)
Theorem submit_leaves_other_users (env : Env) (profileId : string)
  (categories : list CategoryInput.t) (notes : list NoteInput.t) (w : World)
  (user other : string) :
  authUser env = Some user ->
  (forall bs, Interleaves bs (schedule env bs)) ->
  colonFree user = true -> colonFree other = true -> other <> user ->
  forall reader : Env,
    authUser reader = Some other ->
    fst (listProfiles reader (snd (submit env profileId categories notes w)))
    = fst (listProfiles reader w)
    /\ (forall p, fst (listNotes reader p (snd (submit env profileId categories notes w)))
                  = fst (listNotes reader p w))
    /\ (forall p, fst (listCategories reader p (snd (submit env profileId categories notes w)))
                  = fst (listCategories reader p w))
    /\ (forall resolved,
          candidateNotes other resolved (kv (snd (submit env profileId categories notes w)))
          = candidateNotes other resolved (kv w)).
Proof.
  intros Hauth Hsched Hu Ho Hne reader Hreader.
  assert (Hsame : forall x,
             Kv.getByPrefix (profilePrefix other ++ x)
                            (kv (snd (submit env profileId categories notes w)))
             = Kv.getByPrefix (profilePrefix other ++ x) (kv w)).
  { intros x.
    destruct (submit_run env profileId categories notes w user Hauth) as (events & Hrun).
    cbv zeta in Hrun. rewrite Hrun. clear Hrun. cbn [snd kv].
    apply landKv_getByPrefix. intros k v Hin.
    eapply Permutation_in in Hin; [ | symmetry; apply interleaves_perm, Hsched].
    rewrite concat_app in Hin. apply in_app_or in Hin. destruct Hin as [H | H].
    - apply in_categoryWrites_record in H. destruct H as (c & i & j & _ & E).
      injection E as -> _. unfold categoryKey, categoryPrefix, profileKey.
      rewrite !string_app_assoc. now apply other_user_prefix.
    - apply in_settledNotes_writes in H.
      destruct H as (n & i & j & e & _ & _ & [E | [E | []]]); [ | discriminate E].
      injection E as <- _. unfold noteKey, notePrefix, profileKey.
      rewrite !string_app_assoc. now apply other_user_prefix. }
  assert (Hnil : forall s, s ++ "" = s).
  { induction s as [ | c s IH]; cbn; [reflexivity | now rewrite IH]. }
  split.
  { unfold listProfiles, tryCatch, bind, requireUser. rewrite Hreader. cbn [ret].
    rewrite !kvGetByPrefix_run. cbn [fst].
    rewrite <- (Hnil (profilePrefix other)). now rewrite Hsame. }
  split.
  { intros p. rewrite !(listNotes_run reader p _ other Hreader).
    unfold notePrefix, profileKey. rewrite !string_app_assoc. now rewrite Hsame. }
  split.
  { intros p. rewrite !(listCategories_run reader p _ other Hreader).
    unfold categoryPrefix, profileKey. rewrite !string_app_assoc. now rewrite Hsame. }
  intros resolved. unfold candidateNotes, searchPrefix.
  destruct (truthy resolved).
  - unfold notePrefix, profileKey. rewrite !string_app_assoc. now rewrite Hsame.
  - rewrite <- (Hnil (profilePrefix other)). now rewrite Hsame.
Qed.

Lemma submit_leaves_other_users_witness :
  fst (listNotes Sample.env "p1"
         (snd (submit Sample2.other "p1" [] [Sample.resubmitted] Sample.momWorld)))
  = fst (listNotes Sample.env "p1" Sample.momWorld)
  /\ fst (listProfiles Sample.env
            (snd (submit Sample2.other "p1" [] [Sample.resubmitted] Sample.momWorld)))
     = fst (listProfiles Sample.env Sample.momWorld).
Proof.
  destruct (submit_leaves_other_users Sample2.other "p1" [] [Sample.resubmitted]
              Sample.momWorld "u2" "u1") with (reader := Sample.env)
    as (H1 & H2 & _).
  - reflexivity.
  - intros bs. apply interleaves_concat.
  - reflexivity.
  - reflexivity.
  - discriminate.
  - reflexivity.
  - split; [apply H2 | exact H1].
Defined.

End Isolation.

(** ** Symmetry of the similarity, and the page's own copy of it *)

Section CosineMore.

Local Open Scope float_scope.

Lemma SFmul_comm (x y : spec_float) : SFmul prec emax x y = SFmul prec emax y x.
Proof.
  destruct x as [sx | sx | | sx mx ex]; destruct y as [sy | sy | | sy my ey];
    cbn [SFmul]; rewrite ?(xorb_comm sx sy); try reflexivity.
  now rewrite Pos.mul_comm, Z.add_comm.
Qed.

Lemma float_mul_comm (a b : float) : a * b = b * a.
Proof. apply Prim2SF_inj. rewrite !mul_spec. apply SFmul_comm. Qed.

Lemma sumLoop_swap (vecA vecB : list float) (d ma mb : float) :
  sumLoop vecB vecA (mkSums d mb ma)
  = mkSums (dotProduct (sumLoop vecA vecB (mkSums d ma mb)))
           (magB (sumLoop vecA vecB (mkSums d ma mb)))
           (magA (sumLoop vecA vecB (mkSums d ma mb))).
Proof.
  revert vecB d ma mb. induction vecA as [ | a vecA IH]; intros [ | b vecB] d ma mb;
    try reflexivity.
  cbn [sumLoop]. unfold accumulate. cbn [dotProduct magA magB].
  rewrite (float_mul_comm b a). apply IH.
Qed.

Lemma page_cosine_agrees (vecA vecB : list float) :
  VisualizePage.cosineSimilarity vecA vecB = cosineSimilarity vecA vecB.
Proof.
  unfold VisualizePage.cosineSimilarity, cosineSimilarity.
  destruct vecA as [ | x a]; destruct vecB as [ | y b]; reflexivity.
Qed.

Lemma cosine_swap (vecA vecB : list float) :
  cosineSimilarity vecA vecB = cosineSimilarity vecB vecA.
Proof.
  unfold cosineSimilarity.
  rewrite (orb_comm (List.length vecB =? 0)%nat),
    (Nat.eqb_sym (List.length vecB) (List.length vecA)).
  destruct ((List.length vecA =? 0)%nat || (List.length vecB =? 0)%nat); [reflexivity | ].
  destruct (negb (List.length vecA =? List.length vecB)%nat); [reflexivity | ].
  rewrite (sumLoop_swap vecA vecB 0 0 0). cbn [dotProduct magA magB].
  rewrite (orb_comm (sqrt (magB _) =? 0)), (float_mul_comm (sqrt (magB _))). reflexivity.
Qed.

(** X12: [cosineSimilarity] is symmetric in its two vectors, to the last
    bit: the products are commutative and the sums are taken in the same
    order. *)
Theorem cosineSimilarity_symmetric (vecA vecB : list float) :
  cosineSimilarity vecA vecB = cosineSimilarity vecB vecA.
Proof. apply cosine_swap. Qed.

(** X13: the page's [cosineSimilarity] returns, for every pair of vectors,
    the number the server's returns; so a cell of the similarity matrix is
    the similarity the search would give the second note for a query
    embedded as the first, and 0 when either note has no embedding. *)
Theorem page_similarity_is_server_similarity (vecA vecB : list float) :
  VisualizePage.cosineSimilarity vecA vecB = cosineSimilarity vecA vecB
  /\ (forall note1 note2 e1,
        Item.embedding note1 = Some e1 ->
        VisualizePage.cell note1 note2 = similarity (score e1 note2))
  /\ (forall note1 note2,
        Item.embedding note1 = None \/ Item.embedding note2 = None ->
        VisualizePage.cell note1 note2 = 0).
Proof.
  pose proof page_cosine_agrees as H.
  split; [apply H | ]. split.
  - intros note1 note2 e1 E. unfold VisualizePage.cell, score, embeddingOf. rewrite E.
    cbn [similarity]. destruct (Item.embedding note2) as [e2 | ]; [apply H | ].
    now rewrite cosineSimilarity_nil_r.
  - intros note1 note2 [E | E]; unfold VisualizePage.cell; rewrite E; [reflexivity | ].
    destruct (Item.embedding note1); reflexivity.
Qed.

Lemma cell_symmetric (note1 note2 : Item.t) :
  VisualizePage.cell note1 note2 = VisualizePage.cell note2 note1.
Proof.
  unfold VisualizePage.cell.
  destruct (Item.embedding note1) as [e1 | ]; destruct (Item.embedding note2) as [e2 | ];
    try reflexivity.
  rewrite !page_cosine_agrees. apply cosine_swap.
Qed.

End CosineMore.

(** ** The visualisation page *)

Section Visualize.

Local Open Scope float_scope.

Lemma matrix_row (notes : list Item.t) (i : nat) (n : Item.t) :
  nth_error notes i = Some n ->
  nth i (VisualizePage.calculateSimilarityMatrix notes) []
  = map (fun note2 => VisualizePage.cell n note2) notes.
Proof.
  intros H. unfold VisualizePage.calculateSimilarityMatrix.
  apply nth_error_nth. rewrite nth_error_map, H. reflexivity.
Qed.

Lemma matrix_row_out (notes : list Item.t) (i : nat) :
  nth_error notes i = None ->
  nth i (VisualizePage.calculateSimilarityMatrix notes) [] = [].
Proof.
  intros H. apply nth_overflow. unfold VisualizePage.calculateSimilarityMatrix.
  rewrite length_map. now apply nth_error_None.
Qed.

Lemma matrix_entry (notes : list Item.t) (i j : nat) :
  nth j (nth i (VisualizePage.calculateSimilarityMatrix notes) []) 0
  = match nth_error notes i, nth_error notes j with
    | Some n1, Some n2 => VisualizePage.cell n1 n2
    | _, _ => 0
    end.
Proof.
  destruct (nth_error notes i) as [n1 | ] eqn:Hi.
  - rewrite (matrix_row notes i n1 Hi).
    destruct (nth_error notes j) as [n2 | ] eqn:Hj.
    + apply nth_error_nth. rewrite nth_error_map, Hj. reflexivity.
    + apply nth_overflow. rewrite length_map. now apply nth_error_None.
  - rewrite (matrix_row_out notes i Hi). destruct j; reflexivity.
Qed.

(** X14: the similarity matrix of the page has one row per note and one
    cell per note in every row, is symmetric, and the cell of row [i] and
    column [j] is the similarity of the embeddings of notes [i] and [j]. *)
Theorem similarityMatrix_square_symmetric (notes : list Item.t) :
  List.length (VisualizePage.similarityMatrix notes) = List.length notes
  /\ Forall (fun row => List.length row = List.length notes)
            (VisualizePage.similarityMatrix notes)
  /\ (forall i j,
        nth j (nth i (VisualizePage.similarityMatrix notes) []) 0
        = nth i (nth j (VisualizePage.similarityMatrix notes) []) 0)
  /\ (forall i j n1 n2 e1 e2,
        nth_error notes i = Some n1 -> nth_error notes j = Some n2 ->
        Item.embedding n1 = Some e1 -> Item.embedding n2 = Some e2 ->
        nth j (nth i (VisualizePage.similarityMatrix notes) []) 0
        = cosineSimilarity e1 e2).
Proof.
  assert (E : VisualizePage.similarityMatrix notes
              = VisualizePage.calculateSimilarityMatrix notes).
  { unfold VisualizePage.similarityMatrix. destruct notes; reflexivity. }
  rewrite E. clear E.
  split; [unfold VisualizePage.calculateSimilarityMatrix; apply length_map | ].
  split.
  { unfold VisualizePage.calculateSimilarityMatrix. apply Forall_forall.
    intros row H. apply in_map_iff in H. destruct H as (n & <- & _). apply length_map. }
  split.
  { intros i j. rewrite !matrix_entry.
    destruct (nth_error notes i) as [n1 | ]; destruct (nth_error notes j) as [n2 | ];
      try reflexivity.
    apply cell_symmetric. }
  intros i j n1 n2 e1 e2 Hi Hj H1 H2. rewrite matrix_entry, Hi, Hj.
  unfold VisualizePage.cell. rewrite H1, H2. apply page_cosine_agrees.
Qed.

Local Close Scope float_scope.

Lemma succ_mod (i step : nat) :
  (0 < step)%nat ->
  (S i mod step = if (S (i mod step) =? step)%nat then 0 else S (i mod step))%nat.
Proof.
  intros Hs.
  pose proof (Nat.div_mod_eq i step) as Hd.
  pose proof (Nat.mod_upper_bound i step ltac:(lia)) as Hr.
  destruct (Nat.eqb_spec (S (i mod step)) step) as [E | N]; symmetry.
  - apply Nat.mod_unique with (q := S (i / step)); [lia | ]. nia.
  - apply Nat.mod_unique with (q := (i / step)); [lia | ]. nia.
Qed.

(** With the index counted from [i], the [j]-th element kept is the one
    [j] steps after the first multiple of the step at or after [i]. *)
Lemma everyNth_nth_error {A : Type} (step : nat) (l : list A) :
  (0 < step)%nat ->
  forall i j,
    nth_error (VisualizePage.everyNth step i l) j
    = nth_error l ((step - i mod step) mod step + j * step).
Proof.
  intros Hs. induction l as [ | x l IH]; intros i j.
  - cbn. destruct j; destruct ((step - i mod step) mod step + _); reflexivity.
  - cbn [VisualizePage.everyNth].
    pose proof (Nat.mod_upper_bound i step ltac:(lia)) as Hr.
    pose proof (succ_mod i step Hs) as Hsucc.
    destruct (Nat.eqb_spec (i mod step) 0) as [E0 | N0].
    + rewrite E0, Nat.sub_0_r, Nat.Div0.mod_same. cbn [Nat.add].
      destruct j as [ | j]; [reflexivity | ].
      cbn [nth_error]. rewrite IH, Hsucc, E0.
      destruct (Nat.eqb_spec 1 step) as [E1 | N1].
      * rewrite Nat.sub_0_r, Nat.Div0.mod_same.
        replace (S j * step) with (S (0 + j * step)) by lia. reflexivity.
      * rewrite (Nat.mod_small (step - 1) step) by lia.
        replace (S j * step) with (S (step - 1 + j * step)) by lia. reflexivity.
    + rewrite (Nat.mod_small (step - i mod step) step) by lia.
      rewrite IH, Hsucc.
      replace (step - i mod step + j * step) with (S (step - S (i mod step) + j * step)) by lia.
      cbn [nth_error].
      destruct (Nat.eqb_spec (S (i mod step)) step) as [E1 | N1].
      * rewrite Nat.sub_0_r, Nat.Div0.mod_same. rewrite E1, Nat.sub_diag. reflexivity.
      * rewrite (Nat.mod_small (step - S (i mod step)) step) by lia. reflexivity.
Qed.

(** X15: the bar chart of an embedding draws at most 64 bars, and bar [j]
    shows the component at index [j * step], the dimension its tooltip
    names; the first component is always drawn. *)
Theorem sampledEmbedding_bars (embedding : list float) :
  (List.length (VisualizePage.sampledEmbedding embedding) <= 64)%nat
  /\ (forall j, nth_error (VisualizePage.sampledEmbedding embedding) j
                = nth_error embedding (j * VisualizePage.step embedding))
  /\ (List.length embedding <= 64 ->
      VisualizePage.sampledEmbedding embedding = embedding)%nat.
Proof.
  destruct embedding as [ | x e].
  { split; [cbn; lia | ]. split; [ | reflexivity].
    intros j. unfold VisualizePage.sampledEmbedding. cbn [VisualizePage.everyNth].
    destruct j; destruct (_ * _)%nat; reflexivity. }
  set (l := x :: e).
  assert (Hstep : (0 < VisualizePage.step l)%nat).
  { unfold VisualizePage.step, l. cbn [List.length].
    apply Nat.div_str_pos. lia. }
  assert (Hnth : forall j, nth_error (VisualizePage.sampledEmbedding l) j
                           = nth_error l (j * VisualizePage.step l)).
  { intros j. unfold VisualizePage.sampledEmbedding.
    rewrite everyNth_nth_error by assumption.
    rewrite Nat.Div0.mod_0_l, Nat.sub_0_r, Nat.Div0.mod_same. reflexivity. }
  split.
  { apply nth_error_None. rewrite Hnth. apply nth_error_None.
    unfold VisualizePage.step.
    pose proof (Nat.div_mod_eq (List.length l + 63) 64) as Hd.
    pose proof (Nat.mod_upper_bound (List.length l + 63) 64 ltac:(lia)) as Hr. lia. }
  split; [exact Hnth | ].
  intros Hle.
  assert (E : VisualizePage.step l = 1%nat).
  { unfold VisualizePage.step.
    assert (H1 : (1 <= List.length l)%nat) by (unfold l; cbn; lia).
    symmetry. apply Nat.div_unique with (r := (List.length l - 1)%nat); lia. }
  apply nth_error_ext. intros j. rewrite Hnth, E, Nat.mul_1_r. reflexivity.
Qed.

End Visualize.

(** ** The editing page *)

Section Editing.

Lemma equals_true (x : option string) (s : string) :
  NotesPage.equals x s = true <-> x = Some s.
Proof.
  destruct x as [y | ]; cbn; [ | split; discriminate].
  destruct (String.eqb_spec y s); split; congruence.
Qed.

Lemma equals_false (x : option string) (s : string) :
  NotesPage.equals x s = false <-> x <> Some s.
Proof.
  rewrite <- equals_true. destruct (NotesPage.equals x s); split; congruence.
Qed.

Lemma addNote_notes (uuid : string) (st : NotesPage.State) :
  truthy (NotesPage.activeCategory st) = true ->
  NotesPage.notes (NotesPage.addNote uuid st)
  = NotesPage.notes st
    ++ [NoteInput.mk (Some uuid) (Some "") (NotesPage.activeCategory st) None].
Proof.
  intros H. unfold NotesPage.addNote. rewrite H. reflexivity.
Qed.

Lemma deleteCategory_drops (categoryId : string) (st : NotesPage.State) :
  forall c, In c (NotesPage.categories (NotesPage.deleteCategory categoryId st)) ->
            In c (NotesPage.categories st) /\ CategoryInput.id c <> Some categoryId.
Proof.
  intros c H. cbn in H. apply filter_In in H. destruct H as [H1 H2].
  split; [exact H1 | ]. apply equals_false. now destruct (NotesPage.equals _ _).
Qed.



(** X17: deleting the first category while it is the active one removes it
    and its notes but leaves it the active category, because the handler
    reads the first category from the list as it was before the deletion:
    the page then shows no note, and a note added next is kept under the
    deleted category, outside every category of the page. *)
Theorem deleteCategory_first_stays_active
  (st : NotesPage.State) (first : CategoryInput.t) (rest : list CategoryInput.t)
  (categoryId uuid : string) :
  NotesPage.categories st = first :: rest ->
  CategoryInput.id first = Some categoryId ->
  NotesPage.activeCategory st = Some categoryId ->
  categoryId <> "" ->
  let st' := NotesPage.deleteCategory categoryId st in
  NotesPage.activeCategory st' = Some categoryId
  /\ (forall c, In c (NotesPage.categories st') -> CategoryInput.id c <> Some categoryId)
  /\ NotesPage.categoryNotes st' = []
  /\ In (NoteInput.mk (Some uuid) (Some "") (Some categoryId) None)
        (NotesPage.notes (NotesPage.addNote uuid st'))
  /\ ~ filed (NotesPage.addNote uuid st').
Proof.
  intros Hc Hf Ha Hne st'.
  assert (A' : NotesPage.activeCategory st' = Some categoryId).
  { unfold st', NotesPage.deleteCategory. cbn [NotesPage.activeCategory].
    rewrite Hc, Ha, Hf. destruct (_ && _); reflexivity. }
  assert (T : truthy (NotesPage.activeCategory st') = true).
  { rewrite A'. destruct categoryId; [congruence | reflexivity]. }
  assert (D : forall c, In c (NotesPage.categories st') ->
                        CategoryInput.id c <> Some categoryId).
  { intros c H. now apply (deleteCategory_drops categoryId st c). }
  assert (I : In (NoteInput.mk (Some uuid) (Some "") (Some categoryId) None)
                 (NotesPage.notes (NotesPage.addNote uuid st'))).
  { rewrite (addNote_notes uuid st' T), A'. apply in_or_app. right. now left. }
  split; [exact A' | ]. split; [exact D | ]. split; [ | split; [exact I | ]].
  - unfold NotesPage.categoryNotes. rewrite A'.
    unfold st', NotesPage.deleteCategory. cbn [NotesPage.notes].
    induction (NotesPage.notes st) as [ | n l IH]; [reflexivity | ].
    cbn [filter].
    destruct (NotesPage.equals (NoteInput.categoryId n) categoryId) eqn:E;
      cbn [negb]; [exact IH | ].
    assert (S : NotesPage.same (NoteInput.categoryId n) (Some categoryId) = false).
    { unfold NotesPage.same. unfold NotesPage.equals in E.
      destruct (NoteInput.categoryId n); [exact E | reflexivity]. }
    cbn [filter]. rewrite S. exact IH.
  - intros F. destruct (F _ I) as (c & i & Hin & Hi & Hci).
    cbn in Hi. injection Hi as <-.
    assert (Hin' : In c (NotesPage.categories st')).
    { revert Hin. unfold NotesPage.addNote. now destruct (negb _). }
    exact (D c Hin' Hci).
Qed.

Lemma deleteCategory_first_stays_active_witness :
  NotesPage.activeCategory (NotesPage.deleteCategory "c1" Sample2.page) = Some "c1"
  /\ ~ filed (NotesPage.addNote "n4" (NotesPage.deleteCategory "c1" Sample2.page)).
Proof.
  destruct (deleteCategory_first_stays_active Sample2.page
              (CategoryInput.mk (Some "c1") (Some "Hobbies") None)
              [CategoryInput.mk (Some "c2") (Some "Colours") None] "c1" "n4")
    as (A & _ & _ & _ & N);
    [reflexivity | reflexivity | reflexivity | discriminate | ].
  split; [exact A | exact N].
Defined.

(** X18: deleting a category leaves on the page exactly the categories and
    the notes of the other categories.  The active category is left alone
    when it is not the deleted one, and when the page has no category;
    when it is the deleted one and the first category of the page is
    another one, that first category becomes the active one, and it is
    still the first category of the page. *)
Theorem deleteCategory_switches_to_first (st : NotesPage.State) (categoryId : string) :
  (forall c, In c (NotesPage.categories (NotesPage.deleteCategory categoryId st))
             <-> In c (NotesPage.categories st) /\ CategoryInput.id c <> Some categoryId)
  /\ (forall n, In n (NotesPage.notes (NotesPage.deleteCategory categoryId st))
                <-> In n (NotesPage.notes st) /\ NoteInput.categoryId n <> Some categoryId)
  /\ (NotesPage.activeCategory st <> Some categoryId \/ NotesPage.categories st = [] ->
      NotesPage.activeCategory (NotesPage.deleteCategory categoryId st)
      = NotesPage.activeCategory st)
  /\ (forall first rest,
        NotesPage.categories st = first :: rest ->
        CategoryInput.id first <> Some categoryId ->
        NotesPage.activeCategory st = Some categoryId ->
        NotesPage.activeCategory (NotesPage.deleteCategory categoryId st)
        = CategoryInput.id first
        /\ exists rest',
             NotesPage.categories (NotesPage.deleteCategory categoryId st) = first :: rest').
Proof.
  unfold NotesPage.deleteCategory.
  cbn [NotesPage.activeCategory NotesPage.categories NotesPage.notes].
  split; [ | split; [ | split]].
  - intros c. rewrite filter_In, Bool.negb_true_iff, equals_false. reflexivity.
  - intros n. rewrite filter_In, Bool.negb_true_iff, equals_false. reflexivity.
  - intros [Ha | Hc].
    + apply equals_false in Ha. rewrite Ha. reflexivity.
    + rewrite Hc. cbn. rewrite Bool.andb_false_r. reflexivity.
  - intros first rest Hc Hf Ha. rewrite Hc, Ha.
    unfold NotesPage.equals at 1. rewrite String.eqb_refl.
    split; [reflexivity | ].
    cbn [filter]. apply equals_false in Hf. rewrite Hf. cbn [negb]. eexists. reflexivity.
Qed.

Lemma deleteCategory_switches_to_first_witness :
  NotesPage.activeCategory
    (NotesPage.deleteCategory "c2"
       (NotesPage.mkState (NotesPage.categories Sample2.page)
          (NotesPage.notes Sample2.page) (Some "c2") ""))
  = Some "c1"
  /\ NotesPage.activeCategory (NotesPage.deleteCategory "c1"
        (NotesPage.mkState (NotesPage.categories Sample2.page)
           (NotesPage.notes Sample2.page) (Some "c2") ""))
     = Some "c2".
Proof.
  split.
  - destruct (deleteCategory_switches_to_first
                (NotesPage.mkState (NotesPage.categories Sample2.page)
                   (NotesPage.notes Sample2.page) (Some "c2") "") "c2")
      as (_ & _ & _ & A).
    destruct (A (CategoryInput.mk (Some "c1") (Some "Hobbies") None)
                [CategoryInput.mk (Some "c2") (Some "Colours") None])
      as [A' _]; [reflexivity | discriminate | reflexivity | exact A'].
  - destruct (deleteCategory_switches_to_first
                (NotesPage.mkState (NotesPage.categories Sample2.page)
                   (NotesPage.notes Sample2.page) (Some "c2") "") "c1")
      as (_ & _ & A & _).
    apply A. left. discriminate.
Defined.

Lemma filter_all {A : Type} (f : A -> bool) (l : list A) :
  (forall x, In x l -> f x = true) -> filter f l = l.
Proof.
  induction l as [ | x l IH]; intros H; [reflexivity | ].
  cbn. rewrite (H x (or_introl eq_refl)). f_equal. apply IH.
  intros y Hy. apply H. now right.
Qed.

Lemma last_cons_default {A : Type} (vs : list A) :
  forall v e, last (v :: vs) e = last vs v.
Proof.
  induction vs as [ | w vs IH]; intros v e; [reflexivity | ].
  change (last (w :: vs) e = last (w :: vs) v). rewrite !IH. reflexivity.
Qed.

(** X19: a note added to the page under a fresh identifier, edited any
    number of times and then deleted leaves the notes of the page as they
    were: editing touches only the notes carrying the identifier and the
    deletion removes exactly those. *)
Theorem added_note_edit_delete (st : NotesPage.State) (uuid : string)
  (values : list string) :
  (forall n, In n (NotesPage.notes st) -> NoteInput.id n <> Some uuid) ->
  truthy (NotesPage.activeCategory st) = true ->
  let edited := fold_left (fun s v => NotesPage.updateNote uuid v s) values
                          (NotesPage.addNote uuid st) in
  NotesPage.notes edited
  = NotesPage.notes st
    ++ [NoteInput.mk (Some uuid) (Some (last values "")) (NotesPage.activeCategory st) None]
  /\ NotesPage.notes (NotesPage.removeNote uuid edited) = NotesPage.notes st
  /\ NotesPage.categories (NotesPage.removeNote uuid edited) = NotesPage.categories st
  /\ NotesPage.activeCategory (NotesPage.removeNote uuid edited)
     = NotesPage.activeCategory st.
Proof.
  intros Hfresh T edited.
  assert (U : forall l, (forall n, In n l -> NoteInput.id n <> Some uuid) ->
              forall v, map (fun n =>
                  if NotesPage.equals (NoteInput.id n) uuid
                  then NoteInput.mk (NoteInput.id n) (Some v) (NoteInput.categoryId n)
                                    (NoteInput.createdAt n)
                  else n) l = l).
  { intros l Hl v. induction l as [ | n l IH]; [reflexivity | ].
    cbn [map]. rewrite IH by (intros m Hm; apply Hl; now right).
    assert (E : NotesPage.equals (NoteInput.id n) uuid = false)
      by (apply equals_false, Hl; now left).
    now rewrite E. }
  assert (G : forall vs e s,
             NotesPage.categories s = NotesPage.categories st ->
             NotesPage.activeCategory s = NotesPage.activeCategory st ->
             NotesPage.notes s
             = NotesPage.notes st
               ++ [NoteInput.mk (Some uuid) (Some e) (NotesPage.activeCategory st) None] ->
             let s' := fold_left (fun s v => NotesPage.updateNote uuid v s) vs s in
             NotesPage.categories s' = NotesPage.categories st
             /\ NotesPage.activeCategory s' = NotesPage.activeCategory st
             /\ NotesPage.notes s'
                = NotesPage.notes st
                  ++ [NoteInput.mk (Some uuid) (Some (last vs e))
                                   (NotesPage.activeCategory st) None]).
  { induction vs as [ | v vs IH]; intros e s Hc Ha Hn; [now cbn | ].
    cbn [fold_left].
    rewrite last_cons_default.
    apply IH; [exact Hc | exact Ha | ].
    cbn [NotesPage.updateNote NotesPage.notes]. rewrite Hn, map_app, (U _ Hfresh).
    cbn [map NoteInput.id NoteInput.categoryId NoteInput.createdAt].
    unfold NotesPage.equals. rewrite String.eqb_refl. reflexivity. }
  destruct (G values "" (NotesPage.addNote uuid st)) as (Hc & Ha & Hn).
  { unfold NotesPage.addNote. now rewrite T. }
  { unfold NotesPage.addNote. now rewrite T. }
  { apply addNote_notes, T. }
  fold edited in Hc, Ha, Hn.
  split; [exact Hn | ]. split; [ | split; [exact Hc | exact Ha]].
  cbn [NotesPage.removeNote NotesPage.notes]. rewrite Hn, filter_app.
  cbn [filter NoteInput.id]. unfold NotesPage.equals at 2. rewrite String.eqb_refl.
  cbn [negb]. rewrite app_nil_r. apply filter_all.
  intros n Hin. apply Bool.negb_true_iff, equals_false, Hfresh, Hin.
Qed.

Lemma added_note_edit_delete_witness :
  NotesPage.notes
    (NotesPage.removeNote "n4"
       (fold_left (fun s v => NotesPage.updateNote "n4" v s) ["tea"; "green tea"]
                  (NotesPage.addNote "n4" Sample2.page)))
  = NotesPage.notes Sample2.page.
Proof.
  destruct (added_note_edit_delete Sample2.page "n4" ["tea"; "green tea"])
    as (_ & R & _).
  - intros n Hn. cbn in Hn. destruct Hn as [<- | [<- | [<- | []]]]; discriminate.
  - reflexivity.
  - exact R.
Defined.

End Editing.

(** ** The page on sample notes *)

Section PageSamples.

Local Open Scope float_scope.

Lemma page_similarity_is_server_similarity_witness :
  VisualizePage.cell (Sample.storedNote "n1" "gardening" "p1" (Some [1; 0]))
                     (Sample.storedNote "n2" "teal" "p1" (Some [0; 1]))
  = similarity (score [1; 0] (Sample.storedNote "n2" "teal" "p1" (Some [0; 1])))
  /\ VisualizePage.cell (Sample.storedNote "n1" "gardening" "p1" (Some [1; 0]))
                        (Sample.storedNote "n3" "novels" "p1" None)
     = 0.
Proof.
  destruct (page_similarity_is_server_similarity [] []) as (_ & S & Z).
  split; [apply S; reflexivity | apply Z; right; reflexivity].
Defined.

Lemma similarityMatrix_square_symmetric_witness :
  nth 1 (nth 0 (VisualizePage.similarityMatrix
                  [Sample.storedNote "n1" "gardening" "p1" (Some [1; 0]);
                   Sample.storedNote "n2" "roses" "p1" (Some [1; 1])]) []) 0
  = cosineSimilarity [1; 0] [1; 1].
Proof.
  destruct (similarityMatrix_square_symmetric
              [Sample.storedNote "n1" "gardening" "p1" (Some [1; 0]);
               Sample.storedNote "n2" "roses" "p1" (Some [1; 1])]) as (_ & _ & _ & C).
  apply (C 0%nat 1%nat (Sample.storedNote "n1" "gardening" "p1" (Some [1; 0]))
           (Sample.storedNote "n2" "roses" "p1" (Some [1; 1])) [1; 0] [1; 1]);
    reflexivity.
Defined.

Lemma sampledEmbedding_bars_witness :
  VisualizePage.sampledEmbedding [1; 0; 2] = [1; 0; 2].
Proof.
  destruct (sampledEmbedding_bars [1; 0; 2]) as (_ & _ & S).
  apply S. cbn. lia.
Defined.

End PageSamples.
